(** * client.js: provider normalisation and transport resilience

    A shallow embedding of [src/client.js] (the CORS-proxy failover fetcher,
    the server-sent-event stream decoder, model-alias resolution and the
    per-provider adapters) together with the properties its specification
    states about it.

    Conventions of the embedding.
    - A JavaScript string is the list of its UTF-16 code units ([jsstring]);
      [js "..."] writes an ASCII literal.
    - A JavaScript value is a tree ([value]); objects are association lists
      in property-creation order.  Names that objects inherit from their
      prototypes ([toString], [constructor], [map], ...) are outside the
      model: a property read only sees own properties, array indices and
      [length].
    - An object that the caller and the client share (the [params] argument)
      lives in a store ([store]) under a location; a property write updates
      the store in place, [{...params}] allocates a fresh location.
    - The network, [Math.random], [TextDecoder] and [JSON.parse] are the
      environment.  The first two are inputs of each operation; the last two
      are the fields of the class [Platform], so every theorem holds for any
      decoder that works byte by byte and for any parser.  [utf8_platform]
      is the instance used to run the model on concrete streams. *)

From Stdlib Require Import List NArith ZArith QArith String Ascii Lia Bool.
From Stdlib Require Import DecimalString Qround.
From stdpp Require Import gmap list.
Import ListNotations.

#[local] Open Scope N_scope.
#[local] Set Warnings "-register-all,-clear-no-such-hyp".

(** ** 1. Strings *)

Abbreviation jsstring := (list N) (only parsing).
Abbreviation byte := N (only parsing).

Definition js (s : string) : jsstring :=
  map N_of_ascii (list_ascii_of_string s).

(** A literal in which ['] stands for the double quote: JSON texts. *)
Definition jsq (s : string) : jsstring :=
  map (fun c => if N.eqb c 39 then 34 else c) (js s).

Definition LF : N := 10.

(** [s.split(sep)] for a one-character separator: never the empty array. *)
Fixpoint split_on (sep : N) (s : jsstring) : list jsstring :=
  match s with
  | [] => [[]]
  | c :: r =>
      if c =? sep then [] :: split_on sep r
      else match split_on sep r with
           | p :: ps => (c :: p) :: ps
           | [] => [[c]]
           end
  end.

(** [a.pop()]: the array without its last element, and that element. *)
Definition array_pop {A} (a : list A) : list A * option A :=
  (removelast a, last a).

(** ECMAScript WhiteSpace and LineTerminator code units, what [trim] strips. *)
Definition is_white_space (c : N) : bool :=
  (9 <=? c) && (c <=? 13) || (c =? 32) || (c =? 160) || (c =? 5760)
  || (8192 <=? c) && (c <=? 8202) || (c =? 8232) || (c =? 8233)
  || (c =? 8239) || (c =? 8287) || (c =? 12288) || (c =? 65279).

Fixpoint trim_start (s : jsstring) : jsstring :=
  match s with
  | c :: r => if is_white_space c then trim_start r else s
  | [] => []
  end.

Definition trim (s : jsstring) : jsstring :=
  rev (trim_start (rev (trim_start s))).

Definition is_empty (s : jsstring) : bool :=
  match s with [] => true | _ => false end.

Definition str_eqb (a b : jsstring) : bool := bool_decide (a = b).

Fixpoint starts_with (p s : jsstring) : bool :=
  match p, s with
  | [], _ => true
  | a :: p', b :: s' => (a =? b) && starts_with p' s'
  | _ :: _, [] => false
  end.

(** [s.slice(n)] for [0 <= n]. *)
Definition slice_from (n : nat) (s : jsstring) : jsstring := drop n s.

(** [s.includes(p)]. *)
Fixpoint includes (p s : jsstring) : bool :=
  starts_with p s ||
  match s with
  | [] => false
  | _ :: r => includes p r
  end.

(** [s.replaceAll(p, r)] for a non-empty pattern [p] and a replacement
    without [$]: matches are found left to right and do not overlap. *)
Fixpoint replace_all_fuel (fuel : nat) (p r s : jsstring) : jsstring :=
  match fuel with
  | O => s
  | S fuel' =>
      match s with
      | [] => []
      | c :: s' =>
          if starts_with p s
          then r ++ replace_all_fuel fuel' p r (drop (length p) s)
          else c :: replace_all_fuel fuel' p r s'
      end
  end.

Definition replace_all (p r s : jsstring) : jsstring :=
  replace_all_fuel (length s) p r s.

(** The position of the first occurrence of [p] in [s]. *)
Fixpoint index_of (p s : jsstring) : option nat :=
  if starts_with p s then Some O
  else match s with
       | [] => None
       | _ :: r => S <$> index_of p r
       end.

(** GetSubstitution for a string pattern: in the replacement text [$$] is a
    dollar sign, [$&] the matched text, [$`] what precedes the match and
    [$'] what follows it; any other [$] stands for itself. *)
Fixpoint get_substitution (matched before after r : jsstring) : jsstring :=
  match r with
  | [] => []
  | c :: r' =>
      if c =? 36 then
        match r' with
        | d :: r'' =>
            if d =? 36 then 36 :: get_substitution matched before after r''
            else if d =? 38 then matched ++ get_substitution matched before after r''
            else if d =? 96 then before ++ get_substitution matched before after r''
            else if d =? 39 then after ++ get_substitution matched before after r''
            else c :: get_substitution matched before after r'
        | [] => [c]
        end
      else c :: get_substitution matched before after r'
  end.

(** [s.replace(p, r)] for a string pattern: only the first occurrence. *)
Definition replace_first (p r s : jsstring) : jsstring :=
  match index_of p s with
  | None => s
  | Some i =>
      let before := take i s in
      let after := drop (i + length p) s in
      before ++ get_substitution p before after r ++ after
  end.

(** [a.join(sep)]. *)
Fixpoint join (sep : jsstring) (a : list jsstring) : jsstring :=
  match a with
  | [] => []
  | [x] => x
  | x :: r => x ++ sep ++ join sep r
  end.

(** ** 2. Values *)

(** A Number: [Dec m e] is the finite value [m * 10^e]; both zeros are
    [Dec 0 _]. *)
Inductive number :=
| NaN
| Inf (negative : bool)
| Dec (m : Z) (e : Z).

Definition number_truthy (x : number) : bool :=
  match x with
  | NaN => false
  | Inf _ => true
  | Dec m _ => negb (m =? 0)%Z
  end.

Definition N_to_js (n : N) : jsstring :=
  js (NilZero.string_of_uint (N.to_uint n)).

(** Drops the trailing decimal zeros of a positive significand. *)
Fixpoint strip_zeros (fuel : nat) (m : N) (e : Z) : N * Z :=
  match fuel with
  | O => (m, e)
  | S fuel' =>
      if (m mod 10 =? 0) && negb (m =? 0)
      then strip_zeros fuel' (m / 10) (e + 1)%Z
      else (m, e)
  end.

(** Number::toString (radix 10), on the shortest digits of the value. *)
Definition number_to_string (x : number) : jsstring :=
  match x with
  | NaN => js "NaN"
  | Inf false => js "Infinity"
  | Inf true => js "-Infinity"
  | Dec m e =>
      if (m =? 0)%Z then js "0"
      else
        let sign := if (m <? 0)%Z then js "-" else [] in
        let '(d, e') := strip_zeros (N.to_nat (N.size (Z.abs_N m))) (Z.abs_N m) e in
        let ds := N_to_js d in
        let k := Z.of_nat (length ds) in
        let n := (k + e')%Z in
        sign ++
        (if (k <=? n)%Z && (n <=? 21)%Z
         then ds ++ repeat 48 (Z.to_nat (n - k))
         else if (0 <? n)%Z && (n <=? 21)%Z
         then take (Z.to_nat n) ds ++ js "." ++ drop (Z.to_nat n) ds
         else if (-6 <? n)%Z && (n <=? 0)%Z
         then js "0." ++ repeat 48 (Z.to_nat (- n)) ++ ds
         else
           let ex := (n - 1)%Z in
           let es := (if (ex <? 0)%Z then js "-" else js "+") ++ N_to_js (Z.abs_N ex) in
           match ds with
           | [] => []
           | [d1] => d1 :: js "e" ++ es
           | d1 :: rest => d1 :: js "." ++ rest ++ js "e" ++ es
           end)
  end.

Inductive value :=
| VUndef
| VNull
| VBool (b : bool)
| VNum (x : number)
| VStr (s : jsstring)
| VArr (elems : list value)
| VObj (props : list (jsstring * value)).

(** ToBoolean. *)
Definition truthy (v : value) : bool :=
  match v with
  | VUndef | VNull => false
  | VBool b => b
  | VNum x => number_truthy x
  | VStr s => negb (is_empty s)
  | VArr _ | VObj _ => true
  end.

(** [a || b]. *)
Definition js_or (a b : value) : value := if truthy a then a else b.

(** *** Objects as property lists *)

Fixpoint obj_get {V} (ps : list (jsstring * V)) (k : jsstring) : option V :=
  match ps with
  | [] => None
  | (k', v) :: r => if str_eqb k' k then Some v else obj_get r k
  end.

(** [o[k] = v]: an existing property keeps its place, a new one goes last. *)
Fixpoint obj_set {V} (ps : list (jsstring * V)) (k : jsstring) (v : V)
  : list (jsstring * V) :=
  match ps with
  | [] => [(k, v)]
  | (k', v') :: r =>
      if str_eqb k' k then (k', v) :: r else (k', v') :: obj_set r k v
  end.

(** [delete o[k]]. *)
Definition obj_delete {V} (ps : list (jsstring * V)) (k : jsstring)
  : list (jsstring * V) :=
  filter (fun p => p.1 <> k) ps.

Definition has_key {V} (ps : list (jsstring * V)) (k : jsstring) : bool :=
  bool_decide (is_Some (obj_get ps k)).

Definition is_digit (c : N) : bool := (48 <=? c) && (c <=? 57).

Fixpoint digits_value (acc : N) (s : jsstring) : N :=
  match s with
  | [] => acc
  | c :: r => digits_value (10 * acc + (c - 48)) r
  end.

(** The array index a property key denotes: a canonical decimal numeral
    below [2^32 - 1]. *)
Definition array_index (k : jsstring) : option nat :=
  match k with
  | [] => None
  | c :: r =>
      if forallb is_digit k && (negb (c =? 48) || is_empty r)
         && (length k <=? 10)%nat && (digits_value 0 k <? 4294967295)
      then Some (N.to_nat (digits_value 0 k))
      else None
  end.

(** [v[k]] or [v.k]: [None] is the TypeError of reading a property of
    [undefined] or [null]. *)
Definition get_prop (v : value) (k : jsstring) : option value :=
  match v with
  | VUndef | VNull => None
  | VBool _ | VNum _ => Some VUndef
  | VStr s =>
      Some (if str_eqb k (js "length") then VNum (Dec (Z.of_nat (length s)) 0)
            else match array_index k with
                 | Some i => from_option (fun c => VStr [c]) VUndef (s !! i)
                 | None => VUndef
                 end)
  | VArr es =>
      Some (if str_eqb k (js "length") then VNum (Dec (Z.of_nat (length es)) 0)
            else match array_index k with
                 | Some i => default VUndef (es !! i)
                 | None => VUndef
                 end)
  | VObj ps => Some (default VUndef (obj_get ps k))
  end.

(** [v?.k]. *)
Definition opt_get (v : value) (k : jsstring) : value :=
  default VUndef (get_prop v k).

(** Rewrites the own property [k] of an object, or the element [k] of an
    array, with [f]; anything else is left as it is. *)
Definition modify_prop (v : value) (k : jsstring) (f : value -> value) : value :=
  match v with
  | VObj ps =>
      match obj_get ps k with
      | Some x => VObj (obj_set ps k (f x))
      | None => v
      end
  | VArr es =>
      match array_index k with
      | Some i => VArr (alter f i es)
      | None => v
      end
  | _ => v
  end.

(** [v.k = x] on an object. *)
Definition set_prop (v : value) (k : jsstring) (x : value) : value :=
  match v with
  | VObj ps => VObj (obj_set ps k x)
  | _ => v
  end.

(** ToString.  In [Array.prototype.join] an [undefined] or [null] element
    is the empty string. *)
Fixpoint to_string (v : value) : jsstring :=
  match v with
  | VUndef => js "undefined"
  | VNull => js "null"
  | VBool true => js "true"
  | VBool false => js "false"
  | VNum x => number_to_string x
  | VStr s => s
  | VArr es =>
      join (js ",")
        (map (fun e => match e with
                       | VUndef | VNull => []
                       | _ => to_string e
                       end) es)
  | VObj _ => js "[object Object]"
  end.

(** ** 3. The platform: [TextDecoder] and [JSON.parse] *)

(** [decoder_step] is what a [TextDecoder] does with one more byte of a
    stream (the Encoding standard describes every decoder as such a handler);
    [decoder_flush] is the end of a stream that is decoded as a whole.
    [JSON_parse] answers [None] where [JSON.parse] throws a SyntaxError, and
    never produces [VUndef]. *)
Class Platform := {
  decoder_state : Type;
  decoder_init : decoder_state;
  decoder_step : decoder_state -> byte -> decoder_state * jsstring;
  decoder_flush : decoder_state -> jsstring;
  JSON_parse : jsstring -> option value
}.

(** [decoder.decode(chunk, { stream: true })]. *)
Fixpoint decode_stream `{Platform} (d : decoder_state) (chunk : list byte)
  : decoder_state * jsstring :=
  match chunk with
  | [] => (d, [])
  | b :: r =>
      let '(d1, t1) := decoder_step d b in
      let '(d2, t2) := decode_stream d1 r in
      (d2, t1 ++ t2)
  end.

(** The text of a whole body, as [response.text()] decodes it. *)
Definition decode_all `{Platform} (body : list byte) : jsstring :=
  let '(d, t) := decode_stream decoder_init body in
  t ++ decoder_flush d.

(** *** The UTF-8 decoder of the Encoding standard *)

Record utf8_state := {
  u_code_point : N;
  u_seen : N;
  u_needed : N;
  u_lower : N;
  u_upper : N
}.

Definition utf8_reset : utf8_state :=
  {| u_code_point := 0; u_seen := 0; u_needed := 0; u_lower := 128; u_upper := 191 |}.

(** A byte read when no sequence is open. *)
Definition utf8_lead (b : N) : utf8_state * list N :=
  if b <=? 127 then (utf8_reset, [b])
  else if (194 <=? b) && (b <=? 223) then
    ({| u_code_point := N.land b 31; u_seen := 0; u_needed := 1;
        u_lower := 128; u_upper := 191 |}, [])
  else if (224 <=? b) && (b <=? 239) then
    ({| u_code_point := N.land b 15; u_seen := 0; u_needed := 2;
        u_lower := if b =? 224 then 160 else 128;
        u_upper := if b =? 237 then 159 else 191 |}, [])
  else if (240 <=? b) && (b <=? 244) then
    ({| u_code_point := N.land b 7; u_seen := 0; u_needed := 3;
        u_lower := if b =? 240 then 144 else 128;
        u_upper := if b =? 244 then 143 else 191 |}, [])
  else (utf8_reset, [65533]).

(** One byte: the code points it completes.  A byte that cannot continue the
    open sequence ends it with U+FFFD and is read again as a lead byte. *)
Definition utf8_byte (st : utf8_state) (b : N) : utf8_state * list N :=
  if u_needed st =? 0 then utf8_lead b
  else if negb ((u_lower st <=? b) && (b <=? u_upper st)) then
    let '(st', out) := utf8_lead b in (st', 65533 :: out)
  else
    let cp := N.lor (N.shiftl (u_code_point st) 6) (N.land b 63) in
    if u_seen st + 1 =? u_needed st then (utf8_reset, [cp])
    else ({| u_code_point := cp; u_seen := u_seen st + 1;
             u_needed := u_needed st; u_lower := 128; u_upper := 191 |}, []).

(** A code point as UTF-16 code units. *)
Definition code_point_units (cp : N) : jsstring :=
  if cp <? 65536 then [cp]
  else [55296 + (cp - 65536) / 1024; 56320 + (cp - 65536) mod 1024].

(** The decoder drops a byte order mark that is the first code point of the
    stream ([ignoreBOM] is false). *)
Fixpoint emit_code_points (bom_seen : bool) (cps : list N) : bool * jsstring :=
  match cps with
  | [] => (bom_seen, [])
  | cp :: r =>
      let '(seen, out) := emit_code_points true r in
      (seen, (if negb bom_seen && (cp =? 65279) then [] else code_point_units cp) ++ out)
  end.

Definition utf8_step (st : utf8_state * bool) (b : N) : (utf8_state * bool) * jsstring :=
  let '(st', cps) := utf8_byte st.1 b in
  let '(seen, out) := emit_code_points st.2 cps in
  ((st', seen), out).

Definition utf8_flush (st : utf8_state * bool) : jsstring :=
  if u_needed st.1 =? 0 then [] else (emit_code_points st.2 [65533]).2.

(** *** A JSON parser for the grammar of ECMA-404 *)

Definition is_json_ws (c : N) : bool :=
  (c =? 32) || (c =? 9) || (c =? 10) || (c =? 13).

Fixpoint skip_ws (s : jsstring) : jsstring :=
  match s with
  | c :: r => if is_json_ws c then skip_ws r else s
  | [] => []
  end.

Definition hex_value (c : N) : option N :=
  if is_digit c then Some (c - 48)
  else if (97 <=? c) && (c <=? 102) then Some (c - 87)
  else if (65 <=? c) && (c <=? 70) then Some (c - 55)
  else None.

(** The characters of a string literal after its opening quote. *)
Fixpoint parse_string_body (s : jsstring) : option (jsstring * jsstring) :=
  match s with
  | [] => None
  | 34 :: r => Some ([], r)
  | 92 :: 117 :: a :: b :: c :: d :: r =>
      match hex_value a, hex_value b, hex_value c, hex_value d, parse_string_body r with
      | Some a', Some b', Some c', Some d', Some (t, r') =>
          Some (((a' * 16 + b') * 16 + c') * 16 + d' :: t, r')
      | _, _, _, _, _ => None
      end
  | 92 :: e :: r =>
      let unescaped :=
        if e =? 34 then Some 34 else if e =? 92 then Some 92
        else if e =? 47 then Some 47 else if e =? 98 then Some 8
        else if e =? 102 then Some 12 else if e =? 110 then Some 10
        else if e =? 114 then Some 13 else if e =? 116 then Some 9
        else None in
      match unescaped, parse_string_body r with
      | Some c, Some (t, r') => Some (c :: t, r')
      | _, _ => None
      end
  | c :: r =>
      if c <? 32 then None
      else match parse_string_body r with
           | Some (t, r') => Some (c :: t, r')
           | None => None
           end
  end.

Fixpoint take_digits (s : jsstring) : jsstring * jsstring :=
  match s with
  | c :: r => if is_digit c then let '(d, r') := take_digits r in (c :: d, r') else ([], s)
  | [] => ([], [])
  end.

(** A number literal: [-? int frac? exp?].  The value is kept exact. *)
Definition parse_number (s : jsstring) : option (value * jsstring) :=
  let '(negative, s1) := match s with 45 :: r => (true, r) | _ => (false, s) end in
  let '(int, s2) := take_digits s1 in
  if is_empty int || (starts_with [48] int && negb (length int =? 1)%nat) then None
  else
    let frac_part :=
      match s2 with
      | 46 :: r => let '(f, r') := take_digits r in
                   if is_empty f then None else Some (f, r')
      | _ => Some ([], s2)
      end in
    match frac_part with
    | None => None
    | Some (frac, s3) =>
        let exp_part :=
          match s3 with
          | c :: r =>
              if (c =? 101) || (c =? 69) then
                let '(eneg, r1) := match r with
                                   | 45 :: r' => (true, r')
                                   | 43 :: r' => (false, r')
                                   | _ => (false, r)
                                   end in
                let '(ds, r2) := take_digits r1 in
                if is_empty ds then None
                else Some ((if eneg then - Z.of_N (digits_value 0 ds)
                            else Z.of_N (digits_value 0 ds))%Z, r2)
              else Some (0%Z, s3)
          | [] => Some (0%Z, s3)
          end in
        match exp_part with
        | None => None
        | Some (ex, s4) =>
            let m := Z.of_N (digits_value 0 (int ++ frac)) in
            Some (VNum (Dec (if negative then - m else m)%Z
                            (ex - Z.of_nat (length frac))%Z), s4)
        end
    end.

Fixpoint parse_value (fuel : nat) (s : jsstring) : option (value * jsstring) :=
  match fuel with
  | O => None
  | S fuel' =>
      match skip_ws s with
      | 110 :: 117 :: 108 :: 108 :: r => Some (VNull, r)
      | 116 :: 114 :: 117 :: 101 :: r => Some (VBool true, r)
      | 102 :: 97 :: 108 :: 115 :: 101 :: r => Some (VBool false, r)
      | 34 :: r =>
          match parse_string_body r with
          | Some (t, r') => Some (VStr t, r')
          | None => None
          end
      | 91 :: r =>
          match skip_ws r with
          | 93 :: r' => Some (VArr [], r')
          | _ => parse_elements fuel' [] r
          end
      | 123 :: r =>
          match skip_ws r with
          | 125 :: r' => Some (VObj [], r')
          | _ => parse_members fuel' [] r
          end
      | s' => parse_number s'
      end
  end
with parse_elements (fuel : nat) (acc : list value) (s : jsstring)
  : option (value * jsstring) :=
  match fuel with
  | O => None
  | S fuel' =>
      match parse_value fuel' s with
      | Some (v, r) =>
          match skip_ws r with
          | 44 :: r' => parse_elements fuel' (v :: acc) r'
          | 93 :: r' => Some (VArr (rev (v :: acc)), r')
          | _ => None
          end
      | None => None
      end
  end
with parse_members (fuel : nat) (acc : list (jsstring * value)) (s : jsstring)
  : option (value * jsstring) :=
  match fuel with
  | O => None
  | S fuel' =>
      match skip_ws s with
      | 34 :: r =>
          match parse_string_body r with
          | Some (k, r1) =>
              match skip_ws r1 with
              | 58 :: r2 =>
                  match parse_value fuel' r2 with
                  | Some (v, r3) =>
                      match skip_ws r3 with
                      | 44 :: r4 => parse_members fuel' (obj_set acc k v) r4
                      | 125 :: r4 => Some (VObj (obj_set acc k v), r4)
                      | _ => None
                      end
                  | None => None
                  end
              | _ => None
              end
          | None => None
          end
      | _ => None
      end
  end.

Definition json_parse (s : jsstring) : option value :=
  match parse_value (2 * length s + 2) s with
  | Some (v, r) => if is_empty (skip_ws r) then Some v else None
  | None => None
  end.

Definition utf8_platform : Platform := {|
  decoder_state := utf8_state * bool;
  decoder_init := (utf8_reset, false);
  decoder_step := utf8_step;
  decoder_flush := utf8_flush;
  JSON_parse := json_parse
|}.

(** ** 4. Requests, responses and failures *)

(** The conditions an operation fails with.  Each stands for the [Error]
    the source throws, or for the exception of a platform function:
    - [ProxyExhausted]: "All CORS proxy attempts failed for ...";
    - [UpstreamStatus]: "API request failed with status ...", "Failed to
      fetch models: ...", "Failed to fetch model mapping: ...", "Image
      generation request failed with status ...";
    - [StreamUnsupported]: "Streaming not supported in this environment";
    - [ModelResolutionFailed]: "Model is not supported: ..." with the task
      when the first routing entry declares another one;
    - [ConfigurationMissing]: "CorsProxyManager requires a non-empty array
      of proxy URLs.", "Client requires at least baseUrl, apiEndpoint, or
      apiKey to be set." and the like;
    - [TypeError], [URIError], [SyntaxError]: thrown by the language;
    - [NetworkFailure]: a rejected [fetch]. *)
Inductive error :=
| ProxyExhausted (target : jsstring)
| UpstreamStatus (status : N)
| StreamUnsupported
| ModelResolutionFailed (model : value) (task : option value)
| ConfigurationMissing
| TypeError
| URIError
| SyntaxError
| NetworkFailure.

Inductive outcome (A : Type) :=
| Returns (a : A)
| Throws (e : error).
Arguments Returns {A} a.
Arguments Throws {A} e.

Inductive http_method := GET | POST.

Record request := {
  req_url : jsstring;
  req_method : http_method;
  req_headers : list (jsstring * jsstring);
  (** the value handed to [JSON.stringify] *)
  req_body : option value
}.

Record response := {
  resp_ok : bool;
  resp_status : N;
  (** [response.headers.get('Content-Type')]: [None] is [null] *)
  resp_content_type : option jsstring;
  (** [response.url] *)
  resp_url : jsstring;
  (** the chunks [response.body.getReader()] delivers; [None]: no body *)
  resp_body : option (list (list byte))
}.

Inductive fetch_result :=
| Rejected
| Responded (r : response).

(** [await response.json()]. *)
Definition response_json `{Platform} (r : response) : outcome value :=
  match JSON_parse (decode_all (concat (default [] (resp_body r)))) with
  | Some v => Returns v
  | None => Throws SyntaxError
  end.

(** ** 5. The stream decoder: [Client._streamCompletion] *)

(** [data.choices && data.choices[0]?.delta?.reasoning]; [None] is the
    TypeError of [null.choices]. *)
Definition first_choice_reasoning (data : value) : option value :=
  match get_prop data (js "choices") with
  | None => None
  | Some choices =>
      if truthy choices then
        match get_prop choices (js "0") with
        | None => None
        | Some c0 =>
            match c0 with
            | VUndef | VNull => Some VUndef
            | _ =>
                match opt_get c0 (js "delta") with
                | VUndef | VNull => Some VUndef
                | delta => Some (opt_get delta (js "reasoning"))
                end
            end
        end
      else Some choices
  end.

(** [data.choices[0].delta.reasoning_content = data.choices[0].delta.reasoning]. *)
Definition copy_reasoning (data : value) : value :=
  modify_prop data (js "choices") (fun choices =>
    modify_prop choices (js "0") (fun c0 =>
      modify_prop c0 (js "delta") (fun delta =>
        set_prop delta (js "reasoning_content") (opt_get delta (js "reasoning"))))).

(** The body of the [try] once the payload is parsed: the value to yield,
    or [None] when the TypeError is caught. *)
Definition handle_data (data : value) : option value :=
  match first_choice_reasoning data with
  | None => None
  | Some r => Some (if truthy r then copy_reasoning data else data)
  end.

(** One complete line: what it yields, if anything. *)
Definition handle_part `{Platform} (part : jsstring) : option value :=
  if is_empty (trim part) || str_eqb part (js "data: [DONE]") then None
  else if starts_with (js "data: ") part then
    match JSON_parse (slice_from 6 part) with
    | Some data => handle_data data
    | None => None
    end
  else None.

Record stream_state `{Platform} := {
  st_decoder : decoder_state;
  st_buffer : jsstring
}.

(** One turn of the loop after [reader.read()] delivered [chunk]: the new
    state and the events yielded during the turn, in order. *)
Definition read_chunk `{Platform} (st : stream_state) (chunk : list byte)
  : stream_state * list value :=
  let '(d, text) := decode_stream (st_decoder st) chunk in
  let buffer := st_buffer st ++ text in
  let '(parts, final) := array_pop (split_on LF buffer) in
  ({| st_decoder := d; st_buffer := default (js "undefined") final |},
   omap handle_part parts).

Fixpoint read_chunks `{Platform} (st : stream_state) (chunks : list (list byte))
  : stream_state * list value :=
  match chunks with
  | [] => (st, [])
  | c :: r =>
      let '(st1, ev1) := read_chunk st c in
      let '(st2, ev2) := read_chunks st1 r in
      (st2, ev1 ++ ev2)
  end.

Definition stream_start `{Platform} : stream_state :=
  {| st_decoder := decoder_init; st_buffer := [] |}.

(** The events the decoder yields over a body delivered as [chunks]. *)
Definition decode_events `{Platform} (chunks : list (list byte)) : list value :=
  (read_chunks stream_start chunks).2.

(** The sequence [_streamCompletion(response)] produces, or the error its
    first [next()] raises. *)
Definition _streamCompletion `{Platform} (r : response) : outcome (list value) :=
  if negb (resp_ok r) then Throws (UpstreamStatus (resp_status r))
  else match resp_body r with
       | None => Throws StreamUnsupported
       | Some chunks => Returns (decode_events chunks)
       end.

Definition _regularCompletion `{Platform} (r : response) : outcome value :=
  if negb (resp_ok r) then Throws (UpstreamStatus (resp_status r))
  else response_json r.

(** *** Vocabulary for the decoder's properties *)

(** The lines of [text] that a newline completes, and what follows the last
    newline. *)
Definition complete_lines (text : jsstring) : list jsstring :=
  (array_pop (split_on LF text)).1.

Definition final_fragment (text : jsstring) : jsstring :=
  default (js "undefined") (array_pop (split_on LF text)).2.

(** All the text decoded once [chunks] have been read. *)
Definition decoded_text `{Platform} (chunks : list (list byte)) : jsstring :=
  (decode_stream decoder_init (concat chunks)).2.

(** The four kinds of line the specification lists as skipped. *)
Definition blank_line (part : jsstring) : bool := is_empty (trim part).
Definition sentinel_line (part : jsstring) : bool := str_eqb part (js "data: [DONE]").
Definition data_line (part : jsstring) : bool := starts_with (js "data: ") part.
Definition payload (part : jsstring) : jsstring := slice_from 6 part.

Definition listed_as_skipped `{Platform} (part : jsstring) : bool :=
  blank_line part || sentinel_line part || negb (data_line part)
  || bool_decide (JSON_parse (payload part) = None).

(** [event.choices[0].delta], when the event has one. *)
Definition first_choice_delta (event : value) : option value :=
  choices ← get_prop event (js "choices");
  c0 ← get_prop choices (js "0");
  get_prop c0 (js "delta").

(** The own property [k] of the first choice's delta object. *)
Definition delta_field (event : value) (k : jsstring) : option value :=
  match first_choice_delta event with
  | Some (VObj d) => obj_get d k
  | _ => None
  end.

(** The event a parsed payload is yielded as: itself, with the reasoning
    copied when [handle_data] does so. *)
Definition annotated (data : value) : value := default data (handle_data data).

(** What a complete line yields according to the specification as written:
    nothing for the four listed kinds of line, its event for any other. *)
Definition line_event_as_stated `{Platform} (part : jsstring) : option value :=
  if listed_as_skipped part then None
  else annotated <$> JSON_parse (payload part).

(** The same, with the payload [null] among the skipped lines. *)
Definition line_event `{Platform} (part : jsstring) : option value :=
  if listed_as_skipped part then None
  else match JSON_parse (payload part) with
       | Some VNull | Some VUndef | None => None
       | Some data => Some (annotated data)
       end.

(** ** 6. URI encoding *)

Definition is_high_surrogate (c : N) : bool := (55296 <=? c) && (c <=? 56319).
Definition is_low_surrogate (c : N) : bool := (56320 <=? c) && (c <=? 57343).

(** The code points of a string; [None] when a surrogate is unpaired. *)
Fixpoint code_points (s : jsstring) : option (list N) :=
  match s with
  | [] => Some []
  | c :: r =>
      if is_high_surrogate c then
        match r with
        | d :: r' =>
            if is_low_surrogate d
            then cons ((c - 55296) * 1024 + (d - 56320) + 65536) <$> code_points r'
            else None
        | [] => None
        end
      else if is_low_surrogate c then None
      else cons c <$> code_points r
  end.

Definition utf8_encode (cp : N) : list byte :=
  if cp <? 128 then [cp]
  else if cp <? 2048 then [192 + cp / 64; 128 + cp mod 64]
  else if cp <? 65536 then [224 + cp / 4096; 128 + (cp / 64) mod 64; 128 + cp mod 64]
  else [240 + cp / 262144; 128 + (cp / 4096) mod 64; 128 + (cp / 64) mod 64;
        128 + cp mod 64].

Definition hex_digit (n : N) : N := if n <? 10 then 48 + n else 55 + n.

Definition percent_encode (b : byte) : jsstring :=
  [37; hex_digit (b / 16); hex_digit (b mod 16)].

Definition is_alpha_numeric (c : N) : bool :=
  is_digit c || (65 <=? c) && (c <=? 90) || (97 <=? c) && (c <=? 122).

(** The characters [encodeURIComponent] leaves as they are:
    letters, digits and [- _ . ! ~ * ' ( )]. *)
Definition uri_unreserved (c : N) : bool :=
  is_alpha_numeric c || (c =? 45) || (c =? 95) || (c =? 46) || (c =? 33)
  || (c =? 126) || (c =? 42) || (c =? 39) || (c =? 40) || (c =? 41).

Definition encode_code_point (cp : N) : jsstring :=
  if uri_unreserved cp then [cp] else flat_map percent_encode (utf8_encode cp).

(** [encodeURIComponent(s)]; [None] is the URIError of a lone surrogate. *)
Definition encodeURIComponent (s : jsstring) : option jsstring :=
  cps ← code_points s;
  Some (flat_map encode_code_point cps).


(** ** 7. [CorsProxyManager] and [Client._fetchWithProxyRotation] *)

Record CorsProxyManager := {
  proxies : list jsstring;
  currentIndex : nat
}.

Definition default_proxies : list jsstring :=
  [js "https://corsproxy.io/?";
   js "https://api.allorigins.win/raw?url=";
   js "https://cloudflare-cors-anywhere.queakchannel42.workers.dev/?";
   js "https://proxy.cors.sh/";
   js "https://cors-anywhere.herokuapp.com/";
   js "https://thingproxy.freeboard.io/fetch/";
   js "https://cors.bridged.cc/";
   js "https://cors-proxy.htmldriven.com/?url=";
   js "https://yacdn.org/proxy/";
   js "https://api.codetabs.com/v1/proxy?quest="].

(** [new CorsProxyManager(proxies)]. *)
Definition new_CorsProxyManager (ps : list jsstring) : outcome CorsProxyManager :=
  if bool_decide (ps = []) then Throws ConfigurationMissing
  else Returns {| proxies := ps; currentIndex := 0 |}.

(** [getProxiedUrl(targetUrl)]. *)
Definition getProxiedUrl (m : CorsProxyManager) (targetUrl : jsstring)
  : outcome jsstring :=
  let proxy := default (js "undefined") (proxies m !! currentIndex m) in
  match encodeURIComponent targetUrl with
  | Some encoded => Returns (proxy ++ encoded)
  | None => Throws URIError
  end.

(** [rotateProxy()].  (With an empty list JavaScript's [%] gives [NaN]; the
    constructor refuses the empty list, and [_fetchWithProxyRotation] does
    not rotate when there is no proxy.) *)
Definition rotateProxy (m : CorsProxyManager) : CorsProxyManager :=
  {| proxies := proxies m;
     currentIndex := (currentIndex m + 1) mod length (proxies m) |}.

(** The options object passed to [fetch]. *)
Record request_config := {
  cfg_method : http_method;
  cfg_headers : list (jsstring * jsstring);
  cfg_body : option value
}.

(** [{}]: a GET without headers or body. *)
Definition empty_config : request_config :=
  {| cfg_method := GET; cfg_headers := []; cfg_body := None |}.

Definition make_request (url : jsstring) (c : request_config) : request :=
  {| req_url := url; req_method := cfg_method c;
     req_headers := cfg_headers c; req_body := cfg_body c |}.

(** The network answers the [n]-th request the program issues. *)
Definition network := nat -> request -> fetch_result.

(** The test the [try] block puts a response to: a success status, and a
    Content-Type that is [null], empty or contains [application/json]. *)
Definition acceptable (r : response) : bool :=
  resp_ok r &&
  match resp_content_type r with
  | None => true
  | Some ct => is_empty ct || includes (js "application/json") ct
  end.

(** An attempt that ends in the [catch] block. *)
Definition attempt_failed (fr : fetch_result) : bool :=
  match fr with
  | Rejected => true
  | Responded r => negb (acceptable r)
  end.

(** The [for] loop with [left] iterations to go; [log] holds the requests
    issued so far. *)
Fixpoint rotation_loop (net : network) (left : nat) (targetUrl : jsstring)
    (config : request_config) (m : CorsProxyManager) (log : list request)
  : outcome response * CorsProxyManager * list request :=
  match left with
  | O => (Throws (ProxyExhausted targetUrl), m, log)
  | S left' =>
      match getProxiedUrl m targetUrl with
      | Throws e => (Throws e, m, log)
      | Returns proxiedUrl =>
          let req := make_request proxiedUrl config in
          match net (length log) req with
          | Responded r =>
              if acceptable r then (Returns r, m, log ++ [req])
              else rotation_loop net left' targetUrl config (rotateProxy m) (log ++ [req])
          | Rejected =>
              rotation_loop net left' targetUrl config (rotateProxy m) (log ++ [req])
          end
      end
  end.


(** *** Vocabulary for the failover properties *)

(** The request of the [j]-th attempt of a call that starts from [m]. *)
Definition attempt (m : CorsProxyManager) (encoded : jsstring)
    (config : request_config) (j : nat) : request :=
  make_request
    (default (js "undefined")
       (proxies m !! ((currentIndex m + j) mod length (proxies m))%nat) ++ encoded)
    config.


(** ** 8. Alias resolution *)

(** [table[key]] on an object used as a map: the key is converted to a
    string, a missing property reads as [undefined]. *)
Definition table_get (table : list (jsstring * value)) (key : value) : value :=
  default VUndef (obj_get table (to_string key)).

(** [Math.floor(Math.random() * k)], where [r] is what [Math.random()]
    returned: a number with [0 <= r < 1]. *)
Definition random_index (r : Q) (k : nat) : nat :=
  Z.to_nat (Qfloor (r * inject_Z (Z.of_nat k))).

(** [Together._getModel(model, defaultModel)]; [r] is the value the call to
    [Math.random()] returns if it is made. *)
Definition _getModel (modelAliases : list (jsstring * value))
    (model defaultModel : value) (r : Q) : value :=
  let model := if negb (truthy model) then defaultModel else model in
  if truthy (table_get modelAliases model) then
    let alias := table_get modelAliases model in
    match alias with
    | VArr elems => default VUndef (elems !! random_index r (length elems))
    | _ => alias
    end
  else model.

(** The resolution at the head of [Client.chat.completions.create] and
    [Client.images.generate], which every adapter but Together uses:
    [let modelId = params.model || this.defaultModel;
     if (this.modelAliases[modelId]) modelId = this.modelAliases[modelId];]. *)
Definition resolve_model (modelAliases : list (jsstring * value))
    (model defaultModel : value) : value :=
  let modelId := js_or model defaultModel in
  if truthy (table_get modelAliases modelId) then table_get modelAliases modelId
  else modelId.

Definition alias_one (k v : string) : jsstring * value := (js k, VStr (js v)).
Definition alias_many (k : string) (vs : list string) : jsstring * value :=
  (js k, VArr (map (fun v => VStr (js v)) vs)).

(** The alias table of the Together adapter. *)
Definition together_aliases : list (jsstring * value) :=
  [ alias_one "llama-3.2-3b" "meta-llama/Llama-3.2-3B-Instruct-Turbo";
    alias_many "llama-2-70b" ["meta-llama/Llama-2-70b-hf"; "meta-llama/Llama-2-70b-hf"]%string;
    alias_many "llama-3-70b" ["meta-llama/Meta-Llama-3-70B-Instruct-Turbo";
                        "meta-llama/Llama-3-70b-chat-hf"]%string;
    alias_one "llama-3.2-90b" "meta-llama/Llama-3.2-90B-Vision-Instruct-Turbo";
    alias_many "llama-3.3-70b" ["meta-llama/Llama-3.3-70B-Instruct-Turbo";
                          "meta-llama/Llama-3.3-70B-Instruct-Turbo-Free"]%string;
    alias_one "llama-4-scout" "meta-llama/Llama-4-Scout-17B-16E-Instruct";
    alias_many "llama-3.1-8b" ["meta-llama/Meta-Llama-3.1-8B-Instruct-Turbo";
                         "blackbox/meta-llama-3-1-8b"]%string;
    alias_one "llama-3.2-11b" "meta-llama/Llama-3.2-11B-Vision-Instruct-Turbo";
    alias_many "llama-3-8b" ["meta-llama/Llama-3-8b-chat-hf";
                       "meta-llama/Meta-Llama-3-8B-Instruct-Lite"]%string;
    alias_many "llama-3.1-70b" ["meta-llama/Meta-Llama-3.1-70B-Instruct-Turbo"]%string;
    alias_one "llama-3.1-405b" "meta-llama/Meta-Llama-3.1-405B-Instruct-Turbo";
    alias_one "llama-4-maverick" "meta-llama/Llama-4-Maverick-17B-128E-Instruct-FP8";
    alias_one "deepseek-r1" "deepseek-ai/DeepSeek-R1";
    alias_many "deepseek-v3" ["deepseek-ai/DeepSeek-V3"; "deepseek-ai/DeepSeek-V3-p-dp"]%string;
    alias_many "deepseek-r1-distill-llama-70b"
      ["deepseek-ai/DeepSeek-R1-Distill-Llama-70B";
       "deepseek-ai/DeepSeek-R1-Distill-Llama-70B-free"]%string;
    alias_one "deepseek-r1-distill-qwen-1.5b" "deepseek-ai/DeepSeek-R1-Distill-Qwen-1.5B";
    alias_one "deepseek-r1-distill-qwen-14b" "deepseek-ai/DeepSeek-R1-Distill-Qwen-14B";
    alias_one "qwen-2.5-vl-72b" "Qwen/Qwen2.5-VL-72B-Instruct";
    alias_one "qwen-2.5-coder-32b" "Qwen/Qwen2.5-Coder-32B-Instruct";
    alias_one "qwen-2.5-7b" "Qwen/Qwen2.5-7B-Instruct-Turbo";
    alias_one "qwen-2-vl-72b" "Qwen/Qwen2-VL-72B-Instruct";
    alias_one "qwq-32b" "Qwen/QwQ-32B";
    alias_one "qwen-2.5-72b" "Qwen/Qwen2.5-72B-Instruct-Turbo";
    alias_many "qwen-3-235b" ["Qwen/Qwen3-235B-A22B-fp8"; "Qwen/Qwen3-235B-A22B-fp8-tput"]%string;
    alias_one "qwen-2-72b" "Qwen/Qwen2-72B-Instruct";
    alias_one "mixtral-8x7b" "mistralai/Mixtral-8x7B-Instruct-v0.1";
    alias_one "mistral-small-24b" "mistralai/Mistral-Small-24B-Instruct-2501";
    alias_many "mistral-7b" ["mistralai/Mistral-7B-Instruct-v0.1";
                       "mistralai/Mistral-7B-Instruct-v0.2";
                       "mistralai/Mistral-7B-Instruct-v0.3"]%string;
    alias_one "gemma-2-27b" "google/gemma-2-27b-it";
    alias_one "nemotron-70b" "nvidia/Llama-3.1-Nemotron-70B-Instruct-HF";
    alias_one "hermes-2-dpo" "NousResearch/Nous-Hermes-2-Mixtral-8x7B-DPO";
    alias_one "r1-1776" "perplexity-ai/r1-1776";
    alias_many "flux" ["black-forest-labs/FLUX.1-schnell-Free";
                 "black-forest-labs/FLUX.1-schnell";
                 "black-forest-labs/FLUX.1.1-pro";
                 "black-forest-labs/FLUX.1-pro";
                 "black-forest-labs/FLUX.1-dev"]%string;
    alias_many "flux-schnell" ["black-forest-labs/FLUX.1-schnell-Free";
                         "black-forest-labs/FLUX.1-schnell"]%string;
    alias_many "flux-pro" ["black-forest-labs/FLUX.1.1-pro"; "black-forest-labs/FLUX.1-pro"]%string;
    alias_one "flux-redux" "black-forest-labs/FLUX.1-redux";
    alias_one "flux-depth" "black-forest-labs/FLUX.1-depth";
    alias_one "flux-canny" "black-forest-labs/FLUX.1-canny";
    alias_one "flux-kontext-max" "black-forest-labs/FLUX.1-kontext-max";
    alias_one "flux-dev-lora" "black-forest-labs/FLUX.1-dev-lora";
    alias_many "flux-dev" ["black-forest-labs/FLUX.1-dev"; "black-forest-labs/FLUX.1-dev-lora"]%string;
    alias_one "flux-kontext-pro" "black-forest-labs/FLUX.1-kontext-pro" ].

(** ** 9. The store and the base client *)

(** Objects that are shared between the caller and the client live in the
    store.  A property holds a value tree: none of the modelled routines
    writes below the top level of such an object. *)
Abbreviation loc := positive (only parsing).
Abbreviation store := (gmap positive (list (jsstring * value))) (only parsing).

Record world := {
  w_store : store;
  (** the requests issued so far, oldest first *)
  w_log : list request
}.

(** [await fetch(url, config)]. *)
Definition fetch (net : network) (req : request) (w : world) : fetch_result * world :=
  (net (length (w_log w)) req,
   {| w_store := w_store w; w_log := w_log w ++ [req] |}).

(** [o.k] for an object of the store. *)
Definition prop (props : list (jsstring * value)) (k : jsstring) : value :=
  default VUndef (obj_get props k).

Definition write_props (w : world) (l : loc) (props : list (jsstring * value)) : world :=
  {| w_store := <[l := props]> (w_store w); w_log := w_log w |}.

(** *** Property order *)

Fixpoint insert_by_index (e : nat * (jsstring * value))
    (l : list (nat * (jsstring * value))) : list (nat * (jsstring * value)) :=
  match l with
  | [] => [e]
  | e' :: r => if (e.1 <=? e'.1)%nat then e :: l else e' :: insert_by_index e r
  end.

(** [[OwnPropertyKeys]]: array indices in ascending order, then the other
    names in creation order. *)
Definition own_entries (props : list (jsstring * value)) : list (jsstring * value) :=
  map snd (foldr insert_by_index []
             (omap (fun p => (fun i => (i, p)) <$> array_index p.1) props))
  ++ filter (fun p => array_index p.1 = None) props.

(** [{...o}]: a fresh object with the own properties of [o]. *)
Definition spread_copy (w : world) (props : list (jsstring * value)) : loc * world :=
  let l := fresh (dom (w_store w)) in
  (l, write_props w l (own_entries props)).

(** *** [URLSearchParams] *)

(** The code points of a string, U+FFFD standing for a lone surrogate. *)
Fixpoint scalar_values (s : jsstring) : list N :=
  match s with
  | [] => []
  | c :: r =>
      if is_high_surrogate c then
        match r with
        | d :: r' =>
            if is_low_surrogate d
            then ((c - 55296) * 1024 + (d - 56320) + 65536) :: scalar_values r'
            else 65533 :: scalar_values r
        | [] => [65533]
        end
      else if is_low_surrogate c then 65533 :: scalar_values r
      else c :: scalar_values r
  end.

(** The application/x-www-form-urlencoded serialisation of a string. *)
Definition form_encode (s : jsstring) : jsstring :=
  flat_map (fun b =>
              if is_alpha_numeric b || (b =? 42) || (b =? 45) || (b =? 46) || (b =? 95)
              then [b]
              else if b =? 32 then [43]
              else percent_encode b)
    (flat_map utf8_encode (scalar_values s)).

(** [new URLSearchParams(o).toString()] for an object [o]. *)
Definition url_search_params (props : list (jsstring * value)) : jsstring :=
  join (js "&")
    (map (fun p => form_encode p.1 ++ js "=" ++ form_encode (to_string p.2))
       (own_entries props)).

(** *** The client *)

Record Client := {
  proxyManager : CorsProxyManager;
  baseUrl : jsstring;
  apiEndpoint : jsstring;
  imageEndpoint : jsstring;
  defaultModel : value;
  defaulImageModel : value;
  apiKey : value;
  referrer : value;
  extraHeaders : list (jsstring * jsstring);
  modelAliases : list (jsstring * value);
  swapAliases : list (jsstring * value);
  _models : list value
}.

(** [Object.keys(modelAliases).forEach(key => swapAliases[modelAliases[key]] = key)]. *)
Definition build_swapAliases (aliases : list (jsstring * value)) : list (jsstring * value) :=
  foldl (fun swap p => obj_set swap (to_string p.2) (VStr p.1)) [] (own_entries aliases).

Definition set_proxyManager (c : Client) (m : CorsProxyManager) : Client :=
  {| proxyManager := m; baseUrl := baseUrl c; apiEndpoint := apiEndpoint c;
     imageEndpoint := imageEndpoint c; defaultModel := defaultModel c;
     defaulImageModel := defaulImageModel c; apiKey := apiKey c;
     referrer := referrer c; extraHeaders := extraHeaders c;
     modelAliases := modelAliases c; swapAliases := swapAliases c;
     _models := _models c |}.

Definition set_models (c : Client) (models : list value) : Client :=
  {| proxyManager := proxyManager c; baseUrl := baseUrl c; apiEndpoint := apiEndpoint c;
     imageEndpoint := imageEndpoint c; defaultModel := defaultModel c;
     defaulImageModel := defaulImageModel c; apiKey := apiKey c;
     referrer := referrer c; extraHeaders := extraHeaders c;
     modelAliases := modelAliases c; swapAliases := swapAliases c;
     _models := models |}.

(** What [chat.completions.create] resolves to. *)
Inductive completion :=
| Streamed (events : outcome (list value))
| Completed (body : value).

(** [Client.chat.completions.create(params)], [params] being the object at
    [p]. *)
Definition chat_completions_create `{Platform} (net : network) (c : Client) (p : loc)
    (w : world) : outcome completion * world :=
  match w_store w !! p with
  | None => (Throws TypeError, w)
  | Some props =>
      let modelId := resolve_model (modelAliases c) (prop props (js "model")) (defaultModel c) in
      let props := obj_set props (js "model") modelId in
      let props := if truthy (referrer c)
                   then obj_set props (js "referrer") (referrer c) else props in
      let w := write_props w p props in
      let req := {| req_url := apiEndpoint c; req_method := POST;
                    req_headers := extraHeaders c; req_body := Some (VObj props) |} in
      let '(fr, w) := fetch net req w in
      match fr with
      | Rejected => (Throws NetworkFailure, w)
      | Responded r =>
          if truthy (prop props (js "stream"))
          then (Returns (Streamed (_streamCompletion r)), w)
          else match _regularCompletion r with
               | Returns body => (Returns (Completed body), w)
               | Throws e => (Throws e, w)
               end
      end
  end.

(** The first lines of [_defaultImageGeneration]:
    [let prompt = params.prompt ? params.prompt : '';
     prompt = encodeURIComponent(prompt).replaceAll('%20', '+');]
    [None] is the URIError. *)
Definition template_prompt (params : list (jsstring * value)) : option jsstring :=
  let prompt := if truthy (prop params (js "prompt"))
                then prop params (js "prompt") else VStr [] in
  replace_all (js "%20") (js "+") <$> encodeURIComponent (to_string prompt).

(** [delete params.prompt;
     if (params.nologo === undefined) params.nologo = true;
     if (this.referrer) params.referrer = this.referrer;] *)
Definition template_defaults (referrer : value) (params : list (jsstring * value))
  : list (jsstring * value) :=
  let params := obj_delete params (js "prompt") in
  let params := match prop params (js "nologo") with
                | VUndef => obj_set params (js "nologo") (VBool true)
                | _ => params
                end in
  if truthy referrer then obj_set params (js "referrer") referrer else params.

(** [if (params.size) { params.width = params.size.split('x')[0];
     params.height = params.size.split('x')[1]; delete params.size; }]
    [None] is the TypeError of a truthy [size] that has no [split]. *)
Definition split_size (params : list (jsstring * value))
  : option (list (jsstring * value)) :=
  if truthy (prop params (js "size")) then
    match prop params (js "size") with
    | VStr size =>
        let parts := split_on 120 size in
        let part i := from_option VStr VUndef (parts !! i) in
        let params := obj_set params (js "width") (part 0%nat) in
        let params := obj_set params (js "height") (part 1%nat) in
        Some (obj_delete params (js "size"))
    | _ => None
    end
  else Some params.

(** What the template path answers to the response of its request. *)
Definition image_result (fr : fetch_result) : outcome value :=
  match fr with
  | Rejected => Throws NetworkFailure
  | Responded r =>
      if negb (resp_ok r) then Throws (UpstreamStatus (resp_status r))
      else Returns (VObj [(js "data", VArr [VObj [(js "url", VStr (resp_url r))]])])
  end.

(** [Client._defaultImageGeneration(params, requestOptions)], where
    [requestOptions] is [{ headers: this.extraHeaders }]. *)
Definition _defaultImageGeneration (net : network) (c : Client) (p : loc) (w : world)
  : outcome value * world :=
  match w_store w !! p with
  | None => (Throws TypeError, w)
  | Some caller_props =>
      let '(q, w) := spread_copy w caller_props in
      let params := own_entries caller_props in
      match template_prompt params with
      | None => (Throws URIError, w)
      | Some prompt =>
          let params := template_defaults (referrer c) params in
          let w := write_props w q params in
          match split_size params with
          | None => (Throws TypeError, w)
          | Some params =>
              let w := write_props w q params in
              let url := replace_first (js "{prompt}") prompt (imageEndpoint c)
                         ++ js "?" ++ url_search_params params in
              let req := {| req_url := url; req_method := GET;
                            req_headers := extraHeaders c; req_body := None |} in
              let '(fr, w) := fetch net req w in
              (image_result fr, w)
          end
      end
  end.

(** [await response.text()], then the error. *)
Definition _regularImageGeneration `{Platform} (net : network) (c : Client) (p : loc)
    (w : world) : outcome value * world :=
  match w_store w !! p with
  | None => (Throws TypeError, w)
  | Some props =>
      let req := {| req_url := imageEndpoint c; req_method := POST;
                    req_headers := extraHeaders c; req_body := Some (VObj props) |} in
      let '(fr, w) := fetch net req w in
      match fr with
      | Rejected => (Throws NetworkFailure, w)
      | Responded r =>
          if negb (resp_ok r) then (Throws (UpstreamStatus (resp_status r)), w)
          else (response_json r, w)
      end
  end.

(** [Client.images.generate(params)]. *)
Definition images_generate `{Platform} (net : network) (c : Client) (p : loc) (w : world)
  : outcome value * world :=
  match w_store w !! p with
  | None => (Throws TypeError, w)
  | Some props =>
      let modelId := resolve_model (modelAliases c) (prop props (js "model"))
                       (defaulImageModel c) in
      let w := write_props w p (obj_set props (js "model") modelId) in
      if includes (js "{prompt}") (imageEndpoint c)
      then _defaultImageGeneration net c p w
      else _regularImageGeneration net c p w
  end.

(** ** 10. Constructing the adapters *)

(** The own enumerable properties of a value, as [{...v}] and [for...in]
    see them. *)
Definition own_properties (v : value) : list (jsstring * value) :=
  match v with
  | VObj ps => own_entries ps
  | VArr es => imap (fun i e => (N_to_js (N.of_nat i), e)) es
  | VStr s => imap (fun i c => (N_to_js (N.of_nat i), VStr [c])) s
  | _ => []
  end.

(** [{...a, ...b}]. *)
Definition merge_objects (a b : list (jsstring * value)) : list (jsstring * value) :=
  foldl (fun acc p => obj_set acc p.1 p.2) (own_entries a) (own_entries b).

(** [new Client(options)].  [stored_key] is what
    [localStorage && localStorage.getItem("Azure-api_key")] evaluates to. *)
Definition new_Client (stored_key : value) (options : list (jsstring * value))
  : outcome Client :=
  let unconfigured :=
    negb (truthy (prop options (js "baseUrl")))
    && negb (truthy (prop options (js "apiEndpoint")))
    && negb (truthy (prop options (js "apiKey"))) in
  if unconfigured && negb (truthy stored_key) then Throws ConfigurationMissing
  else
    let options := if unconfigured then obj_set options (js "apiKey") stored_key
                   else options in
    let o k := prop options k in
    let base := to_string (js_or (o (js "baseUrl"))
                             (VStr (js "https://host.g4f.dev/api/Azure"))) in
    let key := o (js "apiKey") in
    let aliases := own_properties (js_or (o (js "modelAliases")) (VObj [])) in
    Returns
      {| proxyManager := {| proxies := default_proxies; currentIndex := 0 |};
         baseUrl := base;
         apiEndpoint := to_string (js_or (o (js "apiEndpoint"))
                                     (VStr (base ++ js "/chat/completions")));
         imageEndpoint := to_string (js_or (o (js "imageEndpoint"))
                                       (VStr (base ++ js "/images/generations")));
         defaultModel := js_or (o (js "defaultModel")) VNull;
         defaulImageModel := js_or (o (js "defaultImageModel")) (VStr (js "flux"));
         apiKey := key;
         referrer := o (js "referrer");
         extraHeaders :=
           map (fun p => (p.1, to_string p.2))
             (merge_objects
                ((js "Content-Type", VStr (js "application/json"))
                 :: (if truthy key
                     then [(js "Authorization", VStr (js "Bearer " ++ to_string key))]
                     else []))
                (own_properties (js_or (o (js "extraHeaders")) (VObj []))));
         modelAliases := aliases;
         swapAliases := build_swapAliases aliases;
         _models := [] |}.

Definition pollinations_aliases : list (jsstring * value) :=
  [ alias_one "gpt-oss-120b" "gpt-oss";
    alias_one "gpt-4o-mini" "openai";
    alias_one "gpt-4.1-nano" "openai-fast";
    alias_one "gpt-4.1" "openai-large";
    alias_one "o4-mini" "openai-reasoning";
    alias_one "command-r-plus" "command-r";
    alias_one "gemini-2.5-flash" "gemini";
    alias_one "gemini-2.0-flash-thinking" "gemini-thinking";
    alias_one "qwen-2.5-coder-32b" "qwen-coder";
    alias_one "llama-3.3-70b" "llama";
    alias_one "llama-4-scout" "llamascout";
    alias_one "mistral-small-3.1-24b" "mistral";
    alias_one "deepseek-r1" "deepseek-reasoning";
    alias_one "phi-4" "phi";
    alias_one "deepseek-v3" "deepseek";
    alias_one "grok-3-mini-high" "grok";
    alias_one "gpt-4o-audio" "openai-audio";
    alias_one "sdxl-turbo" "turbo";
    alias_one "gpt-image" "gptimage";
    alias_one "flux-kontext" "kontext" ].

Definition str_prop (k v : string) : jsstring * value := (js k, VStr (js v)).

(** [new PollinationsAI(options)]. *)
Definition new_PollinationsAI (options : list (jsstring * value)) : outcome Client :=
  new_Client VUndef
    (merge_objects
       [ str_prop "baseUrl" "https://text.pollinations.ai";
         str_prop "apiEndpoint" "https://text.pollinations.ai/openai";
         str_prop "imageEndpoint" "https://image.pollinations.ai/prompt/{prompt}";
         str_prop "defaultModel" "gpt-oss";
         str_prop "referrer" "https://g4f.dev";
         (js "modelAliases", VObj pollinations_aliases) ]
       options).

(** [new DeepInfra(options)]. *)
Definition new_DeepInfra (options : list (jsstring * value)) : outcome Client :=
  new_Client VUndef
    (merge_objects
       [ str_prop "baseUrl" "https://api.deepinfra.com/v1/openai";
         str_prop "defaultModel" "deepseek-ai/DeepSeek-V3-0324" ]
       options).

(** The adapter [new PollinationsAI()] builds. *)
Definition pollinations : Client :=
  {| proxyManager := {| proxies := default_proxies; currentIndex := 0 |};
     baseUrl := js "https://text.pollinations.ai";
     apiEndpoint := js "https://text.pollinations.ai/openai";
     imageEndpoint := js "https://image.pollinations.ai/prompt/{prompt}";
     defaultModel := VStr (js "gpt-oss");
     defaulImageModel := VStr (js "flux");
     apiKey := VUndef;
     referrer := VStr (js "https://g4f.dev");
     extraHeaders := [(js "Content-Type", js "application/json")];
     modelAliases := pollinations_aliases;
     swapAliases := build_swapAliases pollinations_aliases;
     _models := [] |}.

(** ** 11. Numeric comparison *)

(** The digits of a numeral in base [base], most significant first. *)
Fixpoint radix_value (base acc : N) (s : jsstring) : option N :=
  match s with
  | [] => Some acc
  | c :: r =>
      match hex_value c with
      | Some d => if d <? base then radix_value base (base * acc + d) r else None
      | None => None
      end
  end.

(** StrUnsignedDecimalLiteral, [Infinity] apart. *)
Definition unsigned_decimal (s : jsstring) : option number :=
  let '(int, r1) := take_digits s in
  let '(frac, r2) := match r1 with
                     | 46 :: r => take_digits r
                     | _ => ([], r1)
                     end in
  if is_empty int && is_empty frac then None
  else
    let mantissa := Z.of_N (digits_value 0 (int ++ frac)) in
    let scale := Z.of_nat (length frac) in
    match r2 with
    | [] => Some (Dec mantissa (- scale))
    | c :: r =>
        if (c =? 101) || (c =? 69) then
          let '(negative, r') := match r with
                                 | 45 :: t => (true, t)
                                 | 43 :: t => (false, t)
                                 | _ => (false, r)
                                 end in
          if negb (is_empty r') && forallb is_digit r' then
            let ex := Z.of_N (digits_value 0 r') in
            Some (Dec mantissa ((if negative then - ex else ex) - scale))
          else None
        else None
    end.

(** StringToNumber. *)
Definition string_to_number (s : jsstring) : number :=
  match trim s with
  | [] => Dec 0 0
  | 48 :: x :: r =>
      let base := if (x =? 120) || (x =? 88) then Some 16
                  else if (x =? 111) || (x =? 79) then Some 8
                  else if (x =? 98) || (x =? 66) then Some 2
                  else None in
      match base with
      | Some b =>
          match r, radix_value b 0 r with
          | _ :: _, Some n => Dec (Z.of_N n) 0
          | _, _ => NaN
          end
      | None => default NaN (unsigned_decimal (48 :: x :: r))
      end
  | c :: r =>
      let '(negative, body) := if c =? 45 then (true, r)
                               else if c =? 43 then (false, r)
                               else (false, c :: r) in
      if str_eqb body (js "Infinity") then Inf negative
      else match unsigned_decimal body with
           | Some (Dec m e) => Dec (if negative then - m else m) e
           | _ => NaN
           end
  end.

(** ToNumber. *)
Definition to_number (v : value) : number :=
  match v with
  | VUndef => NaN
  | VNull => Dec 0 0
  | VBool b => Dec (if b then 1 else 0) 0
  | VNum x => x
  | VStr s => string_to_number s
  | VArr _ | VObj _ => string_to_number (to_string v)
  end.

(** [v > 0]. *)
Definition greater_than_zero (v : value) : bool :=
  match to_number v with
  | NaN => false
  | Inf negative => negb negative
  | Dec m _ => (0 <? m)%Z
  end.

(** [v < 1]. *)
Definition less_than_one (v : value) : bool :=
  match to_number v with
  | NaN => false
  | Inf negative => negative
  | Dec m e => (m <=? 0)%Z || ((e <? 0)%Z && (m <? 10 ^ (- e))%Z)
  end.

(** ** 12. The aggregator: [PollinationsAI.models.list] *)

(** The two calls of [_fetchWithProxyRotation] that [Promise.all] awaits
    run interleaved: each runs until it awaits its [fetch], and goes on when
    the answer is delivered.  A call is either waiting for the answer to its
    attempt number [attempt], or finished. *)
Inductive rotation_task :=
| Waiting (attempt : nat) (answer : fetch_result)
| Finished (result : outcome response).

(** The head of the loop body: [attempt < maxAttempts], [getProxiedUrl] and
    the call of [fetch], whose answer the network fixes. *)
Definition next_attempt (net : network) (maxAttempts attempt : nat)
    (targetUrl : jsstring) (m : CorsProxyManager) (log : list request)
  : rotation_task * CorsProxyManager * list request :=
  if (attempt <? maxAttempts)%nat then
    match getProxiedUrl m targetUrl with
    | Throws e => (Finished (Throws e), m, log)
    | Returns proxiedUrl =>
        let req := make_request proxiedUrl empty_config in
        (Waiting attempt (net (length log) req), m, log ++ [req])
    end
  else (Finished (Throws (ProxyExhausted targetUrl)), m, log).

(** The rest of the loop body, once the answer is there. *)
Definition resume (net : network) (maxAttempts : nat) (targetUrl : jsstring)
    (t : rotation_task) (m : CorsProxyManager) (log : list request)
  : rotation_task * CorsProxyManager * list request :=
  match t with
  | Finished _ => (t, m, log)
  | Waiting attempt answer =>
      match answer with
      | Responded r =>
          if acceptable r then (Finished (Returns r), m, log)
          else next_attempt net maxAttempts (S attempt) targetUrl (rotateProxy m) log
      | Rejected =>
          next_attempt net maxAttempts (S attempt) targetUrl (rotateProxy m) log
      end
  end.

(** Both calls to the end.  When both wait, [schedule] says whose answer is
    delivered first ([true]: the first call's). *)
Fixpoint run_both (fuel : nat) (net : network) (maxAttempts : nat)
    (target1 target2 : jsstring) (schedule : list bool)
    (t1 t2 : rotation_task) (m : CorsProxyManager) (log : list request)
  : rotation_task * rotation_task * CorsProxyManager * list request :=
  match fuel with
  | O => (t1, t2, m, log)
  | S fuel' =>
      let first :=
        match t1, t2 with
        | Finished _, Finished _ => None
        | Waiting _ _, Finished _ => Some (true, schedule)
        | Finished _, Waiting _ _ => Some (false, schedule)
        | Waiting _ _, Waiting _ _ =>
            match schedule with
            | [] => Some (true, [])
            | b :: rest => Some (b, rest)
            end
        end in
      match first with
      | None => (t1, t2, m, log)
      | Some (true, rest) =>
          let '(t1', m', log') := resume net maxAttempts target1 t1 m log in
          run_both fuel' net maxAttempts target1 target2 rest t1' t2 m' log'
      | Some (false, rest) =>
          let '(t2', m', log') := resume net maxAttempts target2 t2 m log in
          run_both fuel' net maxAttempts target1 target2 rest t1 t2' m' log'
      end
  end.

(** One call on its own, every answer delivered as soon as it is awaited. *)
Fixpoint run_alone (fuel : nat) (net : network) (maxAttempts : nat)
    (targetUrl : jsstring) (t : rotation_task) (m : CorsProxyManager)
    (log : list request) : rotation_task * CorsProxyManager * list request :=
  match fuel, t with
  | S fuel', Waiting _ _ =>
      let '(t', m', log') := resume net maxAttempts targetUrl t m log in
      run_alone fuel' net maxAttempts targetUrl t' m' log'
  | _, _ => (t, m, log)
  end.

Definition task_result (t : rotation_task) : outcome response :=
  match t with
  | Finished r => r
  | Waiting _ _ => Throws NetworkFailure
  end.

(** [Promise.all([_fetchWithProxyRotation(target1), _fetchWithProxyRotation(target2)])]
    with the [catch] handlers left out: the two results. *)
Definition fetch_both (net : network) (target1 target2 : jsstring) (schedule : list bool)
    (m : CorsProxyManager) (log : list request)
  : outcome response * outcome response * CorsProxyManager * list request :=
  let n := length (proxies m) in
  let '(t1, m, log) := next_attempt net n 0 target1 m log in
  let '(t2, m, log) := next_attempt net n 0 target2 m log in
  let '(t1, t2, m, log) :=
    run_both (n + n) net n target1 target2 schedule t1 t2 m log in
  (task_result t1, task_result t2, m, log).

(** What a sub-fetch leaves in the array [Promise.all] resolves to: the
    response, or the value its [catch] handler substitutes. *)
Inductive settled :=
| GotResponse (r : response)
| Substituted (v : value).

Definition settle (substitute : value) (r : outcome response) : settled :=
  match r with
  | Returns resp => GotResponse resp
  | Throws _ => Substituted substitute
  end.

(** [await x.json()]: a plain value has no method [json]. *)
Definition settled_json `{Platform} (x : settled) : outcome value :=
  match x with
  | GotResponse r => response_json r
  | Substituted _ => Throws TypeError
  end.

(** The callback of [textModels.map]; [None] is a TypeError (a property of
    [null], or an assignment to a primitive in strict mode).  On an array
    the two assignments add named properties, which a value tree does not
    show. *)
Definition tag_text_model (swap : list (jsstring * value)) (model : value)
  : option value :=
  match model with
  | VObj ps =>
      let id := js_or (prop ps (js "id"))
                  (js_or (table_get swap (prop ps (js "name"))) (prop ps (js "name"))) in
      let ps := obj_set ps (js "id") id in
      Some (VObj (obj_set ps (js "type") (js_or (prop ps (js "type")) (VStr (js "chat")))))
  | VArr _ => Some model
  | _ => None
  end.

(** The callback of [imageModelsResponse.map]. *)
Definition tag_image_model (swap : list (jsstring * value)) (model : value) : value :=
  VObj [(js "id", js_or (table_get swap model) model); (js "type", VStr (js "image"))].

(** The static catalog of the [catch] block. *)
Definition fallback_models : list value :=
  let entry (id type : string) := VObj [str_prop "id" id; str_prop "type" type] in
  [entry "gpt-4.1-mini" "chat"; entry "deepseek-v3" "chat";
   entry "flux" "image"; entry "gpt-image" "image"]%string.

(** The body of the [try] block after [Promise.all]; [None] is any
    exception, which the [catch] block turns into the static catalog. *)
Definition merged_models `{Platform} (c : Client) (text image : settled)
  : option (list value) :=
  match settled_json text, settled_json image with
  | Returns text_json, Returns image_json =>
      match get_prop text_json (js "data") with
      | None => None
      | Some data =>
          match js_or data (js_or text_json (VArr [])), image_json with
          | VArr text_models, VArr image_models =>
              tagged ← mapM (tag_text_model (swapAliases c)) text_models;
              Some (tagged ++ map (tag_image_model (swapAliases c)) image_models)
          | _, _ => None
          end
      end
  | _, _ => None
  end.

Definition text_models_url : jsstring := js "https://text.pollinations.ai/models".
Definition image_models_url : jsstring := js "https://image.pollinations.ai/models".

(** [PollinationsAI.models.list()]: the list it resolves to, the adapter
    and the request log afterwards. *)
Definition pollinations_models_list `{Platform} (net : network) (schedule : list bool)
    (c : Client) (log : list request) : list value * Client * list request :=
  match _models c with
  | _ :: _ => (_models c, c, log)
  | [] =>
      let '(r1, r2, m, log) :=
        fetch_both net text_models_url image_models_url schedule (proxyManager c) log in
      let c := set_proxyManager c m in
      match merged_models c (settle (VObj [(js "data", VArr [])]) r1)
              (settle (VArr []) r2) with
      | Some models => (models, set_models c models, log)
      | None => (fallback_models, c, log)
      end
  end.

(** What the specification promises when the sub-fetches are settled as
    [text] and [image]: a failed half counts as an empty catalog, and the
    static catalog is for the case that nothing could be listed. *)
Definition models_as_specified `{Platform} (c : Client) (text image : outcome response)
  : list value :=
  let empty_response body :=
    {| resp_ok := true; resp_status := 200; resp_content_type := None;
       resp_url := []; resp_body := Some [body] |} in
  match text, image with
  | Throws _, Throws _ => fallback_models
  | _, _ =>
      let text_half := match text with
                       | Returns r => r
                       | Throws _ => empty_response (jsq "{'data':[]}")
                       end in
      let image_half := match image with
                        | Returns r => r
                        | Throws _ => empty_response (js "[]")
                        end in
      default fallback_models
        (merged_models c (GotResponse text_half) (GotResponse image_half))
  end.

(** ** 13. The config-caching adapter (Together) and the routing adapter
    (HuggingFace) *)

Record Together := {
  t_client : Client;
  modelsEndpoint : jsstring;
  _modelConfigs : list (jsstring * value);
  _cachedModels : value;
  (** what awaiting [this.getApiKey()] gives; [None]: there is no such
      method, which is the case for the class as the source defines it *)
  getApiKey : option (outcome value)
}.

(** [new Together(options)]; [stored_key] is what
    [localStorage && localStorage.getItem("Together-api_key")] evaluates to. *)
Definition new_Together (stored_key : value) (options : list (jsstring * value))
  : outcome Together :=
  let unconfigured :=
    negb (truthy (prop options (js "baseUrl")))
    && negb (truthy (prop options (js "apiEndpoint")))
    && negb (truthy (prop options (js "apiKey"))) in
  if unconfigured && negb (truthy stored_key) then Throws ConfigurationMissing
  else
    let options := if unconfigured then obj_set options (js "apiKey") stored_key
                   else options in
    match new_Client VUndef
            (merge_objects
               [ str_prop "baseUrl" "https://api.together.xyz/v1";
                 str_prop "defaultModel"
                   "meta-llama/Llama-4-Maverick-17B-128E-Instruct-FP8";
                 str_prop "defaulImageModel" "black-forest-labs/FLUX.1.1-pro";
                 (js "modelAliases",
                  VObj (merge_objects together_aliases
                          (own_properties (prop options (js "modelAliases"))))) ]
               options) with
    | Throws e => Throws e
    | Returns c =>
        Returns {| t_client := c;
                   modelsEndpoint := js "https://api.together.xyz/v1/models";
                   _modelConfigs := [];
                   _cachedModels := VArr [];
                   getApiKey := None |}
    end.

(** [this._modelConfigs[modelId] = ...] for one element of the catalog. *)
Definition record_config (configs : list (jsstring * value)) (model : value)
  : list (jsstring * value) :=
  let id := match model with
            | VUndef | VNull => VUndef
            | _ => opt_get model (js "id")
            end in
  if negb (truthy id) then configs
  else
    let config := opt_get model (js "config") in
    obj_set configs (to_string id)
      (if truthy config then
         VObj [ (js "stop", js_or (opt_get config (js "stop")) (VArr []));
                (js "chatTemplate", opt_get config (js "chat_template"));
                (js "bosToken", opt_get config (js "bos_token"));
                (js "eosToken", opt_get config (js "eos_token"));
                (js "contextLength", opt_get model (js "context_length")) ]
       else VObj []).

(** The strings a string iterator yields: one per code point, a lone
    surrogate on its own. *)
Fixpoint string_iterate (s : jsstring) : list jsstring :=
  match s with
  | [] => []
  | c :: r =>
      match r with
      | d :: r' =>
          if is_high_surrogate c && is_low_surrogate d
          then [c; d] :: string_iterate r'
          else [c] :: string_iterate r
      | [] => [[c]]
      end
  end.

(** The values [for (const model of modelsData)] goes through; [None]: the
    value is not iterable. *)
Definition iterate (v : value) : option (list value) :=
  match v with
  | VArr es => Some es
  | VStr s => Some (map VStr (string_iterate s))
  | _ => None
  end.

Definition set_catalog (t : Together) (cached : value) (configs : list (jsstring * value))
  : Together :=
  {| t_client := t_client t; modelsEndpoint := modelsEndpoint t;
     _modelConfigs := configs; _cachedModels := cached; getApiKey := getApiKey t |}.

(** [Together._loadModels()]: what it resolves to, or the TypeError of
    [this._cachedModels.length] on [null]. *)
Definition _loadModels `{Platform} (net : network) (t : Together) (w : world)
  : outcome value * Together * world :=
  match get_prop (_cachedModels t) (js "length") with
  | None => (Throws TypeError, t, w)
  | Some len =>
      if greater_than_zero len then (Returns (_cachedModels t), t, w)
      else
        match getApiKey t with
        | None | Some (Throws _) => (Returns (_cachedModels t), t, w)
        | Some (Returns _) =>
            let req := {| req_url := modelsEndpoint t; req_method := GET;
                          req_headers := extraHeaders (t_client t);
                          req_body := None |} in
            let '(fr, w) := fetch net req w in
            match fr with
            | Rejected => (Returns (_cachedModels t), t, w)
            | Responded r =>
                if negb (resp_ok r) then (Returns (_cachedModels t), t, w)
                else
                  match response_json r with
                  | Throws _ => (Returns (_cachedModels t), t, w)
                  | Returns modelsData =>
                      match iterate modelsData with
                      | None => (Returns modelsData, set_catalog t modelsData [], w)
                      | Some models =>
                          (Returns modelsData,
                           set_catalog t modelsData (foldl record_config [] models), w)
                      end
                  end
            end
        end
  end.

(** [Together.chat.completions.create(params)]; [random] is what
    [Math.random()] returns if [_getModel] calls it. *)
Definition together_chat_create `{Platform} (net : network) (random : Q)
    (t : Together) (p : loc) (w : world) : outcome completion * Together * world :=
  match get_prop (_cachedModels t) (js "length") with
  | None => (Throws TypeError, t, w)
  | Some len =>
      (** [!this._cachedModels.length < 1] *)
      let '(loaded, t, w) :=
        if less_than_one (VBool (negb (truthy len)))
        then _loadModels net t w else (Returns VUndef, t, w) in
      match loaded, w_store w !! p with
      | Throws e, _ => (Throws e, t, w)
      | _, None => (Throws TypeError, t, w)
      | Returns _, Some props =>
          let c := t_client t in
          let model := _getModel (modelAliases c) (prop props (js "model"))
                         (defaultModel c) random in
          let props := obj_set props (js "model") model in
          let modelConfig := js_or (table_get (_modelConfigs t) model) (VObj []) in
          let stop := opt_get modelConfig (js "stop") in
          let props :=
            if negb (truthy (prop props (js "stop"))) && truthy stop
               && greater_than_zero (opt_get stop (js "length"))
            then obj_set props (js "stop") stop else props in
          let w := write_props w p props in
          let req := {| req_url := apiEndpoint c; req_method := POST;
                        req_headers := obj_set (extraHeaders c) (js "Authorization")
                                         (js "Bearer " ++ to_string (apiKey c));
                        req_body := Some (VObj props) |} in
          let '(fr, w) := fetch net req w in
          match fr with
          | Rejected => (Throws NetworkFailure, t, w)
          | Responded r =>
              if truthy (prop props (js "stream"))
              then (Returns (Streamed (_streamCompletion r)), t, w)
              else match _regularCompletion r with
                   | Returns body => (Returns (Completed body), t, w)
                   | Throws e => (Throws e, t, w)
                   end
          end
      end
  end.

(** [Together.models.list()]. *)
Definition together_models_list `{Platform} (net : network) (t : Together) (w : world)
  : outcome value * Together * world :=
  _loadModels net t w.

(** [Together.images.generate(params)].  The call [this.loadModels()] that
    an empty cache leads to names a method no class defines. *)
Definition together_images_generate `{Platform} (net : network) (random : Q)
    (t : Together) (p : loc) (w : world) : outcome value * world :=
  match get_prop (_cachedModels t) (js "length") with
  | None => (Throws TypeError, w)
  | Some len =>
      if less_than_one len then (Throws TypeError, w)
      else
        match w_store w !! p with
        | None => (Throws TypeError, w)
        | Some props =>
            let c := t_client t in
            let props := obj_set props (js "model")
                           (_getModel (modelAliases c) (prop props (js "model"))
                              (defaulImageModel c) random) in
            let props := if truthy (prop props (js "image"))
                         then obj_delete (obj_set props (js "image_url")
                                            (prop props (js "image"))) (js "image")
                         else props in
            _regularImageGeneration net c p (write_props w p props)
        end
  end.

Record HuggingFace := {
  h_client : Client;
  providerMapping : list (jsstring * value)
}.

(** The routing map the constructor starts with. *)
Definition initial_providerMapping : list (jsstring * value) :=
  [ (js "google/gemma-3-27b-it",
     VObj [ (js "hf-inference/models/google/gemma-3-27b-it",
             VObj [ str_prop "task" "conversational";
                    str_prop "providerId" "google/gemma-3-27b-it" ]) ]) ].

Definition huggingface_aliases : list (jsstring * value) :=
  [ alias_one "llama-3" "meta-llama/Llama-3.3-70B-Instruct";
    alias_one "llama-3.3-70b" "meta-llama/Llama-3.3-70B-Instruct";
    alias_one "command-r-plus" "CohereForAI/c4ai-command-r-plus-08-2024";
    alias_one "deepseek-r1" "deepseek-ai/DeepSeek-R1";
    alias_one "deepseek-v3" "deepseek-ai/DeepSeek-V3";
    alias_one "qwq-32b" "Qwen/QwQ-32B";
    alias_one "nemotron-70b" "nvidia/Llama-3.1-Nemotron-70B-Instruct-HF";
    alias_one "qwen-2.5-coder-32b" "Qwen/Qwen2.5-Coder-32B-Instruct";
    alias_one "llama-3.2-11b" "meta-llama/Llama-3.2-11B-Vision-Instruct";
    alias_one "mistral-nemo" "mistralai/Mistral-Nemo-Instruct-2407";
    alias_one "phi-3.5-mini" "microsoft/Phi-3.5-mini-instruct";
    alias_one "gemma-3-27b" "google/gemma-3-27b-it";
    alias_one "flux" "black-forest-labs/FLUX.1-dev";
    alias_one "flux-dev" "black-forest-labs/FLUX.1-dev";
    alias_one "flux-schnell" "black-forest-labs/FLUX.1-schnell";
    alias_one "stable-diffusion-3.5-large" "stabilityai/stable-diffusion-3.5-large";
    alias_one "sdxl-1.0" "stabilityai/stable-diffusion-xl-base-1.0";
    alias_one "sdxl-turbo" "stabilityai/sdxl-turbo";
    alias_one "sd-3.5-large" "stabilityai/stable-diffusion-3.5-large" ].

(** [new HuggingFace(options)]; [ambient_key] is the key found in
    [process.env.HUGGINGFACE_API_KEY] or in [localStorage], if any. *)
Definition new_HuggingFace (ambient_key : value) (options : list (jsstring * value))
  : outcome HuggingFace :=
  if negb (truthy (prop options (js "apiKey"))) && negb (truthy ambient_key)
  then Throws ConfigurationMissing
  else
    let options := if truthy (prop options (js "apiKey")) then options
                   else obj_set options (js "apiKey") ambient_key in
    match new_Client VUndef
            (merge_objects
               [ str_prop "baseUrl" "https://api-inference.huggingface.co/v1";
                 str_prop "defaultModel" "meta-llama/Meta-Llama-3-8B-Instruct";
                 (js "modelAliases", VObj huggingface_aliases) ]
               options) with
    | Throws e => Throws e
    | Returns c => Returns {| h_client := c; providerMapping := initial_providerMapping |}
    end.

Definition mapping_url (model : value) : jsstring :=
  js "https://huggingface.co/api/models/" ++ to_string model
  ++ js "?expand[]=inferenceProviderMapping".

Definition mapping_request (h : HuggingFace) (model : value) : request :=
  {| req_url := mapping_url model; req_method := GET;
     req_headers := extraHeaders (h_client h); req_body := None |}.

(** What [_getMapping] makes of the answer to its request: the value of
    [modelData.inferenceProviderMapping], or the error raised on the way. *)
Definition mapping_of_answer `{Platform} (fr : fetch_result) : outcome value :=
  match fr with
  | Rejected => Throws NetworkFailure
  | Responded r =>
      if negb (resp_ok r) then Throws (UpstreamStatus (resp_status r))
      else
        match response_json r with
        | Throws e => Throws e
        | Returns modelData =>
            match get_prop modelData (js "inferenceProviderMapping") with
            | None => Throws TypeError
            | Some mapping => Returns mapping
            end
        end
  end.

(** [HuggingFace._getMapping(model)]. *)
Definition _getMapping `{Platform} (net : network) (h : HuggingFace) (model : value)
    (w : world) : outcome value * HuggingFace * world :=
  if truthy (table_get (providerMapping h) model)
  then (Returns (table_get (providerMapping h) model), h, w)
  else
    let '(fr, w) := fetch net (mapping_request h model) w in
    match mapping_of_answer fr with
    | Throws e => (Throws e, h, w)
    | Returns mapping =>
        (Returns mapping,
         {| h_client := h_client h;
            providerMapping := obj_set (providerMapping h) (to_string model) mapping |},
         w)
    end.

(** The router path for a provider key. *)
Definition provider_path (providerKey : jsstring) (model : value) : jsstring :=
  if str_eqb providerKey (js "novita") then js "novita/v3/openai"
  else if str_eqb providerKey (js "hf-inference")
  then providerKey ++ js "/models/" ++ to_string model ++ js "/v1"
  else providerKey ++ js "/v1".

Definition is_conversational (task : value) : bool :=
  match task with
  | VStr s => str_eqb s (js "conversational")
  | _ => false
  end.

(** The [for...in] loop, which ends in its first turn: the base URL and the
    model id for the request. *)
Definition route (mapping : value) (model : value) : outcome (value * value) :=
  match own_properties mapping with
  | [] => Returns (VUndef, model)
  | (providerKey, entry) :: _ =>
      match get_prop entry (js "task") with
      | None => Throws TypeError
      | Some task =>
          if is_conversational task then
            Returns (VStr (js "https://router.huggingface.co/"
                           ++ provider_path providerKey model),
                     opt_get entry (js "providerId"))
          else Throws (ModelResolutionFailed model (Some task))
      end
  end.

(** [if (!model) model = this.defaultModel;
     if (this.modelAliases[model]) model = this.modelAliases[model];] *)
Definition huggingface_resolve (c : Client) (model : value) : value :=
  let model := if negb (truthy model) then defaultModel c else model in
  if truthy (table_get (modelAliases c) model)
  then table_get (modelAliases c) model else model.

(** The completion request: [{ model, ...options }] posted to
    [`${apiBase}/chat/completions`]. *)
Definition router_request (c : Client) (props : list (jsstring * value))
    (apiBase model : value) : request :=
  {| req_url := to_string apiBase ++ js "/chat/completions";
     req_method := POST;
     req_headers := extraHeaders c;
     req_body := Some (VObj ((js "model", model)
                             :: obj_delete (own_entries props) (js "model"))) |}.

(** [HuggingFace.chat.completions.create(params)]. *)
Definition huggingface_chat_create `{Platform} (net : network) (h : HuggingFace)
    (p : loc) (w : world) : outcome completion * HuggingFace * world :=
  match w_store w !! p with
  | None => (Throws TypeError, h, w)
  | Some props =>
      let c := h_client h in
      let model := huggingface_resolve c (prop props (js "model")) in
      let '(found, h, w) := _getMapping net h model w in
      match found with
      | Throws e => (Throws e, h, w)
      | Returns mapping =>
          if negb (truthy mapping)
          then (Throws (ModelResolutionFailed model None), h, w)
          else
            match route mapping model with
            | Throws e => (Throws e, h, w)
            | Returns (apiBase, model) =>
                let '(fr, w) := fetch net (router_request c props apiBase model) w in
                match fr with
                | Rejected => (Throws NetworkFailure, h, w)
                | Responded r =>
                    if truthy (prop props (js "stream"))
                    then (Returns (Streamed (_streamCompletion r)), h, w)
                    else match _regularCompletion r with
                         | Returns body => (Returns (Completed body), h, w)
                         | Throws e => (Throws e, h, w)
                         end
                end
            end
      end
  end.


(** The request [Together.chat.completions.create] sends. *)
Definition together_request (t : Together) (body : list (jsstring * value)) : request :=
  {| req_url := apiEndpoint (t_client t); req_method := POST;
     req_headers := obj_set (extraHeaders (t_client t)) (js "Authorization")
                      (js "Bearer " ++ to_string (apiKey (t_client t)));
     req_body := Some (VObj body) |}.

(** ** 14. Vocabulary for the proofs *)

(** The attempts a call of [_fetchWithProxyRotation] has left, and the
    bound on the attempt it waits for. *)
Definition attempts_left (maxAttempts : nat) (t : rotation_task) : nat :=
  match t with
  | Waiting attempt _ => (maxAttempts - attempt)%nat
  | Finished _ => 0%nat
  end.

Definition in_loop (maxAttempts : nat) (t : rotation_task) : Prop :=
  match t with
  | Waiting attempt _ => (attempt < maxAttempts)%nat
  | Finished _ => True
  end.





(** Arrays and objects. *)
Definition compound (v : value) : Prop :=
  match v with VArr _ | VObj _ => True | _ => False end.

(** ** 15. Scenarios *)

(** A network that answers every request with an empty success. *)
Definition ok_network : network :=
  fun _ req =>
    Responded {| resp_ok := true; resp_status := 200; resp_content_type := None;
                 resp_url := req_url req; resp_body := Some [] |}.

(** The image request of the specification's scenario:
    [{ model: "flux", prompt: "a cat", size: "512x512" }]. *)
Definition image_params : list (jsstring * value) :=
  [str_prop "model" "flux"; str_prop "prompt" "a cat"; str_prop "size" "512x512"].

(** A chat request: [{ model: "gpt-4o-mini", messages: [{ role: "user",
    content: "hi" }] }]. *)
Definition chat_params : list (jsstring * value) :=
  [ str_prop "model" "gpt-4o-mini";
    (js "messages", VArr [VObj [str_prop "role" "user"; str_prop "content" "hi"]]) ].

(** A store that holds [props] as its only object, at location 1. *)
Definition world_with (props : list (jsstring * value)) : world :=
  {| w_store := {[ 1%positive := props ]}; w_log := [] |}.

(** A network on which every proxied request for the text catalog is
    refused and every proxied request for the image catalog is answered
    with [["flux","turbo"]]. *)
Definition image_catalog_only : network :=
  fun _ req =>
    if includes (js "image.pollinations.ai") (req_url req)
    then Responded {| resp_ok := true; resp_status := 200;
                      resp_content_type := Some (js "application/json");
                      resp_url := req_url req;
                      resp_body := Some [jsq "['flux','turbo']"] |}
    else Rejected.

(** What [new Together({ apiKey: "key" })] builds.  The constructor passes
    its image model as [defaulImageModel], a name the base constructor does
    not read, so the base default stays. *)
Definition together_client : Client :=
  {| proxyManager := {| proxies := default_proxies; currentIndex := 0 |};
     baseUrl := js "https://api.together.xyz/v1";
     apiEndpoint := js "https://api.together.xyz/v1/chat/completions";
     imageEndpoint := js "https://api.together.xyz/v1/images/generations";
     defaultModel := VStr (js "meta-llama/Llama-4-Maverick-17B-128E-Instruct-FP8");
     defaulImageModel := VStr (js "flux");
     apiKey := VStr (js "key");
     referrer := VUndef;
     extraHeaders := [ (js "Content-Type", js "application/json");
                       (js "Authorization", js "Bearer key") ];
     modelAliases := together_aliases;
     swapAliases := build_swapAliases together_aliases;
     _models := [] |}.

Definition together : Together :=
  {| t_client := together_client;
     modelsEndpoint := js "https://api.together.xyz/v1/models";
     _modelConfigs := [];
     _cachedModels := VArr [];
     getApiKey := None |}.

(** The same adapter, had the class a [getApiKey] method that resolves. *)
Definition together_with_key_method : Together :=
  {| t_client := together_client;
     modelsEndpoint := js "https://api.together.xyz/v1/models";
     _modelConfigs := [];
     _cachedModels := VArr [];
     getApiKey := Some (Returns (VStr (js "key"))) |}.

(** A network that serves a one-model catalog with a stop list to every GET
    and an empty object to every POST. *)
Definition catalog_network : network :=
  fun _ req =>
    Responded
      {| resp_ok := true; resp_status := 200;
         resp_content_type := Some (js "application/json");
         resp_url := req_url req;
         resp_body :=
           Some [match req_method req with
                 | GET => jsq "[{'id':'meta-llama/Llama-4-Maverick-17B-128E-Instruct-FP8','config':{'stop':['<|eot_id|>']}}]"
                 | POST => jsq "{}"
                 end] |}.

(** A chat request that names no model and no stop list:
    [{ messages: [{ role: "user", content: "hi" }] }]. *)
Definition plain_chat_params : list (jsstring * value) :=
  [ (js "messages", VArr [VObj [str_prop "role" "user"; str_prop "content" "hi"]]) ].

(** What [new HuggingFace({ apiKey: "key" })] builds. *)
Definition huggingface : HuggingFace :=
  {| h_client :=
       {| proxyManager := {| proxies := default_proxies; currentIndex := 0 |};
          baseUrl := js "https://api-inference.huggingface.co/v1";
          apiEndpoint := js "https://api-inference.huggingface.co/v1/chat/completions";
          imageEndpoint := js "https://api-inference.huggingface.co/v1/images/generations";
          defaultModel := VStr (js "meta-llama/Meta-Llama-3-8B-Instruct");
          defaulImageModel := VStr (js "flux");
          apiKey := VStr (js "key");
          referrer := VUndef;
          extraHeaders := [ (js "Content-Type", js "application/json");
                            (js "Authorization", js "Bearer key") ];
          modelAliases := huggingface_aliases;
          swapAliases := build_swapAliases huggingface_aliases;
          _models := [] |};
     providerMapping := initial_providerMapping |}.



Definition unlisted_params : list (jsstring * value) :=
  [ str_prop "model" "acme/unlisted";
    (js "messages", VArr [VObj [str_prop "role" "user"; str_prop "content" "hi"]]) ].


(** ** 16. The other operations of the adapters *)

(** [v === s] for a string literal [s]. *)
Definition is_string (s : jsstring) (v : value) : bool :=
  match v with
  | VStr s' => str_eqb s' s
  | _ => false
  end.

(** [providers.some(provider => provider.status === "live" &&
    provider.task === "conversational")]: the providers are tried in order
    up to the first hit; [None] is the TypeError of a provider that is
    [null]. *)
Fixpoint some_live_conversational (providers : list value) : option bool :=
  match providers with
  | [] => Some false
  | provider :: rest =>
      match get_prop provider (js "status") with
      | None => None
      | Some status =>
          if is_string (js "live") status
             && is_string (js "conversational") (opt_get provider (js "task"))
          then Some true
          else some_live_conversational rest
      end
  end.

(** The callback of [data.filter]: [model.inferenceProviderMapping?.some(...)].
    [None] is a TypeError: the model is [null], or its mapping is neither
    absent nor an array and so has no method [some]. *)
Definition has_live_provider (model : value) : option bool :=
  match get_prop model (js "inferenceProviderMapping") with
  | None => None
  | Some (VUndef | VNull) => Some false
  | Some (VArr providers) => some_live_conversational providers
  | Some _ => None
  end.

(** [data.filter(callback)] for a callback that may throw. *)
Fixpoint filter_models (models : list value) : option (list value) :=
  match models with
  | [] => Some []
  | model :: rest =>
      match has_live_provider model with
      | None => None
      | Some keep =>
          match filter_models rest with
          | None => None
          | Some kept => Some (if keep then model :: kept else kept)
          end
      end
  end.

(** [Object.keys(this.providerMapping).map(model => ({ id: model, type: "chat" }))]. *)
Definition cached_models (mapping : list (jsstring * value)) : list value :=
  map (fun p => VObj [(js "id", VStr p.1); (js "type", VStr (js "chat"))])
    (own_entries mapping).

Definition huggingface_models_url : jsstring :=
  js "https://huggingface.co/api/models?inference=warm&&expand[]=inferenceProviderMapping".

(** [HuggingFace.models.list()]; the request is made without options. *)
Definition huggingface_models_list `{Platform} (net : network) (h : HuggingFace)
    (w : world) : outcome (list value) * world :=
  let '(fr, w) := fetch net (make_request huggingface_models_url empty_config) w in
  match fr with
  | Rejected => (Throws NetworkFailure, w)
  | Responded r =>
      if negb (resp_ok r) then (Throws (UpstreamStatus (resp_status r)), w)
      else
        match response_json r with
        | Throws e => (Throws e, w)
        | Returns (VArr models) =>
            match filter_models models with
            | None => (Throws TypeError, w)
            | Some kept => (Returns (kept ++ cached_models (providerMapping h)), w)
            end
        | Returns _ => (Throws TypeError, w)
        end
  end.

(** *** Puter *)

(** What [puter.ai.chat(messages, false, options)] resolves to: a plain
    response, or an asynchronous sequence of items that may end in an
    error. *)
Inductive sdk_result :=
| Plain (response : value)
| Sequence (items : list value) (failure : option error).

(** The adapter: [puter_chat] is the [ai.chat] of the SDK that
    [await this.puter] gives; [None]: the promise is rejected (no browser,
    or the script failed to load). *)
Record Puter := {
  p_defaultModel : value;
  puter_chat : option (value -> list (jsstring * value) -> outcome sdk_result)
}.

(** [new Puter(options)] apart from [this.puter], which is the environment's. *)
Definition puter_defaultModel (options : list (jsstring * value)) : value :=
  js_or (prop options (js "defaultModel")) (VStr (js "gpt-4.1")).

(** [x == undefined]. *)
Definition nullish (v : value) : bool :=
  match v with VUndef | VNull => true | _ => false end.

(** [x !== undefined]. *)
Definition defined (v : value) : bool :=
  match v with VUndef => false | _ => true end.

(** [{ ...response, get choices() { return [wrapped]; } }] when the
    response has no [choices] but has [field]; [wrap] builds the single
    choice.  [None] is the TypeError of a response that is [null].  The
    accessor is shown as a property holding what it returns. *)
Definition with_choices (field : jsstring) (wrap : value -> value) (response : value)
  : option value :=
  match get_prop response (js "choices"), get_prop response field with
  | Some choices, Some x =>
      if nullish choices && defined x
      then Some (VObj (obj_set (own_properties response) (js "choices") (VArr [wrap x])))
      else Some response
  | _, _ => None
  end.

Definition message_choice (message : value) : value :=
  VObj [(js "message", message)].

Definition delta_choice (text : value) : value :=
  VObj [(js "delta", VObj [(js "content", text)])].

(** [const { messages, ...options } = params;
     if (!options.model && this.defaultModel) options.model = this.defaultModel;] *)
Definition puter_options (pt : Puter) (params : list (jsstring * value))
  : list (jsstring * value) :=
  let options := obj_delete (own_entries params) (js "messages") in
  if negb (truthy (prop options (js "model"))) && truthy (p_defaultModel pt)
  then obj_set options (js "model") (p_defaultModel pt)
  else options.

(** The items [for await (const item of answer)] goes through, and the
    error that ends the loop, if any. *)
Definition sdk_items (answer : sdk_result) : list value * option error :=
  match answer with
  | Sequence items failure => (items, failure)
  | Plain v =>
      match iterate v with
      | Some items => (items, None)
      | None => ([], Some TypeError)
      end
  end.

(** The items yielded up to the first one that raises. *)
Fixpoint yield_items (items : list value) (failure : option error)
  : list value * option error :=
  match items with
  | [] => ([], failure)
  | item :: rest =>
      match with_choices (js "text") delta_choice item with
      | None => ([], Some TypeError)
      | Some item' =>
          let '(yielded, e) := yield_items rest failure in
          (item' :: yielded, e)
      end
  end.

(** What [Puter.chat.completions.create] resolves to: a response, or the
    generator's items and the error its iteration ends in. *)
Inductive puter_completion :=
| PuterResponse (response : value)
| PuterSequence (pass_through : bool) (items : list value) (failure : option error).

(** [Puter._streamCompletion(messages, options)], run to its end. *)
Definition puter_streamCompletion (pt : Puter) (messages : value)
    (options : list (jsstring * value)) : list value * option error :=
  match puter_chat pt with
  | None => ([], Some ConfigurationMissing)
  | Some chat =>
      match chat messages options with
      | Throws e => ([], Some e)
      | Returns answer =>
          let '(items, failure) := sdk_items answer in
          yield_items items failure
      end
  end.

(** [Puter.chat.completions.create(params)], [params] being the object at
    [p].  A sequence that the non-streaming branch receives has neither
    [choices] nor [message] and is returned as it is. *)
Definition puter_chat_create (pt : Puter) (p : loc) (w : world)
  : outcome puter_completion * world :=
  match w_store w !! p with
  | None => (Throws TypeError, w)
  | Some params =>
      let messages := prop params (js "messages") in
      let options := puter_options pt params in
      if truthy (prop options (js "stream")) then
        let '(items, failure) := puter_streamCompletion pt messages options in
        (Returns (PuterSequence false items failure), w)
      else
        match puter_chat pt with
        | None => (Throws ConfigurationMissing, w)
        | Some chat =>
            match chat messages options with
            | Throws e => (Throws e, w)
            | Returns (Sequence items failure) =>
                (Returns (PuterSequence true items failure), w)
            | Returns (Plain response) =>
                match with_choices (js "message") message_choice response with
                | None => (Throws TypeError, w)
                | Some response' => (Returns (PuterResponse response'), w)
                end
            end
        end
  end.

(** The names [Puter.models.list] never lists. *)
Definition blockList : list jsstring :=
  [js "abuse"; js "costly"; js "fake"; js "model-fallback-test-1"].

(** [!model.includes("/") && !blockList.includes(model)]; [None] is the
    TypeError of a model that has no method [includes]. *)
Definition puter_listed (model : value) : option bool :=
  match model with
  | VStr name =>
      Some (negb (includes (js "/") name) && negb (bool_decide (name ∈ blockList)))
  | VArr elems =>
      Some (negb (existsb (is_string (js "/")) elems))
  | _ => None
  end.

Fixpoint puter_filter (models : list value) : option (list value) :=
  match models with
  | [] => Some []
  | model :: rest =>
      match puter_listed model with
      | None => None
      | Some keep =>
          match puter_filter rest with
          | None => None
          | Some kept => Some (if keep then model :: kept else kept)
          end
      end
  end.

Definition puter_models_url : jsstring := js "https://api.puter.com/puterai/chat/models/".

(** [Puter.models.list()]: no test of [response.ok]. *)
Definition puter_models_list `{Platform} (net : network) (w : world)
  : outcome (list value) * world :=
  let '(fr, w) := fetch net (make_request puter_models_url empty_config) w in
  match fr with
  | Rejected => (Throws NetworkFailure, w)
  | Responded r =>
      match response_json r with
      | Throws e => (Throws e, w)
      | Returns data =>
          match get_prop data (js "models") with
          | Some (VArr models) =>
              match puter_filter models with
              | None => (Throws TypeError, w)
              | Some kept =>
                  (Returns (map (fun model => VObj [(js "id", model);
                                                    (js "type", VStr (js "chat"))])
                              kept), w)
              end
          | _ => (Throws TypeError, w)
          end
      end
  end.

(** * Properties *)

(** ** Strings and property lists *)

Lemma split_on_snoc sep s : exists init final, split_on sep s = init ++ [final].
Proof.
  induction s as [|c r (init & final & IH)]; simpl.
  - by exists [], [].
  - destruct (c =? sep).
    + exists ([] :: init), final. by rewrite IH.
    + rewrite IH. destruct init as [|p ps]; simpl.
      * by exists [], (c :: final).
      * by exists ((c :: p) :: ps), final.
Qed.

Lemma split_on_app sep a b init final :
  split_on sep a = init ++ [final] ->
  split_on sep (a ++ b) = init ++ split_on sep (final ++ b).
Proof.
  revert init final. induction a as [|c r IH]; intros init final Ha.
  - apply (app_inj_tail [] init) in Ha as [<- <-]. done.
  - simpl in Ha |- *.
    destruct (split_on_snoc sep r) as (i & f & E).
    rewrite (IH i f E). rewrite E in Ha.
    destruct (c =? sep) eqn:Hc.
    + apply (app_inj_tail ([] :: i) init) in Ha as [<- <-]. done.
    + destruct i as [|p ps]; simpl in Ha.
      * apply (app_inj_tail [] init) in Ha as [<- <-]. simpl. by rewrite Hc.
      * apply (app_inj_tail ((c :: p) :: ps) init) in Ha as [<- <-]. done.
Qed.

Lemma array_pop_snoc {A} (init : list A) final :
  array_pop (init ++ [final]) = (init, Some final).
Proof. unfold array_pop. by rewrite removelast_last, last_snoc. Qed.

Lemma split_on_pop sep s :
  split_on sep s = (array_pop (split_on sep s)).1
                   ++ [default (js "undefined") (array_pop (split_on sep s)).2].
Proof.
  destruct (split_on_snoc sep s) as (i & f & E). by rewrite E, array_pop_snoc.
Qed.

Lemma decode_stream_app `{Platform} d a b :
  decode_stream d (a ++ b) =
  let '(d1, t1) := decode_stream d a in
  let '(d2, t2) := decode_stream d1 b in
  (d2, t1 ++ t2).
Proof.
  revert d. induction a as [|x a IH]; intros d; simpl.
  - by destruct (decode_stream d b).
  - destruct (decoder_step d x) as [d1 t1]. rewrite IH.
    destruct (decode_stream d1 a) as [d2 t2].
    destruct (decode_stream d2 b) as [d3 t3]. by rewrite app_assoc.
Qed.

Lemma read_chunk_app `{Platform} st a b :
  read_chunk st (a ++ b) =
  let '(st1, ev1) := read_chunk st a in
  let '(st2, ev2) := read_chunk st1 b in
  (st2, ev1 ++ ev2).
Proof.
  unfold read_chunk. rewrite decode_stream_app.
  destruct (decode_stream (st_decoder st) a) as [d1 t1].
  destruct (split_on_snoc LF (st_buffer st ++ t1)) as (i & f & E).
  rewrite E, array_pop_snoc. cbn [default from_option id st_buffer st_decoder].
  destruct (decode_stream d1 b) as [d2 t2].
  destruct (split_on_snoc LF (f ++ t2)) as (i' & f' & E').
  rewrite app_assoc, (split_on_app _ _ _ _ _ E), E', app_assoc.
  rewrite !array_pop_snoc. by rewrite omap_app.
Qed.

Lemma split_on_no_sep sep s : sep ∉ s -> split_on sep s = [s].
Proof.
  induction s as [|c r IH]; [done|]. intros Hn.
  apply not_elem_of_cons in Hn as [Hc Hr]. simpl.
  destruct (N.eqb_spec c sep); [congruence|]. by rewrite IH.
Qed.

Lemma split_on_last_no_sep sep s init final :
  split_on sep s = init ++ [final] -> sep ∉ final.
Proof.
  revert init final. induction s as [|c r IH]; intros init final E.
  - apply (app_inj_tail [] init) in E as [<- <-]. apply not_elem_of_nil.
  - simpl in E. destruct (split_on_snoc sep r) as (i & f & Er).
    specialize (IH _ _ Er). rewrite Er in E.
    destruct (N.eqb_spec c sep).
    + apply (app_inj_tail ([] :: i) init) in E as [<- <-]. done.
    + destruct i as [|p ps]; simpl in E.
      * apply (app_inj_tail [] init) in E as [<- <-].
        apply not_elem_of_cons; split; [congruence|done].
      * apply (app_inj_tail ((c :: p) :: ps) init) in E as [<- <-]. done.
Qed.

Lemma join_split_on sep s : join [sep] (split_on sep s) = s.
Proof.
  induction s as [|c r IH]; [done|]. simpl.
  destruct (split_on_snoc sep r) as (i & f & E). rewrite E in IH |- *.
  destruct (N.eqb_spec c sep) as [->|Hc].
  - destruct i; simpl in *; by rewrite IH.
  - destruct i as [|p ps]; simpl in *; [by rewrite IH|].
    destruct (ps ++ [f]) eqn:Eps; [by destruct ps|]. by rewrite <- IH.
Qed.

Lemma read_chunk_nil `{Platform} st :
  LF ∉ st_buffer st -> read_chunk st [] = (st, []).
Proof.
  intros Hb. unfold read_chunk. simpl. rewrite app_nil_r, split_on_no_sep by done.
  by destruct st.
Qed.

Lemma read_chunk_buffer `{Platform} st chunk :
  LF ∉ st_buffer (read_chunk st chunk).1.
Proof.
  unfold read_chunk. destruct (decode_stream (st_decoder st) chunk) as [d t].
  destruct (split_on_snoc LF (st_buffer st ++ t)) as (i & f & E).
  rewrite E, array_pop_snoc. simpl. by eapply split_on_last_no_sep.
Qed.

Lemma read_chunks_concat `{Platform} st chunks :
  LF ∉ st_buffer st ->
  read_chunks st chunks = read_chunk st (concat chunks).
Proof.
  revert st. induction chunks as [|c r IH]; intros st Hb; simpl.
  - by rewrite read_chunk_nil.
  - rewrite read_chunk_app. pose proof (read_chunk_buffer st c) as Hc.
    destruct (read_chunk st c) as [st1 ev1]. by rewrite IH.
Qed.

Lemma read_chunks_spec `{Platform} chunks :
  read_chunks stream_start chunks =
  ({| st_decoder := (decode_stream decoder_init (concat chunks)).1;
      st_buffer := final_fragment (decoded_text chunks) |},
   omap handle_part (complete_lines (decoded_text chunks))).
Proof.
  rewrite read_chunks_concat by apply not_elem_of_nil.
  unfold complete_lines, final_fragment, decoded_text, read_chunk.
  cbn [stream_start st_decoder st_buffer app].
  destruct (decode_stream decoder_init (concat chunks)) as [d t]. cbn [fst snd].
  by destruct (array_pop (split_on LF t)).
Qed.

Lemma obj_get_set_eq {V} (ps : list (jsstring * V)) k v :
  obj_get (obj_set ps k v) k = Some v.
Proof.
  induction ps as [|[k' v'] r IH]; simpl; unfold str_eqb.
  - by rewrite bool_decide_eq_true_2.
  - case_bool_decide; simpl; unfold str_eqb.
    + by rewrite bool_decide_eq_true_2.
    + by rewrite bool_decide_eq_false_2.
Qed.

Lemma obj_get_set_ne {V} (ps : list (jsstring * V)) k k' v :
  k' <> k -> obj_get (obj_set ps k v) k' = obj_get ps k'.
Proof.
  intros Hne. induction ps as [|[k0 v0] r IH]; simpl; unfold str_eqb.
  - by rewrite bool_decide_eq_false_2.
  - case_bool_decide as E; simpl; unfold str_eqb.
    + subst k0. by rewrite bool_decide_eq_false_2.
    + case_bool_decide; [done|]. apply IH.
Qed.

Lemma get_prop_compound_inv v k x :
  get_prop v k = Some x -> compound x -> k <> js "length" ->
  (exists es i, v = VArr es /\ array_index k = Some i /\ es !! i = Some x)
  \/ (exists qs, v = VObj qs /\ obj_get qs k = Some x).
Proof.
  intros Hg Hx Hk. destruct v as [| | | |s|es|qs]; simpl in Hg; simplify_eq; try done.
  - unfold str_eqb in Hx. rewrite bool_decide_eq_false_2 in Hx by done.
    destruct (array_index k); [|done]. by destruct (s !! n).
  - unfold str_eqb in Hx |- *. rewrite bool_decide_eq_false_2 in Hx |- * by done.
    left. destruct (array_index k) as [i|]; [|done]. exists es, i.
    by destruct (es !! i) eqn:E.
  - right. exists qs. by destruct (obj_get qs k).
Qed.

Lemma delta_field_inv event k r :
  delta_field event k = Some r ->
  exists ps choices p0 d,
    event = VObj ps /\ obj_get ps (js "choices") = Some choices
    /\ ((exists es, choices = VArr es /\ es !! 0%nat = Some (VObj p0))
        \/ (exists pc, choices = VObj pc /\ obj_get pc (js "0") = Some (VObj p0)))
    /\ obj_get p0 (js "delta") = Some (VObj d)
    /\ obj_get d k = Some r.
Proof.
  unfold delta_field, first_choice_delta. intros Hd.
  destruct (get_prop event (js "choices")) as [choices|] eqn:E1; [|done].
  simpl in Hd.
  destruct (get_prop choices (js "0")) as [c0|] eqn:E2; [|done]. simpl in Hd.
  destruct (get_prop c0 (js "delta")) as [[| | | | | |d]|] eqn:E3; try done.
  apply get_prop_compound_inv in E3 as [(es & i & -> & Hi & _)|(p0 & -> & E3)];
    [by vm_compute in Hi| |done|done].
  apply get_prop_compound_inv in E2 as [(es & i & -> & Hi & E2)|(pc & -> & E2)];
    [| |done|done].
  - vm_compute in Hi. injection Hi as <-.
    apply get_prop_compound_inv in E1 as [(? & i & -> & Hi & _)|(ps & -> & E1)];
      [by vm_compute in Hi| |done|done].
    exists ps, (VArr es), p0, d. naive_solver.
  - apply get_prop_compound_inv in E1 as [(? & i & -> & Hi & _)|(ps & -> & E1)];
      [by vm_compute in Hi| |done|done].
    exists ps, (VObj pc), p0, d. naive_solver.
Qed.

Lemma handle_data_reasoning data r :
  delta_field data (js "reasoning") = Some r ->
  handle_data data = Some (if truthy r then copy_reasoning data else data).
Proof.
  intros (ps & choices & p0 & d & -> & Hc & H0 & Hd & Hr)%delta_field_inv.
  unfold handle_data, first_choice_reasoning. simpl. rewrite Hc. simpl.
  destruct H0 as [(es & -> & H0)|(pc & -> & H0)].
  - destruct es as [|e es']; simplify_eq/=.
    unfold opt_get. simpl. rewrite Hd. simpl. by rewrite Hr.
  - simpl. rewrite H0. simpl. unfold opt_get. simpl. rewrite Hd. simpl. by rewrite Hr.
Qed.

Lemma copy_reasoning_fields data r k :
  delta_field data (js "reasoning") = Some r ->
  delta_field (copy_reasoning data) k =
  if decide (k = js "reasoning_content") then Some r else delta_field data k.
Proof.
  intros (ps & choices & p0 & d & -> & Hc & H0 & Hd & Hr)%delta_field_inv.
  unfold copy_reasoning. simpl. rewrite Hc.
  unfold delta_field, first_choice_delta. simpl. rewrite obj_get_set_eq, Hc. simpl.
  destruct H0 as [(es & -> & H0)|(pc & -> & H0)].
  - destruct es as [|e es']; simplify_eq/=. rewrite Hd. simpl.
    rewrite obj_get_set_eq. simpl. unfold opt_get. simpl. rewrite Hr. simpl.
    case_decide as Hk.
    + subst k. apply obj_get_set_eq.
    + by apply obj_get_set_ne.
  - simpl. rewrite H0. simpl. rewrite obj_get_set_eq. simpl. rewrite Hd. simpl.
    rewrite obj_get_set_eq. simpl. unfold opt_get. simpl. rewrite Hr. simpl.
    case_decide as Hk.
    + subst k. apply obj_get_set_eq.
    + by apply obj_get_set_ne.
Qed.

(** ** The stream decoder *)

Lemma get_prop_none v k : get_prop v k = None <-> v = VNull \/ v = VUndef.
Proof.
  destruct v; simpl; (split; [intros ?|intros [?|?]]); try done; (by left) || (by right).
Qed.

Lemma handle_data_none data :
  handle_data data = None <-> data = VNull \/ data = VUndef.
Proof.
  split; [|by intros [-> | ->]].
  unfold handle_data, first_choice_reasoning.
  destruct (get_prop data (js "choices")) as [choices|] eqn:E1;
    [|by apply get_prop_none in E1].
  destruct (truthy choices) eqn:Ht; [|done].
  destruct (get_prop choices (js "0")) as [c0|] eqn:E2.
  - destruct c0; try done; by destruct (opt_get _ (js "delta")).
  - apply get_prop_none in E2 as [-> | ->]; done.
Qed.

Lemma handle_part_skipped `{Platform} part :
  listed_as_skipped part = true -> handle_part part = None.
Proof.
  unfold listed_as_skipped, handle_part, blank_line, sentinel_line, data_line, payload.
  destruct (is_empty (trim part)), (str_eqb part _), (starts_with _ part); simpl; try done.
  intros Hp%bool_decide_eq_true. by rewrite Hp.
Qed.

Lemma handle_part_data `{Platform} part data :
  listed_as_skipped part = false -> JSON_parse (payload part) = Some data ->
  handle_part part = handle_data data.
Proof.
  unfold listed_as_skipped, handle_part, blank_line, sentinel_line, data_line, payload.
  destruct (is_empty (trim part)), (str_eqb part _), (starts_with _ part); simpl; try done.
  by intros _ ->.
Qed.

Lemma omap_pointwise {A B} (f g : A -> option B) (l : list A) :
  (forall x, f x = g x) -> omap f l = omap g l.
Proof. intros E. induction l as [|x l IH]; [done|]. csimpl. by rewrite E, IH. Qed.

Lemma handle_part_line_event `{Platform} part : handle_part part = line_event part.
Proof.
  unfold line_event. destruct (listed_as_skipped part) eqn:Hs.
  - by apply handle_part_skipped.
  - destruct (JSON_parse (payload part)) as [data|] eqn:Hp.
    + rewrite (handle_part_data _ _ Hs Hp). unfold annotated.
      destruct (handle_data data) eqn:Hd.
      * destruct data; try done; by rewrite (proj2 (handle_data_none _)) in Hd by auto.
      * by apply handle_data_none in Hd as [-> | ->].
    + unfold listed_as_skipped in Hs.
      rewrite (bool_decide_eq_true_2 _ Hp) in Hs. by rewrite !orb_true_r in Hs.
Qed.

(** C2.  However a body is cut into chunks, the decoder yields the events it
    yields for the body delivered in one piece.  After any number of reads
    the carry-over buffer is the text that follows the last newline received
    so far, and the complete lines followed by the buffer are the whole
    decoded text: no character is dropped between reads. *)
Theorem stream_decoding_chunk_independent `{Platform} (chunks : list (list byte)) :
  decode_events chunks = decode_events [concat chunks]
  /\ st_buffer (read_chunks stream_start chunks).1 = final_fragment (decoded_text chunks)
  /\ decoded_text chunks =
       join [LF] (complete_lines (decoded_text chunks)
                  ++ [st_buffer (read_chunks stream_start chunks).1]).
Proof.
  unfold decode_events. rewrite !read_chunks_spec.
  cbn [fst snd st_buffer]. unfold decoded_text. simpl concat.
  rewrite app_nil_r. repeat split.
  unfold complete_lines, final_fragment.
  by rewrite <- split_on_pop, join_split_on.
Qed.

(** C8 (amended).  The decoder fails only on an unsuccessful response or a
    missing body, never on the content of a line.  Otherwise it yields, in
    the order of the lines, one event for every complete line that is not
    blank, is not the sentinel, starts with the prefix and whose payload
    parses to a value other than [null]; every other complete line is
    skipped and the lines after it are decoded as usual. *)
Theorem malformed_lines_are_skipped `{Platform} (r : response) :
  (forall part, handle_part part = line_event part)
  /\ _streamCompletion r =
       if negb (resp_ok r) then Throws (UpstreamStatus (resp_status r))
       else match resp_body r with
            | None => Throws StreamUnsupported
            | Some chunks =>
                Returns (omap line_event (complete_lines (decoded_text chunks)))
            end.
Proof.
  split; [apply handle_part_line_event|].
  unfold _streamCompletion, decode_events.
  destruct (resp_ok r); [|done]. destruct (resp_body r) as [chunks|]; [|done].
  rewrite read_chunks_spec. simpl. f_equal.
  apply omap_pointwise, handle_part_line_event.
Qed.

(** C8, as stated: a line whose payload is [null] is none of the four
    listed kinds, yet it yields nothing; the line after it is decoded. *)
Lemma null_payload_is_skipped :
  let chunk := js "data: null" ++ [LF] ++ jsq "data: {'id':'a'}" ++ [LF] in
  @listed_as_skipped utf8_platform (js "data: null") = false
  /\ @decode_events utf8_platform [chunk] = [VObj [(js "id", VStr (js "a"))]]
  /\ omap (@line_event_as_stated utf8_platform)
       (complete_lines (@decoded_text utf8_platform [chunk]))
     = [VNull; VObj [(js "id", VStr (js "a"))]].
Proof. by vm_compute. Qed.

(** C7 (amended).  For a line that is decoded to [data], where the delta of
    the first choice has the field [reasoning] with value [r]: the event is
    yielded with its [reasoning] field as it was; when [r] is truthy the
    same delta also holds [reasoning_content] with the value [r], and when
    [r] is falsy ([null], [false], [0], the empty string) the event is
    yielded as parsed. *)
Theorem reasoning_content_copied `{Platform}
    (chunks : list (list byte)) (part : jsstring) (data r : value) :
  part ∈ complete_lines (decoded_text chunks) ->
  listed_as_skipped part = false ->
  JSON_parse (payload part) = Some data ->
  delta_field data (js "reasoning") = Some r ->
  exists event,
    event ∈ decode_events chunks
    /\ handle_part part = Some event
    /\ delta_field event (js "reasoning") = Some r
    /\ delta_field event (js "reasoning_content") =
         (if truthy r then Some r else delta_field data (js "reasoning_content"))
    /\ (truthy r = false -> event = data).
Proof.
  intros Hin Hs Hp Hr.
  pose proof (handle_part_data _ _ Hs Hp) as Hh.
  rewrite (handle_data_reasoning _ _ Hr) in Hh.
  eexists. split; [|split; [exact Hh|]].
  - unfold decode_events. rewrite read_chunks_spec. simpl.
    apply list_elem_of_omap. eauto.
  - destruct (truthy r).
    + rewrite !(copy_reasoning_fields _ _ _ Hr). by repeat case_decide.
    + done.
Qed.

Lemma reasoning_content_copied_witness :
  let line := jsq "data: {'choices':[{'delta':{'reasoning':'x'}}]}" in
  let data :=
    VObj [(js "choices",
           VArr [VObj [(js "delta", VObj [(js "reasoning", VStr (js "x"))])]])] in
  exists event,
    event ∈ @decode_events utf8_platform [line ++ [LF]]
    /\ @handle_part utf8_platform line = Some event
    /\ delta_field event (js "reasoning") = Some (VStr (js "x"))
    /\ delta_field event (js "reasoning_content") = Some (VStr (js "x"))
    /\ (true = false -> event = data).
Proof.
  intros line data.
  apply (@reasoning_content_copied utf8_platform [line ++ [LF]] line data (VStr (js "x"))).
  - vm_compute. apply list_elem_of_here.
  - by vm_compute.
  - by vm_compute.
  - by vm_compute.
Defined.

(** C7, as stated: a delta whose [reasoning] field holds the empty string
    (or [null]) is yielded without a [reasoning_content] field. *)
Lemma falsy_reasoning_is_not_copied :
  let line v := jsq "data: {'choices':[{'delta':{'reasoning':" ++ v
                ++ jsq ",'content':'hi'}}]}" ++ [LF] in
  let event v :=
    VObj [(js "choices",
           VArr [VObj [(js "delta",
                        VObj [(js "reasoning", v); (js "content", VStr (js "hi"))])]])] in
  @decode_events utf8_platform [line (jsq "''")] = [event (VStr [])]
  /\ delta_field (event (VStr [])) (js "reasoning") = Some (VStr [])
  /\ delta_field (event (VStr [])) (js "reasoning_content") = None
  /\ @decode_events utf8_platform [line (js "null")] = [event VNull]
  /\ delta_field (event VNull) (js "reasoning") = Some VNull
  /\ delta_field (event VNull) (js "reasoning_content") = None.
Proof. by vm_compute. Qed.

(** ** Proxy failover *)

Lemma attempt_failed_cases fr :
  attempt_failed fr = true <->
  fr = Rejected
  \/ exists r, fr = Responded r
       /\ (resp_ok r = false
           \/ exists ct, resp_content_type r = Some ct /\ ct <> []
                /\ includes (js "application/json") ct = false).
Proof.
  destruct fr as [|r]; simpl.
  { split; [by left|done]. }
  unfold acceptable. split.
  - intros Hn. right. exists r. split; [done|].
    destruct (resp_ok r); [|by left]. right. simpl in Hn.
    destruct (resp_content_type r) as [ct|]; [|done]. exists ct. split; [done|].
    destruct ct as [|c ct]; [done|]. split; [done|].
    by apply negb_true_iff in Hn.
  - intros [?|(r' & [= <-] & [Hok|(ct & Hct & Hne & Hinc)])]; [done|by rewrite Hok|].
    rewrite Hct. destruct ct as [|c ct]; [done|].
    cbn [is_empty orb]. rewrite Hinc. by destruct (resp_ok r).
Qed.

Section Failover.
Variable net : network.
Variables (targetUrl encoded : jsstring) (config : request_config).
Hypothesis Henc : encodeURIComponent targetUrl = Some encoded.



End Failover.






(** ** Alias resolution *)








(** ** Property lists, continued *)

Lemma obj_get_cons {V} k0 (v0 : V) r k :
  obj_get ((k0, v0) :: r) k = if decide (k0 = k) then Some v0 else obj_get r k.
Proof. simpl. unfold str_eqb. by case_bool_decide; case_decide. Qed.

Lemma obj_get_app {V} (l1 l2 : list (jsstring * V)) k :
  obj_get (l1 ++ l2) k = match obj_get l1 k with
                         | Some v => Some v
                         | None => obj_get l2 k
                         end.
Proof.
  induction l1 as [|[k0 v0] r IH]; [done|]. simpl. by destruct (str_eqb k0 k).
Qed.

Lemma obj_get_delete {V} (ps : list (jsstring * V)) k k' :
  obj_get (obj_delete ps k) k' = if decide (k' = k) then None else obj_get ps k'.
Proof.
  unfold obj_delete. induction ps as [|[k0 v0] r IH]; [by case_decide|].
  rewrite filter_cons. cbn [fst]. destruct (decide (k0 <> k)) as [E0|E0].
  - rewrite !obj_get_cons, IH. repeat case_decide; simplify_eq; done.
  - apply dec_stable in E0. subst k0.
    rewrite obj_get_cons, IH. repeat case_decide; simplify_eq; done.
Qed.

Lemma obj_get_delete_eq {V} (ps : list (jsstring * V)) k :
  obj_get (obj_delete ps k) k = None.
Proof. rewrite obj_get_delete. by case_decide. Qed.

Lemma obj_get_delete_ne {V} (ps : list (jsstring * V)) k k' :
  k' <> k -> obj_get (obj_delete ps k) k' = obj_get ps k'.
Proof. intros Hne. rewrite obj_get_delete. by case_decide. Qed.

Lemma obj_get_filter_no_index (l : list (jsstring * value)) k :
  obj_get (filter (fun p => array_index p.1 = None) l) k
  = if decide (array_index k = None) then obj_get l k else None.
Proof.
  induction l as [|[k0 v0] r IH]; [by case_decide|].
  rewrite filter_cons. cbn [fst]. destruct (decide (array_index k0 = None)) as [E0|E0].
  - rewrite !obj_get_cons, IH. repeat case_decide; simplify_eq; done.
  - rewrite obj_get_cons, IH. repeat case_decide; simplify_eq; done.
Qed.

(** Reading a property does not depend on the order of enumeration. *)
Lemma obj_get_insert_by_index e l k :
  (forall e', e' ∈ e :: l -> array_index e'.2.1 = Some e'.1) ->
  obj_get (map snd (insert_by_index e l)) k
  = if decide (e.2.1 = k) then Some e.2.2 else obj_get (map snd l) k.
Proof.
  destruct e as [i [k0 v0]]. cbn [fst snd].
  intros Hinv. induction l as [|[i' [k' v']] r IH]; cbn [insert_by_index fst snd].
  - apply obj_get_cons.
  - destruct (Nat.leb_spec i i') as [Hle|Hlt]; cbn [map snd].
    + apply obj_get_cons.
    + rewrite !obj_get_cons, IH.
      * case_decide as E1; [|done]. case_decide as E2; [|done]. exfalso.
        pose proof (Hinv (i, (k0, v0)) ltac:(left)) as He.
        pose proof (Hinv (i', (k', v')) ltac:(right; left)) as He'.
        simpl in He, He'. subst k' k0. rewrite He in He'.
        injection He' as ->. lia.
      * intros e0 He0. apply Hinv. set_solver.
Qed.

Lemma obj_get_own_entries props k : obj_get (own_entries props) k = obj_get props k.
Proof.
  unfold own_entries. rewrite obj_get_app.
  set (tag := fun p : jsstring * value => (fun i => (i, p)) <$> array_index p.1).
  assert (Hinv : forall e, e ∈ omap tag props -> array_index e.2.1 = Some e.1).
  { intros e (p & _ & Hp)%list_elem_of_omap. unfold tag in Hp.
    destruct (array_index p.1) eqn:E; simplify_eq/=. done. }
  assert (Hsorted : forall L, (forall e, e ∈ L -> array_index e.2.1 = Some e.1) ->
            obj_get (map snd (foldr insert_by_index [] L)) k = obj_get (map snd L) k
            /\ (forall e, e ∈ foldr insert_by_index [] L -> e ∈ L)).
  { induction L as [|e L IH]; intros HL; [done|]. cbn [foldr].
    destruct IH as [IH1 IH2]; [intros; apply HL; set_solver|]. split.
    - rewrite obj_get_insert_by_index, IH1.
      + destruct e as [i [k0 v0]]. cbn [map snd fst]. by rewrite obj_get_cons.
      + intros e' [->|He']%elem_of_cons; apply HL; [set_solver|].
        apply IH2 in He'. set_solver.
    - intros e0 He0. clear -He0 IH2.
      induction (foldr insert_by_index [] L) as [|x r IHr]; simpl in He0.
      + set_solver.
      + destruct (e.1 <=? x.1)%nat; [set_solver|].
        apply elem_of_cons in He0 as [->|He0]; [set_solver|].
        specialize (IHr ltac:(set_solver) He0). set_solver. }
  rewrite (proj1 (Hsorted _ Hinv)).
  rewrite obj_get_filter_no_index.
  assert (Htag : obj_get (map snd (omap tag props)) k
                 = if decide (array_index k = None) then None else obj_get props k).
  { clear. induction props as [|[k0 v0] r IH]; [by case_decide|].
    csimpl. unfold tag at 1. cbn [fst].
    destruct (array_index k0) eqn:E0; csimpl.
    - rewrite IH. unfold str_eqb.
      repeat (case_bool_decide || case_decide); simplify_eq; done.
    - rewrite IH. unfold str_eqb.
      repeat (case_bool_decide || case_decide); simplify_eq; done. }
  rewrite Htag. case_decide; [done|]. by destruct (obj_get props k).
Qed.

(** ** The template image path *)

Lemma split_on_two sep (a b : jsstring) :
  sep ∉ a -> sep ∉ b -> split_on sep (a ++ sep :: b) = [a; b].
Proof.
  intros Ha Hb. induction a as [|c a IH]; simpl.
  - rewrite N.eqb_refl. f_equal. induction b as [|d b IHb]; [done|].
    apply not_elem_of_cons in Hb as [Hd Hb]. simpl.
    destruct (N.eqb_spec d sep); [congruence|]. by rewrite IHb.
  - apply not_elem_of_cons in Ha as [Hc Ha].
    destruct (N.eqb_spec c sep); [congruence|]. by rewrite IH.
Qed.

Lemma get_substitution_plain matched before after r :
  36 ∉ r -> get_substitution matched before after r = r.
Proof.
  induction r as [|c r IH]; [done|]. intros [Hc Hr]%not_elem_of_cons. simpl.
  destruct (N.eqb_spec c 36); [congruence|]. by rewrite IH.
Qed.

Lemma starts_with_app p s : starts_with p s = true -> s = p ++ drop (length p) s.
Proof.
  revert s. induction p as [|a p IH]; intros [|b s]; simpl; try done.
  intros [->%N.eqb_eq Hs]%andb_true_iff. f_equal. by apply IH.
Qed.

Lemma index_of_spec p s i :
  index_of p s = Some i -> s = take i s ++ p ++ drop (i + length p) s.
Proof.
  revert i. induction s as [|c s IH]; intros i.
  - simpl. destruct (starts_with p []) eqn:Hs; [|done]. intros [= <-].
    by apply starts_with_app in Hs.
  - cbn [index_of]. destruct (starts_with p (c :: s)) eqn:Hs.
    + intros [= <-]. by apply starts_with_app in Hs.
    + destruct (index_of p s) as [j|] eqn:Hj; [|done]. simpl. intros [= <-].
      simpl. f_equal. by apply IH.
Qed.

Lemma includes_index_of p s : includes p s = true -> is_Some (index_of p s).
Proof.
  induction s as [|c s IH]; simpl.
  - destruct (starts_with p []); [eauto|done].
  - destruct (starts_with p (c :: s)); [eauto|]. simpl. intros Hs.
    destruct (IH Hs) as [j ->]. eauto.
Qed.

Lemma replace_first_plain p r s :
  includes p s = true -> 36 ∉ r ->
  exists before after, s = before ++ p ++ after
                       /\ replace_first p r s = before ++ r ++ after.
Proof.
  intros [i Hi]%includes_index_of Hr. unfold replace_first. rewrite Hi.
  rewrite get_substitution_plain by done.
  exists (take i s), (drop (i + length p) s). split; [|done]. by apply index_of_spec.
Qed.


(** ** Percent-encoding *)














(** ** Frame properties of the base client *)

Lemma spread_copy_fresh w props :
  w_store w !! (spread_copy w props).1 = None.
Proof. simpl. apply not_elem_of_dom, is_fresh. Qed.

Lemma default_image_store net c p w :
  exists q, w_store w !! q = None
    /\ forall l, l <> q ->
         w_store (_defaultImageGeneration net c p w).2 !! l = w_store w !! l.
Proof.
  exists (fresh (dom (w_store w))). split; [apply not_elem_of_dom, is_fresh|].
  intros l Hl. unfold _defaultImageGeneration.
  destruct (w_store w !! p) as [caller_props|]; [|done].
  unfold spread_copy, fetch, write_props.
  repeat (case_match; simpl; simplify_eq; rewrite ?lookup_insert_ne by done; try done).
Qed.

(** C10.  The base client's [chat.completions.create] writes to the
    caller's params object and to nothing else in the store: after the call
    the object is the old one with [model] set to the resolved id and, when
    the client has a truthy referrer, [referrer] set to it; every other
    property, [messages] among them, holds the value it held.  The template
    image path [_defaultImageGeneration] leaves every object of the store,
    the caller's params included, as it was. *)
Theorem create_mutates_only_model_and_referrer `{Platform}
    (net : network) (c : Client) (p : loc) (w : world) (props : list (jsstring * value)) :
  w_store w !! p = Some props ->
  let resolved := resolve_model (modelAliases c) (prop props (js "model")) (defaultModel c) in
  let after_create := (chat_completions_create net c p w).2 in
  let after_image := (_defaultImageGeneration net c p w).2 in
  (exists props',
      w_store after_create !! p = Some props'
      /\ props' = (if truthy (referrer c)
                   then obj_set (obj_set props (js "model") resolved)
                          (js "referrer") (referrer c)
                   else obj_set props (js "model") resolved)
      /\ obj_get props' (js "model") = Some resolved
      /\ (truthy (referrer c) = true ->
          obj_get props' (js "referrer") = Some (referrer c))
      /\ (forall k, k <> js "model" ->
            (k <> js "referrer" \/ truthy (referrer c) = false) ->
            obj_get props' k = obj_get props k)
      /\ obj_get props' (js "messages") = obj_get props (js "messages"))
  /\ (forall l, l <> p -> w_store after_create !! l = w_store w !! l)
  /\ (forall l o, w_store w !! l = Some o -> w_store after_image !! l = Some o)
  /\ w_store after_image !! p = Some props.
Proof.
  intros Hp resolved after_create after_image.
  assert (Himg : forall l o, w_store w !! l = Some o -> w_store after_image !! l = Some o).
  { intros l o Hl. destruct (default_image_store net c p w) as (q & Hq & Hframe).
    unfold after_image. rewrite Hframe; [done|]. intros ->. congruence. }
  split; [|split; [|split; [done|by apply Himg]]].
  - unfold after_create, chat_completions_create. rewrite Hp. fold resolved.
    set (props' := if truthy (referrer c) then _ else _).
    exists props'. split.
    { unfold fetch, write_props. simpl.
      destruct (net _ _); simpl; [apply lookup_insert_eq|].
      destruct (truthy (prop props' _)); simpl; [apply lookup_insert_eq|].
      destruct (_regularCompletion r); simpl; apply lookup_insert_eq. }
    split; [done|]. unfold props'.
    destruct (truthy (referrer c)).
    + split; [by rewrite obj_get_set_ne, obj_get_set_eq|].
      split; [intros _; apply obj_get_set_eq|].
      split; [|by rewrite !obj_get_set_ne].
      intros k Hm [Hr|?]; [|done]. by rewrite !obj_get_set_ne.
    + split; [apply obj_get_set_eq|]. split; [done|].
      split; [|by rewrite obj_get_set_ne].
      intros k Hm _. by rewrite obj_get_set_ne.
  - intros l Hl. unfold after_create, chat_completions_create. rewrite Hp.
    unfold fetch, write_props. simpl.
    destruct (net _ _); simpl; [by apply lookup_insert_ne|].
    destruct (truthy (prop _ _)); simpl; [by apply lookup_insert_ne|].
    destruct (_regularCompletion r); simpl; by apply lookup_insert_ne.
Qed.

(** ** Image generation through a template endpoint *)

Lemma prop_own_entries props k : prop (own_entries props) k = prop props k.
Proof. unfold prop. by rewrite obj_get_own_entries. Qed.


Lemma template_defaults_get referrer params k :
  k <> js "prompt" -> k <> js "nologo" -> k <> js "referrer" ->
  obj_get (template_defaults referrer params) k = obj_get params k.
Proof.
  intros H1 H2 H3. unfold template_defaults.
  assert (Hn : forall ps,
    obj_get (match prop ps (js "nologo") with
             | VUndef => obj_set ps (js "nologo") (VBool true)
             | _ => ps
             end) k = obj_get ps k).
  { intros ps. destruct (prop ps (js "nologo")); try done. by apply obj_get_set_ne. }
  destruct (truthy referrer); [rewrite obj_get_set_ne by done|];
    by rewrite Hn, obj_get_delete_ne.
Qed.





(** The request of the specification's scenario, in full. *)
Example template_image_request_of_scenario :
  w_log (@images_generate utf8_platform ok_network pollinations 1%positive
           (world_with image_params)).2
  = [ {| req_url := js "https://image.pollinations.ai/prompt/a+cat?model=flux&nologo=true&referrer=https%3A%2F%2Fg4f.dev&width=512&height=512";
         req_method := GET;
         req_headers := [(js "Content-Type", js "application/json")];
         req_body := None |} ].
Proof. by vm_compute. Qed.

Lemma create_mutates_only_model_and_referrer_witness :
  let w := world_with chat_params in
  let after_create :=
    (@chat_completions_create utf8_platform ok_network pollinations 1%positive w).2 in
  let after_image := (_defaultImageGeneration ok_network pollinations 1%positive w).2 in
  (exists props',
      w_store after_create !! 1%positive = Some props'
      /\ obj_get props' (js "model") = Some (VStr (js "openai"))
      /\ obj_get props' (js "referrer") = Some (VStr (js "https://g4f.dev"))
      /\ obj_get props' (js "messages") = obj_get chat_params (js "messages"))
  /\ w_store after_image !! 1%positive = Some chat_params.
Proof.
  intros w after_create after_image.
  destruct (@create_mutates_only_model_and_referrer utf8_platform ok_network pollinations
              1%positive w chat_params)
    as ((props' & H1 & _ & H3 & H4 & _ & H6) & _ & _ & H9); [by vm_compute|].
  split; [|exact H9].
  exists props'. split; [exact H1|]. split; [exact H3|]. split; [by apply H4|exact H6].
Defined.

(** ** The aggregator's model listing *)

Lemma merged_models_substituted `{Platform} c text image :
  (exists v, text = Substituted v) \/ (exists v, image = Substituted v) ->
  merged_models c text image = None.
Proof.
  unfold merged_models. intros [[v ->]|[v ->]]; simpl; [done|].
  by destruct (settled_json text).
Qed.

(** Whenever one of the two sub-fetches fails, whatever the other one
    brought, the listing is the static catalog, and nothing is cached. *)
Lemma models_list_after_failure `{Platform} (net : network) (schedule : list bool)
    (c : Client) (log : list request) r1 r2 m log' :
  _models c = [] ->
  fetch_both net text_models_url image_models_url schedule (proxyManager c) log
  = (r1, r2, m, log') ->
  (exists e, r1 = Throws e) \/ (exists e, r2 = Throws e) ->
  pollinations_models_list net schedule c log
  = (fallback_models, set_proxyManager c m, log').
Proof.
  intros Hm Hf Hfail. unfold pollinations_models_list. rewrite Hm, Hf.
  rewrite merged_models_substituted; [done|].
  destruct Hfail as [[e ->]|[e ->]]; [left|right]; by eexists.
Qed.

(** Run on its own, a call of the interleaved form does what
    [_fetchWithProxyRotation] does. *)
Lemma run_alone_rotation_loop net maxAttempts left attempt targetUrl m log :
  (attempt + left = maxAttempts)%nat ->
  (let '(t, m', log') := next_attempt net maxAttempts attempt targetUrl m log in
   let '(t', m'', log'') := run_alone left net maxAttempts targetUrl t m' log' in
   (task_result t', m'', log''))
  = rotation_loop net left targetUrl empty_config m log.
Proof.
  revert attempt m log. induction left as [|left IH]; intros attempt m log Hsum.
  - unfold next_attempt. destruct (Nat.ltb_spec attempt maxAttempts); [lia|]. done.
  - unfold next_attempt. destruct (Nat.ltb_spec attempt maxAttempts); [|lia].
    cbn [rotation_loop]. destruct (getProxiedUrl m targetUrl) as [url|e]; [|done].
    set (req := make_request url empty_config).
    specialize (IH (S attempt) (rotateProxy m) (log ++ [req])).
    cbn [run_alone resume]. unfold attempt_failed.
    destruct (net (length log) req) as [|r];
      [|destruct (acceptable r); [by destruct left|]];
      (destruct (next_attempt net maxAttempts (S attempt) targetUrl
                   (rotateProxy m) (log ++ [req])) as [[t1 m1] log1];
       apply IH; lia).
Qed.

(** *** Interleaved calls *)

(** Two calls that run interleaved share the cursor: with two proxies, all
    requests refused and the answers arriving in turn, the second call makes
    both its attempts through the first proxy. *)
Example interleaved_calls_share_the_cursor :
  let m := {| proxies := [js "https://p1/?"; js "https://p2/?"]; currentIndex := 0 |} in
  let '(r1, r2, m', log) :=
    fetch_both (fun _ _ => Rejected) (js "a") (js "b") [true; false] m [] in
  map req_url log = [js "https://p1/?a"; js "https://p1/?b";
                     js "https://p2/?a"; js "https://p1/?b"]
  /\ r1 = Throws (ProxyExhausted (js "a"))
  /\ r2 = Throws (ProxyExhausted (js "b"))
  /\ currentIndex m' = 0%nat.
Proof. by vm_compute. Qed.

Lemma next_attempt_in_loop net n attempt target m log :
  let '(t, _, _) := next_attempt net n attempt target m log in
  in_loop n t /\ (attempts_left n t <= n - attempt)%nat.
Proof.
  unfold next_attempt. destruct (Nat.ltb_spec attempt n).
  - destruct (getProxiedUrl m target); simpl; [split; [done|lia]|split; [done|lia]].
  - simpl. split; [done|lia].
Qed.

(** A step of a waiting call uses up one of its attempts. *)
Lemma resume_in_loop net n target attempt answer m log :
  (attempt < n)%nat ->
  let '(t, _, _) := resume net n target (Waiting attempt answer) m log in
  in_loop n t /\ (attempts_left n t < attempts_left n (Waiting attempt answer))%nat.
Proof.
  intros Ha. cbn [resume attempts_left].
  pose proof (next_attempt_in_loop net n (S attempt) target (rotateProxy m) log) as Hn.
  destruct answer as [|r]; [|destruct (acceptable r); [simpl; split; [done|lia]|]].
  all: destruct (next_attempt _ _ _ _ _ _) as [[t m'] log']; destruct Hn; split; [done|lia].
Qed.

(** Properties that every step of either call keeps hold when both calls
    are over, and with fuel for the attempts left both are over. *)
Lemma run_both_invariant (P1 P2 : rotation_task -> Prop) (Q : CorsProxyManager -> Prop)
    net n target1 target2 :
  (forall a ans m log, P1 (Waiting a ans) -> Q m ->
     let '(t', m', _) := resume net n target1 (Waiting a ans) m log in P1 t' /\ Q m') ->
  (forall a ans m log, P2 (Waiting a ans) -> Q m ->
     let '(t', m', _) := resume net n target2 (Waiting a ans) m log in P2 t' /\ Q m') ->
  forall fuel schedule t1 t2 m log,
    P1 t1 -> P2 t2 -> Q m -> in_loop n t1 -> in_loop n t2 ->
    (attempts_left n t1 + attempts_left n t2 <= fuel)%nat ->
    let '(t1', t2', m', _) := run_both fuel net n target1 target2 schedule t1 t2 m log in
    P1 t1' /\ P2 t2' /\ Q m'
    /\ (exists r1, t1' = Finished r1) /\ (exists r2, t2' = Finished r2).
Proof.
  intros H1 H2. induction fuel as [|fuel IH]; intros schedule t1 t2 m log Hp1 Hp2 Hq Hw1 Hw2 Hf.
  - destruct t1 as [a1 ans1|r1]; [simpl in *; lia|].
    destruct t2 as [a2 ans2|r2]; [simpl in *; lia|].
    simpl. eauto 10.
  - assert (Hstep1 : forall a ans t1' m' log', t1 = Waiting a ans ->
              resume net n target1 t1 m log = (t1', m', log') ->
              P1 t1' /\ Q m' /\ in_loop n t1'
              /\ (attempts_left n t1' < attempts_left n t1)%nat).
    { intros a ans t1' m' log' -> Hres.
      pose proof (H1 a ans m log Hp1 Hq) as Hr.
      pose proof (resume_in_loop net n target1 a ans m log Hw1) as Hl.
      rewrite Hres in Hr, Hl. destruct Hr, Hl. done. }
    assert (Hstep2 : forall a ans t2' m' log', t2 = Waiting a ans ->
              resume net n target2 t2 m log = (t2', m', log') ->
              P2 t2' /\ Q m' /\ in_loop n t2'
              /\ (attempts_left n t2' < attempts_left n t2)%nat).
    { intros a ans t2' m' log' -> Hres.
      pose proof (H2 a ans m log Hp2 Hq) as Hr.
      pose proof (resume_in_loop net n target2 a ans m log Hw2) as Hl.
      rewrite Hres in Hr, Hl. destruct Hr, Hl. done. }
    assert (Hfirst : forall rest,
              let '(t1', m', log') := resume net n target1 t1 m log in
              (exists a ans, t1 = Waiting a ans) ->
              let '(t1'', t2', m'', _) :=
                run_both fuel net n target1 target2 rest t1' t2 m' log' in
              P1 t1'' /\ P2 t2' /\ Q m''
              /\ (exists r1, t1'' = Finished r1) /\ (exists r2, t2' = Finished r2)).
    { intros rest. destruct (resume net n target1 t1 m log) as [[t1' m'] log'] eqn:Hres.
      intros (a & ans & Ht). destruct (Hstep1 a ans t1' m' log' Ht eq_refl) as (? & ? & ? & ?).
      apply IH; try done. lia. }
    assert (Hsecond : forall rest,
              let '(t2', m', log') := resume net n target2 t2 m log in
              (exists a ans, t2 = Waiting a ans) ->
              let '(t1', t2'', m'', _) :=
                run_both fuel net n target1 target2 rest t1 t2' m' log' in
              P1 t1' /\ P2 t2'' /\ Q m''
              /\ (exists r1, t1' = Finished r1) /\ (exists r2, t2'' = Finished r2)).
    { intros rest. destruct (resume net n target2 t2 m log) as [[t2' m'] log'] eqn:Hres.
      intros (a & ans & Ht). destruct (Hstep2 a ans t2' m' log' Ht eq_refl) as (? & ? & ? & ?).
      apply IH; try done. lia. }
    clear Hstep1 Hstep2.
    cbn [run_both].
    destruct t1 as [a1 ans1|r1], t2 as [a2 ans2|r2].
    + destruct schedule as [|[|] rest].
      * specialize (Hfirst []).
        destruct (resume net n target1 (Waiting a1 ans1) m log) as [[t1' m'] log'].
        apply Hfirst. eauto.
      * specialize (Hfirst rest).
        destruct (resume net n target1 (Waiting a1 ans1) m log) as [[t1' m'] log'].
        apply Hfirst. eauto.
      * specialize (Hsecond rest).
        destruct (resume net n target2 (Waiting a2 ans2) m log) as [[t2' m'] log'].
        apply Hsecond. eauto.
    + specialize (Hfirst schedule).
      destruct (resume net n target1 (Waiting a1 ans1) m log) as [[t1' m'] log'].
      apply Hfirst. eauto.
    + specialize (Hsecond schedule).
      destruct (resume net n target2 (Waiting a2 ans2) m log) as [[t2' m'] log'].
      apply Hsecond. eauto.
    + eauto 10.
Qed.

(** Through whichever of the default proxies, a request for the text
    catalog is refused on [image_catalog_only]. *)
Lemma text_catalog_refused m k :
  proxies m = default_proxies ->
  exists url, getProxiedUrl m text_models_url = Returns url
              /\ image_catalog_only k (make_request url empty_config) = Rejected.
Proof.
  destruct m as [ps i]. cbn [proxies]. intros ->.
  unfold getProxiedUrl. cbn [proxies currentIndex].
  replace (encodeURIComponent text_models_url)
    with (Some (js "https%3A%2F%2Ftext.pollinations.ai%2Fmodels")) by (by vm_compute).
  eexists. split; [reflexivity|].
  do 10 (destruct i as [|i]; [by vm_compute|]). by vm_compute.
Qed.

(** The two calls start through the first proxy: the request for the
    text catalog is refused, the one for the image catalog is answered. *)
Lemma image_catalog_start :
  let m := proxyManager pollinations in
  let req1 := make_request (js "https://corsproxy.io/?https%3A%2F%2Ftext.pollinations.ai%2Fmodels")
                empty_config in
  let req2 := make_request (js "https://corsproxy.io/?https%3A%2F%2Fimage.pollinations.ai%2Fmodels")
                empty_config in
  next_attempt image_catalog_only 10 0 text_models_url m [] = (Waiting 0 Rejected, m, [req1])
  /\ exists r,
       acceptable r = true
       /\ next_attempt image_catalog_only 10 0 image_models_url m [req1]
          = (Waiting 0 (Responded r), m, [req1; req2])
       /\ @models_as_specified utf8_platform pollinations
            (Throws (ProxyExhausted text_models_url)) (Returns r)
          = [ VObj [str_prop "id" "flux"; str_prop "type" "image"];
              VObj [str_prop "id" "sdxl-turbo"; str_prop "type" "image"] ].
Proof.
  split; [by vm_compute|]. eexists. split; [|split]; [|by vm_compute|]; by vm_compute.
Qed.

(** C3, where only the text catalog is out of reach: every proxied request
    for it is refused and the request for the image catalog is answered with
    two models.  In whatever order the answers to the two concurrent calls
    arrive, the text call ends with ProxyExhausted and the image call with
    its response; the listing is then the static catalog, whereas the
    specification promises the two records of the image catalog. *)
Theorem models_list_drops_surviving_catalog (schedule : list bool) :
  let '(text, image, _, _) :=
    fetch_both image_catalog_only text_models_url image_models_url schedule
      (proxyManager pollinations) [] in
  text = Throws (ProxyExhausted text_models_url)
  /\ (exists r, image = Returns r)
  /\ (@pollinations_models_list utf8_platform image_catalog_only schedule
        pollinations []).1.1 = fallback_models
  /\ @models_as_specified utf8_platform pollinations text image
     = [ VObj [str_prop "id" "flux"; str_prop "type" "image"];
         VObj [str_prop "id" "sdxl-turbo"; str_prop "type" "image"] ].
Proof.
  destruct image_catalog_start as (Hstart1 & r0 & Hacc & Hstart2 & Hspec).
  cbv zeta in Hstart1, Hstart2.
  pose proof (models_list_after_failure (H := utf8_platform) image_catalog_only schedule
                pollinations []) as Hlist.
  unfold fetch_both in *.
  change (length (proxies (proxyManager pollinations))) with 10%nat in *.
  rewrite Hstart1, Hstart2 in *. clear Hstart1 Hstart2.
  match goal with
  | |- context [run_both _ _ _ _ _ _ _ _ _ ?l] => set (log0 := l) in *; clearbody log0
  end.
  set (P1 := fun t => t = Finished (Throws (ProxyExhausted text_models_url))
                      \/ exists a, t = Waiting a Rejected).
  set (P2 := fun t => t = Waiting 0 (Responded r0) \/ t = Finished (Returns r0)).
  set (Q := fun m => proxies m = default_proxies).
  assert (Htext : forall a ans m log, P1 (Waiting a ans) -> Q m ->
            let '(t', m', _) :=
              resume image_catalog_only 10 text_models_url (Waiting a ans) m log in
            P1 t' /\ Q m').
  { intros a ans m log [Hf|[a' Heq]] Hq; [discriminate|]. injection Heq as -> ->.
    cbn [resume]. unfold next_attempt.
    destruct (S a' <? 10)%nat; [|split; [by left|done]].
    destruct (text_catalog_refused (rotateProxy m) (length log) Hq) as (url & -> & ->).
    split; [right; by eexists|done]. }
  assert (Himage : forall a ans m log, P2 (Waiting a ans) -> Q m ->
            let '(t', m', _) :=
              resume image_catalog_only 10 image_models_url (Waiting a ans) m log in
            P2 t' /\ Q m').
  { intros a ans m log [Heq|Hf] Hq; [|discriminate]. injection Heq as -> ->.
    cbn [resume]. rewrite Hacc. split; [by right|done]. }
  pose proof (run_both_invariant P1 P2 Q image_catalog_only 10 text_models_url
                image_models_url Htext Himage (10 + 10) schedule (Waiting 0 Rejected)
                (Waiting 0 (Responded r0)) (proxyManager pollinations) log0) as Hinv.
  destruct (run_both _ _ _ _ _ _ _ _ _ _) as [[[t1' t2'] m'] log'].
  destruct Hinv as (Hp1 & Hp2 & _ & [r1 ->] & [r2 ->]);
    [right; by exists 0%nat|by left|done|simpl; lia|simpl; lia|simpl; lia|].
  destruct Hp1 as [Hp1|[a Hp1]]; [|discriminate].
  destruct Hp2 as [Hp2|Hp2]; [discriminate|].
  injection Hp1 as ->. injection Hp2 as ->. cbn [task_result] in *.
  split; [done|]. split; [by eexists|]. split; [|done].
  rewrite (Hlist _ _ _ _ eq_refl eq_refl); [done|]. left. by eexists.
Qed.

(** ** The config-caching adapter *)

Lemma array_length_truthy (es : list value) :
  truthy (VNum (Dec (Z.of_nat (length es)) 0)) = negb (bool_decide (es = [])).
Proof. destruct es; reflexivity. Qed.

Lemma array_length_positive (es : list value) :
  greater_than_zero (VNum (Dec (Z.of_nat (length es)) 0)) = negb (bool_decide (es = [])).
Proof.
  destruct es; [reflexivity|].
  rewrite bool_decide_eq_false_2 by done.
  apply Z.ltb_lt. cbn [length]. lia.
Qed.

(** The guard [!this._cachedModels.length < 1] holds exactly when the cache is
    not empty, and then [_loadModels] hands the cache back. *)
Lemma load_guard_of_array `{Platform} net t w es :
  _cachedModels t = VArr es ->
  (if less_than_one (VBool (negb (truthy (VNum (Dec (Z.of_nat (length es)) 0)))))
   then _loadModels net t w else (Returns VUndef, t, w))
  = (Returns (if bool_decide (es = []) then VUndef else VArr es), t, w).
Proof.
  intros Hc. rewrite array_length_truthy.
  destruct es as [|e es]; [reflexivity|].
  rewrite bool_decide_eq_false_2 by done. cbn [negb].
  change (less_than_one (VBool false)) with true. cbn iota.
  unfold _loadModels. rewrite Hc. cbn [get_prop]. 
  change (str_eqb (js "length") (js "length")) with true. cbn iota.
  rewrite array_length_positive. rewrite bool_decide_eq_false_2 by done. reflexivity.
Qed.

(** C5, as the code has it.  Whatever array the adapter holds as its cached
    catalog, the empty one of a fresh adapter included,
    [chat.completions.create] leaves the adapter as it is and sends one
    request only, the completion request: the catalog is never loaded here.
    The request's model is the resolved one, and where the caller gave no
    stop list and the configuration held for that model has a non-empty one,
    that list is the request's [stop]. *)
Theorem together_create_never_loads_catalog `{Platform} net random t p w es props :
  _cachedModels t = VArr es ->
  w_store w !! p = Some props ->
  let model := _getModel (modelAliases (t_client t)) (prop props (js "model"))
                 (defaultModel (t_client t)) random in
  let cached_stop := opt_get (js_or (table_get (_modelConfigs t) model) (VObj []))
                       (js "stop") in
  let '(_, t', w') := together_chat_create net random t p w in
  t' = t
  /\ exists body,
       w_log w' = w_log w ++ [together_request t body]
       /\ w_store w' !! p = Some body
       /\ obj_get body (js "model") = Some model
       /\ (forall s ss, truthy (prop props (js "stop")) = false ->
                        cached_stop = VArr (s :: ss) ->
                        obj_get body (js "stop") = Some (VArr (s :: ss))).
Proof.
  intros Hc Hp model cached_stop. unfold together_chat_create.
  rewrite Hc. cbn [get_prop].
  change (str_eqb (js "length") (js "length")) with true. cbn iota.
  rewrite (load_guard_of_array net t w es Hc). rewrite Hp.
  fold model. fold cached_stop.
  set (props1 := obj_set props (js "model") model).
  set (body := if negb (truthy (prop props1 (js "stop"))) && truthy cached_stop
                     && greater_than_zero (opt_get cached_stop (js "length"))
                  then obj_set props1 (js "stop") cached_stop else props1).
  unfold fetch. cbn [w_log w_store write_props].
  assert (Hbody : obj_get body (js "model") = Some model
     /\ (forall s ss, truthy (prop props (js "stop")) = false ->
                        cached_stop = VArr (s :: ss) ->
                        obj_get body (js "stop") = Some (VArr (s :: ss)))).
  { subst body. split.
    - destruct (_ && _ && _); [rewrite obj_get_set_ne by done|]; apply obj_get_set_eq.
    - intros s ss Hs Hst. 
      assert (Hs1 : truthy (prop props1 (js "stop")) = false).
      { unfold prop, props1. by rewrite obj_get_set_ne. }
      rewrite Hs1, Hst. cbn. apply obj_get_set_eq. }
  destruct Hbody as [Hm Hs].
  assert (Hgoal : forall r : outcome completion, 
    let '(_, t', w') := (r, t, {| w_store := <[p:=body]> (w_store w); w_log := w_log w ++ [together_request t body] |}) in
    t' = t /\ exists body0, w_log w' = w_log w ++ [together_request t body0] /\
      w_store w' !! p = Some body0 /\ obj_get body0 (js "model") = Some model /\
      (forall s ss, truthy (prop props (js "stop")) = false ->
                        cached_stop = VArr (s :: ss) ->
                        obj_get body0 (js "stop") = Some (VArr (s :: ss)))).
  { intros r. split; [done|]. exists body. cbn. rewrite lookup_insert_eq. done. }
  destruct (net _ _) as [|r]; [apply (Hgoal (Throws NetworkFailure))|];
    destruct (truthy (prop body (js "stream")));
    [apply (Hgoal (Returns (Streamed (_streamCompletion r))))|];
    destruct (_regularCompletion r) as [v|e];
    [apply (Hgoal (Returns (Completed v)))|apply (Hgoal (Throws e))].
Qed.

Lemma new_Together_with_key :
  new_Together VUndef [str_prop "apiKey" "key"] = Returns together.
Proof. by vm_compute. Qed.

Lemma together_create_never_loads_catalog_witness :
  let '(_, t', w') :=
    @together_chat_create utf8_platform catalog_network 0 together 1%positive
      (world_with plain_chat_params) in
  t' = together
  /\ exists body,
       w_log w' = [together_request together body]
       /\ obj_get body (js "model") = Some (defaultModel together_client).
Proof.
  pose proof (@together_create_never_loads_catalog utf8_platform catalog_network 0
                together 1%positive (world_with plain_chat_params) []
                plain_chat_params eq_refl eq_refl) as Hw.
  cbv zeta in Hw.
  destruct (@together_chat_create utf8_platform catalog_network 0 together 1%positive
      (world_with plain_chat_params)) as [[r t'] w'].
  destruct Hw as (Ht & body & Hlog & _ & Hm & _).
  split; [exact Ht|]. exists body. split; [exact Hlog|exact Hm].
Defined.

(** The failing input of C5: a fresh adapter and a catalog that holds a
    stop list for the default model.  The only request is the completion
    request, without [stop]; the catalog is not asked for. *)
Example together_create_on_fresh_adapter :
  let '(_, t', w') :=
    @together_chat_create utf8_platform catalog_network 0 together 1%positive
      (world_with plain_chat_params) in
  t' = together
  /\ w_log w' =
     [ together_request together
         (plain_chat_params ++ [(js "model", defaultModel together_client)]) ].
Proof. by vm_compute. Qed.

(** With the catalog loaded, which takes a [getApiKey] method and a call of
    [models.list], the same request carries the catalog's stop list. *)
Example together_create_after_listing :
  let '(_, t, w) :=
    @together_models_list utf8_platform catalog_network together_with_key_method
      (world_with plain_chat_params) in
  let '(_, _, w') :=
    @together_chat_create utf8_platform catalog_network 0 t 1%positive w in
  w_log w' =
    [ {| req_url := js "https://api.together.xyz/v1/models"; req_method := GET;
         req_headers := extraHeaders together_client; req_body := None |};
      together_request together
        (plain_chat_params ++
         [ (js "model", defaultModel together_client);
           (js "stop", VArr [VStr (js "<|eot_id|>")]) ]) ].
Proof. by vm_compute. Qed.

(** Without the method, [models.list] and [_loadModels] send nothing. *)
Lemma _loadModels_without_key_method `{Platform} net t w :
  getApiKey t = None ->
  exists r, _loadModels net t w = (r, t, w).
Proof.
  intros Hk. unfold _loadModels. rewrite Hk.
  destruct (get_prop _ _) as [len|]; [|by eexists].
  destruct (greater_than_zero len); by eexists.
Qed.

(** ** The routing adapter *)




Lemma new_HuggingFace_with_key :
  new_HuggingFace VUndef [str_prop "apiKey" "key"] = Returns huggingface.
Proof. by vm_compute. Qed.



(** * Further properties of the code *)

(** ** The proxy cursor *)



(** ** Two concurrent calls *)






(** ** Aliases and their inverse *)

Lemma insert_by_index_perm e l : insert_by_index e l ≡ₚ e :: l.
Proof.
  induction l as [|e' l IH]; simpl; [done|].
  destruct (e.1 <=? e'.1)%nat; [done|]. rewrite IH. apply Permutation_swap.
Qed.

(** The enumeration order only permutes the properties. *)
Lemma own_entries_perm props : own_entries props ≡ₚ props.
Proof.
  unfold own_entries. induction props as [|p r IH]; [done|].
  rewrite filter_cons. cbn [omap list_omap]. destruct (array_index p.1) as [i|] eqn:Hi.
  - cbn [fmap option_fmap option_map foldr].
    rewrite decide_False by done.
    etrans; [apply Permutation_app_tail, Permutation_map, insert_by_index_perm|].
    cbn [map app snd]. by apply perm_skip.
  - cbn [fmap option_fmap option_map]. rewrite decide_True by done.
    etrans; [symmetry; apply Permutation_middle|]. by apply perm_skip.
Qed.




Lemma obj_get_None_elem {V} (ps : list (jsstring * V)) k :
  k ∉ ps.*1 -> obj_get ps k = None.
Proof.
  induction ps as [|[k' v'] ps IH]; intros Hk; [done|].
  rewrite obj_get_cons. cbn [fmap list_fmap fst] in Hk.
  apply not_elem_of_cons in Hk as [Hne Hk].
  rewrite decide_False by done. by apply IH.
Qed.



(** ** What [models.list] caches *)



(** ** The end of a stream *)

Lemma complete_lines_before_last_newline (text tail : jsstring) :
  LF ∉ tail -> complete_lines (text ++ LF :: tail) = split_on LF text.
Proof.
  intros Ht. unfold complete_lines.
  destruct (split_on_snoc LF text) as (init & final & Hs).
  rewrite (split_on_app LF text (LF :: tail) init final Hs).
  rewrite split_on_two; [|by eapply split_on_last_no_sep|done].
  rewrite Hs. change [final; tail] with ([final] ++ [tail]).
  by rewrite app_assoc, array_pop_snoc.
Qed.

(** The decoder yields the events of the lines that end in a newline and
    nothing else: what follows the last newline of the stream is never
    decoded, whatever it holds, and a stream without a newline yields no
    event. *)
Theorem unterminated_line_is_dropped `{Platform} (chunks : list (list byte))
    (text tail : jsstring) :
  LF ∉ tail ->
  (decoded_text chunks = text ++ LF :: tail ->
   decode_events chunks = omap handle_part (split_on LF text))
  /\ (decoded_text chunks = tail -> decode_events chunks = []).
Proof.
  intros Ht. unfold decode_events. rewrite read_chunks_spec. cbn [snd].
  split; intros ->.
  - by rewrite complete_lines_before_last_newline.
  - unfold complete_lines. by rewrite split_on_no_sep.
Qed.

Lemma unterminated_line_is_dropped_witness :
  @decode_events utf8_platform
    [jsq "data: {'id':'a'}" ++ [LF] ++ jsq "data: {'id':'b'}"]
  = [VObj [(js "id", VStr (js "a"))]]
  /\ @decode_events utf8_platform [jsq "data: {'id':'b'}"] = [].
Proof.
  split.
  - rewrite (proj1 (@unterminated_line_is_dropped utf8_platform
                      [jsq "data: {'id':'a'}" ++ [LF] ++ jsq "data: {'id':'b'}"]
                      (jsq "data: {'id':'a'}") (jsq "data: {'id':'b'}")
                      ltac:(apply (bool_decide_unpack _); by vm_compute))
               ltac:(by vm_compute)).
    by vm_compute.
  - apply (proj2 (@unterminated_line_is_dropped utf8_platform
                    [jsq "data: {'id':'b'}"] [] (jsq "data: {'id':'b'}")
                    ltac:(apply (bool_decide_unpack _); by vm_compute))).
    by vm_compute.
Defined.

(** ** When a failure status surfaces *)

(** [chat.completions.create] on the base client, answered with a failure
    status.  Without [stream] the call fails with that status.  With a
    truthy [stream] the call succeeds, and the failure is raised only when
    the returned sequence is first read.  Either way one request has been
    sent and the caller's params stay rewritten. *)
Theorem failure_status_is_deferred_when_streaming `{Platform} (net : network)
    (c : Client) (p : loc) (w : world) (props : list (jsstring * value)) (r : response) :
  w_store w !! p = Some props ->
  let resolved := resolve_model (modelAliases c) (prop props (js "model")) (defaultModel c) in
  let body := if truthy (referrer c)
              then obj_set (obj_set props (js "model") resolved) (js "referrer") (referrer c)
              else obj_set props (js "model") resolved in
  let req := {| req_url := apiEndpoint c; req_method := POST;
                req_headers := extraHeaders c; req_body := Some (VObj body) |} in
  net (length (w_log w)) req = Responded r ->
  resp_ok r = false ->
  let '(res, w') := chat_completions_create net c p w in
  res = (if truthy (prop props (js "stream"))
         then Returns (Streamed (Throws (UpstreamStatus (resp_status r))))
         else Throws (UpstreamStatus (resp_status r)))
  /\ w_log w' = w_log w ++ [req]
  /\ w_store w' !! p = Some body.
Proof.
  intros Hp resolved body req Hnet Hok. unfold chat_completions_create.
  rewrite Hp. fold resolved. fold body. unfold fetch. cbn [w_log w_store write_props].
  fold req. rewrite Hnet.
  assert (Hs : prop body (js "stream") = prop props (js "stream")).
  { unfold prop, body. destruct (truthy (referrer c)); by rewrite !obj_get_set_ne. }
  rewrite Hs. unfold _streamCompletion, _regularCompletion. rewrite Hok. cbn [negb].
  destruct (truthy (prop props (js "stream")));
    (split; [done|]; split; [done|]; cbn [w_store]; apply lookup_insert_eq).
Qed.

Lemma failure_status_is_deferred_when_streaming_witness :
  let failing : network := fun _ req =>
    Responded {| resp_ok := false; resp_status := 503; resp_content_type := None;
                 resp_url := req_url req; resp_body := None |} in
  (@chat_completions_create utf8_platform failing pollinations 1%positive
     (world_with ((js "stream", VBool true) :: chat_params))).1
  = Returns (Streamed (Throws (UpstreamStatus 503)))
  /\ (@chat_completions_create utf8_platform failing pollinations 1%positive
        (world_with chat_params)).1
     = Throws (UpstreamStatus 503).
Proof.
  intros failing. split.
  - pose proof (@failure_status_is_deferred_when_streaming utf8_platform failing pollinations
                  1%positive (world_with ((js "stream", VBool true) :: chat_params))
                  ((js "stream", VBool true) :: chat_params) _ eq_refl eq_refl eq_refl) as Hw.
    cbv zeta in Hw. destruct (chat_completions_create _ _ _ _) as [res w'].
    by destruct Hw as [-> _].
  - pose proof (@failure_status_is_deferred_when_streaming utf8_platform failing pollinations
                  1%positive (world_with chat_params) chat_params _ eq_refl eq_refl eq_refl)
      as Hw.
    cbv zeta in Hw. destruct (chat_completions_create _ _ _ _) as [res w'].
    by destruct Hw as [-> _].
Defined.

(** ** Image generation: defaults and odd sizes *)

Lemma split_size_no_separator params (size : jsstring) :
  obj_get params (js "size") = Some (VStr size) -> size <> [] -> 120 ∉ size ->
  exists query,
    split_size params = Some query
    /\ obj_get query (js "width") = Some (VStr size)
    /\ obj_get query (js "height") = Some VUndef
    /\ obj_get query (js "size") = None
    /\ forall k, k <> js "width" -> k <> js "height" -> k <> js "size" ->
         obj_get query k = obj_get params k.
Proof.
  intros Hs Hne Hx. unfold split_size, prop. rewrite Hs. simpl.
  assert (Ht : negb (is_empty size) = true) by (by destruct size).
  rewrite Ht, split_on_no_sep by done. simpl.
  eexists. split; [done|]. split; [|split; [|split]].
  - by rewrite obj_get_delete_ne, obj_get_set_ne, obj_get_set_eq.
  - by rewrite obj_get_delete_ne, obj_get_set_eq.
  - apply obj_get_delete_eq.
  - intros k H1 H2 H3. by rewrite obj_get_delete_ne, !obj_get_set_ne.
Qed.

Lemma template_defaults_nologo referrer params :
  obj_get (template_defaults referrer params) (js "nologo")
  = Some (match prop params (js "nologo") with
          | VUndef => VBool true
          | v => v
          end).
Proof.
  unfold template_defaults.
  assert (Hn : prop (obj_delete params (js "prompt")) (js "nologo")
               = prop params (js "nologo")).
  { unfold prop. by rewrite obj_get_delete_ne. }
  rewrite Hn.
  assert (Hg : forall ps : list (jsstring * value),
            obj_get (if truthy referrer then obj_set ps (js "referrer") referrer else ps)
              (js "nologo") = obj_get ps (js "nologo")).
  { intros ps. destruct (truthy referrer); [by rewrite obj_get_set_ne|done]. }
  rewrite Hg. unfold prop.
  destruct (obj_get params (js "nologo")) as [v|] eqn:Hv; cbn [default].
  - destruct v; cbn [id]; first [apply obj_get_set_eq | by rewrite obj_get_delete_ne].
  - apply obj_get_set_eq.
Qed.

Lemma starts_with_prefix p s : starts_with p (p ++ s) = true.
Proof. induction p as [|a p IH]; [done|]. simpl. by rewrite N.eqb_refl. Qed.

Lemma includes_middle p a b : includes p (a ++ p ++ b) = true.
Proof.
  induction a as [|x a IH].
  - cbn [app]. generalize (starts_with_prefix p b). generalize (p ++ b).
    intros s Hs. destruct s; simpl; by rewrite Hs.
  - cbn [app includes]. rewrite IH. apply orb_true_r.
Qed.

Lemma join_middle sep (l : list jsstring) x :
  x ∈ l -> exists a b, join sep l = a ++ x ++ b.
Proof.
  induction l as [|y l IH]; intros Hin; [by apply elem_of_nil in Hin|].
  apply elem_of_cons in Hin as [<-|Hin].
  - exists []. destruct l; [exists []; by rewrite app_nil_r|]. by eexists.
  - destruct (IH Hin) as (a & b & Hj). destruct l as [|z l]; [by apply elem_of_nil in Hin|].
    cbn [join]. cbn [join] in Hj. rewrite Hj.
    exists (y ++ sep ++ a), b. by rewrite <- !app_assoc.
Qed.

Lemma obj_get_Some_elem {V} (ps : list (jsstring * V)) k v :
  obj_get ps k = Some v -> (k, v) ∈ ps.
Proof.
  induction ps as [|[k' v'] ps IH]; [done|]. rewrite obj_get_cons.
  case_decide; intros Hg; [simplify_eq; apply list_elem_of_here|].
  apply list_elem_of_further. by apply IH.
Qed.

(** A property of the query object shows in the query string. *)
Lemma query_shows_property (query : list (jsstring * value)) k v :
  obj_get query k = Some v ->
  includes (form_encode k ++ js "=" ++ form_encode (to_string v))
    (url_search_params query) = true.
Proof.
  intros Hg. unfold url_search_params.
  destruct (join_middle (js "&")
              (map (fun p => form_encode p.1 ++ js "=" ++ form_encode (to_string p.2))
                 (own_entries query))
              (form_encode k ++ js "=" ++ form_encode (to_string v))) as (a & b & ->).
  - apply list_elem_of_fmap. exists (k, v). split; [done|].
    rewrite own_entries_perm. by apply obj_get_Some_elem.
  - apply includes_middle.
Qed.

(** [images.generate] through a template endpoint, for params without a
    prompt.  The placeholder is replaced by the empty text.  [nologo] is
    [true] unless the caller gave a value other than [undefined], which is
    kept, be it [false] or [null].  A size without an 'x' becomes the
    width, and the height is [undefined], sent as the text 'undefined'.  A
    falsy size adds no width and no height, and stays in the query if the
    caller gave it. *)
Theorem template_defaults_and_odd_sizes `{Platform} (net : network) (c : Client)
    (p : loc) (w : world) (props : list (jsstring * value)) :
  includes (js "{prompt}") (imageEndpoint c) = true ->
  w_store w !! p = Some props ->
  truthy (prop props (js "prompt")) = false ->
  (truthy (prop props (js "size")) = false
   \/ exists size, obj_get props (js "size") = Some (VStr size) /\ size <> [] /\ 120 ∉ size) ->
  exists (before after : jsstring) (query : list (jsstring * value)),
    imageEndpoint c = before ++ js "{prompt}" ++ after
    /\ w_log (images_generate net c p w).2
       = w_log w ++ [ {| req_url := before ++ after ++ js "?" ++ url_search_params query;
                         req_method := GET; req_headers := extraHeaders c;
                         req_body := None |} ]
    /\ obj_get query (js "nologo")
       = Some (match prop props (js "nologo") with VUndef => VBool true | v => v end)
    /\ (truthy (prop props (js "size")) = false ->
        forall k, k ∈ [js "size"; js "width"; js "height"] ->
                  obj_get query k = obj_get props k)
    /\ (forall size, obj_get props (js "size") = Some (VStr size) -> size <> [] ->
        obj_get query (js "width") = Some (VStr size)
        /\ obj_get query (js "height") = Some VUndef
        /\ obj_get query (js "size") = None
        /\ includes (js "height=undefined") (url_search_params query) = true).
Proof.
  intros Hincl Hp Hprompt Hsize.
  set (resolved := resolve_model (modelAliases c) (prop props (js "model"))
                     (defaulImageModel c)).
  set (props1 := obj_set props (js "model") resolved).
  assert (Hq1 : forall k, k <> js "model" ->
                  obj_get (own_entries props1) k = obj_get props k).
  { intros k Hk. rewrite obj_get_own_entries. unfold props1. by apply obj_get_set_ne. }
  set (params := template_defaults (referrer c) (own_entries props1)).
  assert (Hparams : forall k, k ∈ [js "size"; js "width"; js "height"] ->
                      obj_get params k = obj_get props k).
  { intros k Hk. unfold params. rewrite !elem_of_cons in Hk.
    destruct Hk as [->|[->|[->|Hk]]]; [| | |by apply elem_of_nil in Hk];
      by rewrite template_defaults_get, Hq1. }
  assert (Hnologo : obj_get params (js "nologo")
                    = Some (match prop props (js "nologo") with
                            | VUndef => VBool true | v => v end)).
  { unfold params. rewrite template_defaults_nologo. unfold prop. by rewrite Hq1. }
  assert (Htp : template_prompt (own_entries props1) = Some []).
  { unfold template_prompt.
    assert (Hpr : prop (own_entries props1) (js "prompt") = prop props (js "prompt"))
      by (unfold prop; by rewrite Hq1).
    by rewrite Hpr, Hprompt. }
  destruct (replace_first_plain (js "{prompt}") [] (imageEndpoint c) Hincl)
    as (before & after & Hep & Hrep); [apply not_elem_of_nil|].
  assert (Hrun : forall query, split_size params = Some query ->
            w_log (images_generate net c p w).2
            = w_log w ++ [ {| req_url := before ++ after ++ js "?" ++ url_search_params query;
                              req_method := GET; req_headers := extraHeaders c;
                              req_body := None |} ]).
  { intros query Hsplit. unfold images_generate. rewrite Hp, Hincl. fold resolved props1.
    unfold _defaultImageGeneration, write_props. simpl. rewrite lookup_insert_eq.
    rewrite Htp. fold params. rewrite Hsplit. simpl. by rewrite Hrep, <- !app_assoc. }
  exists before, after.
  destruct Hsize as [Hfalsy|(size & Hs & Hne & Hx)].
  - exists params.
    assert (Hsplit : split_size params = Some params).
    { unfold split_size, prop. rewrite Hparams by set_solver. fold (prop props (js "size")).
      by rewrite Hfalsy. }
    split; [done|]. split; [by apply Hrun|]. split; [done|]. split; [done|].
    intros size Hs Hne. exfalso. unfold prop in Hfalsy. rewrite Hs in Hfalsy.
    by destruct size.
  - destruct (split_size_no_separator params size) as (query & Hsplit & Hw & Hh & Hz & Hother);
      [by rewrite Hparams by set_solver|done|done|].
    exists query.
    split; [done|]. split; [by apply Hrun|].
    split; [by rewrite Hother|].
    split.
    + intros Hfalsy. exfalso. unfold prop in Hfalsy. rewrite Hs in Hfalsy. by destruct size.
    + intros size' Hs' _. rewrite Hs in Hs'. injection Hs' as <-.
      split; [done|]. split; [done|]. split; [done|].
      by apply (query_shows_property query (js "height") VUndef).
Qed.

Lemma template_defaults_and_odd_sizes_witness :
  let props := [str_prop "size" "512"] in
  exists (before after : jsstring) (query : list (jsstring * value)),
    imageEndpoint pollinations = before ++ js "{prompt}" ++ after
    /\ w_log (@images_generate utf8_platform ok_network pollinations 1%positive
                (world_with props)).2
       = [ {| req_url := before ++ after ++ js "?" ++ url_search_params query;
              req_method := GET; req_headers := extraHeaders pollinations;
              req_body := None |} ]
    /\ obj_get query (js "nologo") = Some (VBool true)
    /\ obj_get query (js "width") = Some (VStr (js "512"))
    /\ obj_get query (js "height") = Some VUndef
    /\ includes (js "height=undefined") (url_search_params query) = true.
Proof.
  intros props.
  destruct (@template_defaults_and_odd_sizes utf8_platform ok_network pollinations
              1%positive (world_with props) props)
    as (before & after & query & H1 & H2 & H3 & _ & H5).
  - reflexivity.
  - reflexivity.
  - reflexivity.
  - right. exists (js "512"). split; [reflexivity|]. split; [done|].
    apply (bool_decide_unpack _). by vm_compute.
  - destruct (H5 (js "512") eq_refl ltac:(done)) as (Hw & Hh & _ & Hi).
    exists before, after, query. by repeat split.
Defined.

Example template_request_without_prompt :
  map req_url
    (w_log (@images_generate utf8_platform ok_network pollinations 1%positive
              (world_with [str_prop "size" "512"])).2)
  = [js "https://image.pollinations.ai/prompt/?model=flux&nologo=true&referrer=https%3A%2F%2Fg4f.dev&width=512&height=undefined"].
Proof. by vm_compute. Qed.

(** ** What [images.generate] writes *)

(** [images.generate] on the base client overwrites [model] in the caller's
    params, on the template path as on the other one, and writes nothing
    else there: the other properties and every other object the caller
    holds are as before.  On the path without a template the body of the
    request is the caller's object so rewritten. *)
Theorem images_generate_overwrites_model `{Platform} (net : network) (c : Client)
    (p : loc) (w : world) (props : list (jsstring * value)) :
  w_store w !! p = Some props ->
  let resolved := resolve_model (modelAliases c) (prop props (js "model"))
                    (defaulImageModel c) in
  let after := (images_generate net c p w).2 in
  w_store after !! p = Some (obj_set props (js "model") resolved)
  /\ (forall l o, l <> p -> w_store w !! l = Some o -> w_store after !! l = Some o)
  /\ (includes (js "{prompt}") (imageEndpoint c) = false ->
      w_log after
      = w_log w ++ [ {| req_url := imageEndpoint c; req_method := POST;
                        req_headers := extraHeaders c;
                        req_body := Some (VObj (obj_set props (js "model") resolved)) |} ]).
Proof.
  intros Hp resolved after. unfold after, images_generate. rewrite Hp. fold resolved.
  set (w1 := write_props w p (obj_set props (js "model") resolved)).
  assert (H1 : w_store w1 !! p = Some (obj_set props (js "model") resolved))
    by apply lookup_insert_eq.
  assert (H2 : forall l, l <> p -> w_store w1 !! l = w_store w !! l)
    by (intros l Hl; by apply lookup_insert_ne).
  destruct (includes (js "{prompt}") (imageEndpoint c)).
  - destruct (default_image_store net c p w1) as (q & Hq & Hframe).
    assert (Hpq : p <> q) by (intros ->; congruence).
    split; [by rewrite Hframe|]. split; [|done].
    intros l o Hl Ho. assert (l <> q).
    { intros ->. rewrite H2 in Hq by done. congruence. }
    by rewrite Hframe, H2.
  - unfold _regularImageGeneration. rewrite H1. unfold fetch.
    destruct (net _ _) as [|r]; [|destruct (negb (resp_ok r))];
      (split; [done|]; split; [intros l o Hl Ho; cbn [snd w_store]; by rewrite H2|done]).
Qed.

Lemma images_generate_overwrites_model_witness :
  let props := [str_prop "model" "sdxl-turbo"; str_prop "prompt" "a cat"] in
  w_store (@images_generate utf8_platform ok_network pollinations 1%positive
             (world_with props)).2 !! 1%positive
  = Some [str_prop "model" "turbo"; str_prop "prompt" "a cat"].
Proof.
  intros props.
  destruct (@images_generate_overwrites_model utf8_platform ok_network pollinations
              1%positive (world_with props) props eq_refl) as [Hw _].
  exact Hw.
Defined.

(** ** The config-caching adapter as its constructor builds it *)

(** On an adapter that [new Together(...)] built, [chat.completions.create]
    and [models.list] leave the adapter exactly as it is, [models.list]
    answers with the empty list without a request, and [images.generate]
    raises a TypeError before it sends anything: the cache is empty, what
    would fill it calls [getApiKey], which the class does not have, and
    [images.generate] calls [loadModels], which it does not have either.
    As no operation changes the adapter, this holds after any number of
    calls. *)
Theorem together_images_never_generated `{Platform} (stored_key : value)
    (options : list (jsstring * value)) (t : Together) :
  new_Together stored_key options = Returns t ->
  (forall net random p w, (together_chat_create net random t p w).1.2 = t)
  /\ (forall net w, together_models_list net t w = (Returns (VArr []), t, w))
  /\ (forall net random p w,
        together_images_generate net random t p w = (Throws TypeError, w)).
Proof.
  intros Hnew.
  assert (Hc : _cachedModels t = VArr [] /\ getApiKey t = None).
  { unfold new_Together in Hnew. destruct (_ && negb (truthy stored_key)); [done|].
    destruct (new_Client _ _); [|done]. by injection Hnew as <-. }
  destruct Hc as [Hc Hk]. split; [|split].
  - intros net random p w. unfold together_chat_create. rewrite Hc. cbn [get_prop].
    change (str_eqb (js "length") (js "length")) with true. cbn iota.
    rewrite (load_guard_of_array net t w [] Hc).
    destruct (w_store w !! p); [|done]. unfold fetch.
    destruct (net _ _) as [|r]; [done|]. destruct (truthy _); [done|].
    by destruct (_regularCompletion r).
  - intros net w. unfold together_models_list, _loadModels. by rewrite Hc, Hk.
  - intros net random p w. unfold together_images_generate. by rewrite Hc.
Qed.

Lemma together_images_never_generated_witness :
  @together_images_generate utf8_platform catalog_network 0 together 1%positive
    (world_with image_params)
  = (Throws TypeError, world_with image_params).
Proof.
  apply (@together_images_never_generated utf8_platform VUndef
           [str_prop "apiKey" "key"] together new_Together_with_key).
Defined.

(** *** What the constructor makes of its options *)

Lemma obj_get_foldl_set {V} (a b : list (jsstring * V)) k :
  NoDup b.*1 ->
  obj_get (foldl (fun acc p => obj_set acc p.1 p.2) a b) k
  = match obj_get b k with
    | Some v => Some v
    | None => obj_get a k
    end.
Proof.
  revert a. induction b as [|[k' v'] b IH]; intros a Hnd; [done|].
  cbn [fmap list_fmap fst] in Hnd. apply NoDup_cons in Hnd as [Hk Hnd].
  cbn [foldl fst snd]. rewrite IH, obj_get_cons by done. case_decide as Hkk.
  - subst k'. rewrite obj_get_None_elem by done. apply obj_get_set_eq.
  - destruct (obj_get b k); [done|]. by apply obj_get_set_ne.
Qed.

(** [{...a, ...b}]: a property of [b] wins. *)
Lemma obj_get_merge (a b : list (jsstring * value)) k :
  NoDup b.*1 ->
  obj_get (merge_objects a b) k
  = match obj_get b k with
    | Some v => Some v
    | None => obj_get a k
    end.
Proof.
  intros Hnd. unfold merge_objects. rewrite obj_get_foldl_set, !obj_get_own_entries; [done|].
  by rewrite own_entries_perm.
Qed.

Lemma obj_set_keys {V} (ps : list (jsstring * V)) k v :
  (obj_set ps k v).*1 = if decide (k ∈ ps.*1) then ps.*1 else ps.*1 ++ [k].
Proof.
  induction ps as [|[k' v'] ps IH]; [done|]. cbn [obj_set]. unfold str_eqb.
  case_bool_decide as Hk.
  - subst k'. cbn [fmap list_fmap fst]. rewrite decide_True; [done|apply list_elem_of_here].
  - cbn [fmap list_fmap fst] in *. rewrite IH.
    destruct (decide (k ∈ ps.*1)) as [Hin|Hout].
    + rewrite decide_True; [done|by apply list_elem_of_further].
    + rewrite decide_False; [done|]. rewrite elem_of_cons. naive_solver.
Qed.

Lemma obj_set_NoDup {V} (ps : list (jsstring * V)) k v :
  NoDup ps.*1 -> NoDup (obj_set ps k v).*1.
Proof.
  intros Hnd. rewrite obj_set_keys. case_decide; [done|].
  apply NoDup_app. split; [done|]. split; [|apply NoDup_singleton].
  intros x Hx ->%list_elem_of_singleton. done.
Qed.

(** [new Together(options)] hands the base constructor its image model
    under the name [defaulImageModel], which that constructor does not read,
    and spreads [options] after the alias table it has just merged.  So the
    default image model is the caller's [defaultImageModel] or else 'flux',
    never the model the adapter names; and aliases that the caller gives
    replace the built-in table instead of extending it. *)
Theorem together_constructor_options (stored_key : value)
    (options : list (jsstring * value)) (t : Together) :
  NoDup options.*1 ->
  new_Together stored_key options = Returns t ->
  defaulImageModel (t_client t)
  = js_or (prop options (js "defaultImageModel")) (VStr (js "flux"))
  /\ modelAliases (t_client t)
     = match obj_get options (js "modelAliases") with
       | Some given => own_properties (js_or given (VObj []))
       | None => together_aliases
       end.
Proof.
  intros Hnd Hnew. unfold new_Together in Hnew.
  set (unconfigured := negb (truthy (prop options (js "baseUrl")))
                       && negb (truthy (prop options (js "apiEndpoint")))
                       && negb (truthy (prop options (js "apiKey")))) in *.
  destruct (unconfigured && negb (truthy stored_key)) eqn:Hthrow; [done|].
  set (options' := if unconfigured then obj_set options (js "apiKey") stored_key
                   else options) in *.
  assert (Hnd' : NoDup options'.*1).
  { unfold options'. destruct unconfigured; [by apply obj_set_NoDup|done]. }
  assert (Hsame : forall k, k <> js "apiKey" -> obj_get options' k = obj_get options k).
  { intros k Hk. unfold options'. destruct unconfigured; [by apply obj_get_set_ne|done]. }
  set (defaults := [_; _; _; _]) in Hnew.
  assert (Hm : forall k, prop (merge_objects defaults options') k
                         = match obj_get options' k with
                           | Some v => v
                           | None => prop defaults k
                           end).
  { intros k. unfold prop. rewrite obj_get_merge by done. by destruct (obj_get options' k). }
  assert (Hconf : negb (truthy (prop (merge_objects defaults options') (js "baseUrl")))
                  && negb (truthy (prop (merge_objects defaults options') (js "apiEndpoint")))
                  && negb (truthy (prop (merge_objects defaults options') (js "apiKey")))
                  = false).
  { rewrite !Hm.
    destruct unconfigured eqn:Hu.
    - assert (Hk : obj_get options' (js "apiKey") = Some stored_key)
        by apply obj_get_set_eq.
      rewrite Hk. destruct (truthy stored_key); [|done].
      by rewrite andb_false_r.
    - unfold unconfigured in Hu. unfold options'.
      assert (Ht : forall k, truthy (prop options k) = true ->
                truthy (match obj_get options k with
                        | Some v => v
                        | None => prop defaults k
                        end) = true).
      { intros k. unfold prop. by destruct (obj_get options k). }
      destruct (truthy (prop options (js "baseUrl"))) eqn:E1;
        [by rewrite (Ht _ E1)|].
      destruct (truthy (prop options (js "apiEndpoint"))) eqn:E2;
        [by rewrite (Ht _ E2), andb_false_r|].
      destruct (truthy (prop options (js "apiKey"))) eqn:E3;
        [by rewrite (Ht _ E3), andb_false_r|].
      done. }
  unfold new_Client in Hnew. rewrite Hconf in Hnew. cbn [andb] in Hnew.
  injection Hnew as <-. cbn [t_client defaulImageModel modelAliases].
  rewrite !Hm, !Hsame by done. split.
  - unfold prop. by destruct (obj_get options (js "defaultImageModel")).
  - destruct (obj_get options (js "modelAliases")) as [given|] eqn:Hgiven; [done|].
    assert (Hd : prop defaults (js "modelAliases")
                 = VObj (merge_objects together_aliases
                           (own_properties (prop options' (js "modelAliases")))))
      by reflexivity.
    rewrite Hd. unfold prop. rewrite Hsame, Hgiven by done. by vm_compute.
Qed.

Lemma together_constructor_options_witness :
  let options := [ str_prop "apiKey" "key";
                   (js "modelAliases", VObj [str_prop "mine" "org/model"]) ] in
  exists t,
    new_Together VUndef options = Returns t
    /\ defaulImageModel (t_client t) = VStr (js "flux")
    /\ modelAliases (t_client t) = [str_prop "mine" "org/model"]
    /\ _getModel (modelAliases (t_client t)) (VStr (js "flux")) VNull 0 = VStr (js "flux").
Proof.
  intros options.
  destruct (new_Together VUndef options) as [t|e] eqn:Hnew; [|by vm_compute in Hnew].
  exists t. split; [done|].
  destruct (together_constructor_options VUndef options t) as [Hd Ha].
  - apply (bool_decide_unpack _). by vm_compute.
  - exact Hnew.
  - rewrite Hd, Ha. by vm_compute.
Defined.

(** ** The routing adapter's listing *)

Lemma filter_models_spec models kept :
  filter_models models = Some kept ->
  kept = filter (fun model => has_live_provider model = Some true) models
  /\ Forall (fun model => is_Some (has_live_provider model)) models.
Proof.
  revert kept. induction models as [|model rest IH]; intros kept Hf.
  - by injection Hf as <-.
  - cbn [filter_models] in Hf.
    destruct (has_live_provider model) as [keep|] eqn:Hl; [|done].
    destruct (filter_models rest) as [kept'|]; [|done].
    destruct (IH kept' eq_refl) as [-> Hall]. injection Hf as <-.
    split; [|constructor; [by rewrite Hl|done]].
    rewrite filter_cons, Hl. destruct keep; [by rewrite decide_True|].
    by rewrite decide_False.
Qed.

Lemma filter_models_raises models model :
  model ∈ models -> has_live_provider model = None -> filter_models models = None.
Proof.
  intros Hin Hl. destruct (filter_models models) as [kept|] eqn:Hf; [|done].
  apply filter_models_spec in Hf as [_ Hall].
  rewrite Forall_forall in Hall. specialize (Hall model Hin).
  rewrite Hl in Hall. by destruct Hall.
Qed.

Lemma listing_shape `{Platform} (net : network) (h : HuggingFace) (w : world)
    (listing : list value) :
  (huggingface_models_list net h w).1 = Returns listing ->
  exists r models,
    net (length (w_log w)) (make_request huggingface_models_url empty_config) = Responded r
    /\ response_json r = Returns (VArr models)
    /\ listing = filter (fun model => has_live_provider model = Some true) models
                 ++ cached_models (providerMapping h).
Proof.
  unfold huggingface_models_list, fetch. intros Hl.
  destruct (net _ _) as [|r]; [done|]. destruct (negb (resp_ok r)); [done|].
  destruct (response_json r) as [data|] eqn:Hjson; [|done].
  destruct data as [| | | | |models|]; try done.
  destruct (filter_models models) as [kept|] eqn:Hf; [|done].
  cbn [fst snd w_log] in *. injection Hl as <-.
  apply filter_models_spec in Hf as [-> _]. by exists r, models.
Qed.

Lemma cached_id_is_listed (mapping : list (jsstring * value)) id entry :
  obj_get mapping id = Some entry ->
  VObj [(js "id", VStr id); (js "type", VStr (js "chat"))] ∈ cached_models mapping.
Proof.
  intros Hid. unfold cached_models.
  apply list_elem_of_fmap. exists (id, entry). split; [done|].
  rewrite own_entries_perm. by apply obj_get_Some_elem.
Qed.

(** What [models.list] of the routing adapter answers when it answers: the
    upstream records that have a live conversational provider, as they came
    and in their order, followed by one record of type 'chat' for every
    model id the adapter holds a routing entry for. *)
Theorem huggingface_listing `{Platform} (net : network) (h : HuggingFace) (w : world)
    (listing : list value) :
  (huggingface_models_list net h w).1 = Returns listing ->
  exists r models,
    net (length (w_log w)) (make_request huggingface_models_url empty_config) = Responded r
    /\ response_json r = Returns (VArr models)
    /\ listing = filter (fun model => has_live_provider model = Some true) models
                 ++ cached_models (providerMapping h)
    /\ (forall id entry, obj_get (providerMapping h) id = Some entry ->
          VObj [(js "id", VStr id); (js "type", VStr (js "chat"))] ∈ listing)
    /\ w_log (huggingface_models_list net h w).2
       = w_log w ++ [make_request huggingface_models_url empty_config].
Proof.
  intros Hl. destruct (listing_shape net h w listing Hl) as (r & models & Hnet & Hjson & ->).
  exists r, models. split; [done|]. split; [done|]. split; [done|]. split.
  - intros id entry Hid. apply elem_of_app. right. by eapply cached_id_is_listed.
  - unfold huggingface_models_list, fetch. rewrite Hnet.
    destruct (negb (resp_ok r)); [done|]. rewrite Hjson. by destruct (filter_models models).
Qed.

Lemma huggingface_listing_witness :
  let upstream : network := fun _ req =>
    Responded {| resp_ok := true; resp_status := 200;
                 resp_content_type := Some (js "application/json");
                 resp_url := req_url req;
                 resp_body := Some [jsq "[{'id':'a','inferenceProviderMapping':[{'status':'live','task':'conversational'}]},{'id':'b'}]"] |} in
  let a := VObj [ str_prop "id" "a";
                  (js "inferenceProviderMapping",
                   VArr [VObj [str_prop "status" "live";
                               str_prop "task" "conversational"]]) ] in
  (@huggingface_models_list utf8_platform upstream huggingface (world_with [])).1
  = Returns [a; VObj [str_prop "id" "google/gemma-3-27b-it"; str_prop "type" "chat"]]
  /\ VObj [str_prop "id" "google/gemma-3-27b-it"; str_prop "type" "chat"]
     ∈ [a; VObj [str_prop "id" "google/gemma-3-27b-it"; str_prop "type" "chat"]].
Proof.
  intros upstream a.
  assert (Hrun : (@huggingface_models_list utf8_platform upstream huggingface
                    (world_with [])).1
                 = Returns [a; VObj [str_prop "id" "google/gemma-3-27b-it";
                                     str_prop "type" "chat"]]) by (by vm_compute).
  split; [exact Hrun|].
  destruct (@huggingface_listing utf8_platform upstream huggingface (world_with []) _ Hrun)
    as (r & models & _ & _ & _ & Hcached & _).
  apply (Hcached (js "google/gemma-3-27b-it")
           (VObj [ (js "hf-inference/models/google/gemma-3-27b-it",
                    VObj [ str_prop "task" "conversational";
                           str_prop "providerId" "google/gemma-3-27b-it" ]) ])).
  reflexivity.
Defined.

(** A model for which the lookup found no routing map makes
    [chat.completions.create] fail with ModelResolutionFailed; the lookup
    has nonetheless left an entry under the model's id, so from then on
    [models.list] shows that model as a chat model. *)
Theorem unresolved_model_is_listed `{Platform} (net : network) (h : HuggingFace)
    (p : loc) (w : world) (props : list (jsstring * value)) (mapping : value) :
  w_store w !! p = Some props ->
  let model := huggingface_resolve (h_client h) (prop props (js "model")) in
  truthy (table_get (providerMapping h) model) = false ->
  mapping_of_answer (net (length (w_log w)) (mapping_request h model)) = Returns mapping ->
  truthy mapping = false ->
  let '(r, h', _) := huggingface_chat_create net h p w in
  r = Throws (ModelResolutionFailed model None)
  /\ forall net2 w2 listing,
       (huggingface_models_list net2 h' w2).1 = Returns listing ->
       VObj [(js "id", VStr (to_string model)); (js "type", VStr (js "chat"))] ∈ listing.
Proof.
  intros Hp model Hheld Hanswer Hfalsy. unfold huggingface_chat_create.
  rewrite Hp. fold model. unfold _getMapping. rewrite Hheld. unfold fetch.
  cbn [w_log]. rewrite Hanswer, Hfalsy. cbn [negb]. split; [done|].
  intros net2 w2 listing Hl.
  destruct (listing_shape net2 _ w2 listing Hl) as (r & models & _ & _ & ->).
  apply elem_of_app. right. cbn [providerMapping].
  eapply cached_id_is_listed. apply obj_get_set_eq.
Qed.

Lemma unresolved_model_is_listed_witness :
  let upstream : network := fun _ req =>
    Responded {| resp_ok := true; resp_status := 200;
                 resp_content_type := Some (js "application/json");
                 resp_url := req_url req;
                 resp_body := Some [match req_method req with
                                    | GET => if includes (js "acme") (req_url req)
                                             then jsq "{}" else jsq "[]"
                                    | POST => jsq "{}"
                                    end] |} in
  let '(r, h', w') :=
    @huggingface_chat_create utf8_platform upstream huggingface 1%positive
      (world_with unlisted_params) in
  r = Throws (ModelResolutionFailed (VStr (js "acme/unlisted")) None)
  /\ (@huggingface_models_list utf8_platform upstream h' w').1
     = Returns [ VObj [str_prop "id" "google/gemma-3-27b-it"; str_prop "type" "chat"];
                 VObj [str_prop "id" "acme/unlisted"; str_prop "type" "chat"] ].
Proof.
  intros upstream.
  pose proof (@unresolved_model_is_listed utf8_platform upstream huggingface 1%positive
                (world_with unlisted_params) unlisted_params VUndef
                eq_refl eq_refl eq_refl eq_refl) as Hw.
  cbv zeta in Hw.
  destruct (@huggingface_chat_create utf8_platform upstream huggingface 1%positive
              (world_with unlisted_params)) as [[r h'] w'] eqn:Hrun.
  destruct Hw as [Hr _]. split; [exact Hr|].
  vm_compute in Hrun. injection Hrun as <- <- <-. by vm_compute.
Defined.

(** The two operations of the routing adapter read the routing map of a
    model in two shapes.  [models.list] calls [some] on it: a record whose
    map is an object, keyed by provider, makes the whole listing fail with a
    TypeError.  [chat.completions.create] goes through its keys: for a map
    that is an array, the shape [models.list] accepts, the key is the index
    0, and the request goes to the router path '0/v1'. *)
Theorem listing_and_routing_read_different_shapes `{Platform} :
  (forall net h w r models model entries,
     net (length (w_log w)) (make_request huggingface_models_url empty_config)
     = Responded r ->
     resp_ok r = true -> response_json r = Returns (VArr models) ->
     model ∈ models ->
     get_prop model (js "inferenceProviderMapping") = Some (VObj entries) ->
     (huggingface_models_list net h w).1 = Throws TypeError)
  /\ (forall net h p w props first rest,
        w_store w !! p = Some props ->
        let model := huggingface_resolve (h_client h) (prop props (js "model")) in
        table_get (providerMapping h) model = VArr (first :: rest) ->
        get_prop first (js "task") = Some (VStr (js "conversational")) ->
        w_log (huggingface_chat_create net h p w).2
        = w_log w ++ [ router_request (h_client h) props
                         (VStr (js "https://router.huggingface.co/0/v1"))
                         (opt_get first (js "providerId")) ]).
Proof.
  split.
  - intros net h w r models model entries Hnet Hok Hjson Hin Hmap.
    unfold huggingface_models_list, fetch. rewrite Hnet, Hok, Hjson. cbn [negb].
    rewrite (filter_models_raises models model Hin); [done|].
    unfold has_live_provider. by rewrite Hmap.
  - intros net h p w props first rest Hp model Hheld Htask.
    unfold huggingface_chat_create. rewrite Hp. fold model.
    unfold _getMapping. rewrite Hheld. cbn [truthy negb].
    unfold route. cbn [own_properties imap]. rewrite Htask.
    change (is_conversational (VStr (js "conversational"))) with true. cbn iota.
    change (provider_path (N_to_js (N.of_nat 0)) model) with (js "0/v1").
    unfold fetch. destruct (net _ _) as [|r]; [done|].
    destruct (truthy (prop props (js "stream"))); [done|].
    by destruct (_regularCompletion r).
Qed.

Lemma listing_and_routing_read_different_shapes_witness :
  let upstream : network := fun _ req =>
    Responded {| resp_ok := true; resp_status := 200;
                 resp_content_type := Some (js "application/json");
                 resp_url := req_url req;
                 resp_body :=
                   Some [jsq "[{'id':'a','inferenceProviderMapping':{'novita':{'status':'live','task':'conversational'}}}]"] |} in
  (@huggingface_models_list utf8_platform upstream huggingface (world_with [])).1
  = Throws TypeError.
Proof.
  intros upstream.
  eapply (proj1 (@listing_and_routing_read_different_shapes utf8_platform)
            upstream huggingface (world_with []) _ _ _ _ eq_refl eq_refl).
  - by vm_compute.
  - apply list_elem_of_here.
  - reflexivity.
Defined.

(** ** Puter *)

Lemma puter_filter_names (names : list jsstring) :
  puter_filter (map VStr names)
  = Some (map VStr (filter (fun name => includes (js "/") name = false
                                        /\ name ∉ blockList) names)).
Proof.
  induction names as [|name names IH]; [done|].
  cbn [map puter_filter puter_listed]. rewrite IH, filter_cons.
  destruct (includes (js "/") name) eqn:Hs; cbn [negb andb].
  - rewrite decide_False; [done|]. by intros [? _].
  - case_bool_decide as Hb; cbn [negb].
    + rewrite decide_False; [done|]. by intros [_ ?].
    + by rewrite decide_True.
Qed.

(** [Puter.models.list], for an upstream catalog of names: it lists, in
    their order and as type 'chat', exactly the names that hold no '/' and
    are not on the block list.  The status of the response is not looked
    at: the body of a failure response is listed just the same. *)
Theorem puter_listing `{Platform} (net : network) (w : world) (r : response)
    (data : value) (names : list jsstring) :
  net (length (w_log w)) (make_request puter_models_url empty_config) = Responded r ->
  response_json r = Returns data ->
  get_prop data (js "models") = Some (VArr (map VStr names)) ->
  let listed := filter (fun name => includes (js "/") name = false
                                    /\ name ∉ blockList) names in
  puter_models_list net w
  = (Returns (map (fun name => VObj [(js "id", VStr name); (js "type", VStr (js "chat"))])
                listed),
     {| w_store := w_store w;
        w_log := w_log w ++ [make_request puter_models_url empty_config] |})
  /\ (forall name, name ∈ listed <->
        name ∈ names /\ includes (js "/") name = false /\ name ∉ blockList).
Proof.
  intros Hnet Hjson Hmodels listed. split.
  - unfold puter_models_list, fetch. rewrite Hnet, Hjson, Hmodels, puter_filter_names.
    by rewrite <- list_fmap_compose.
  - intros name. unfold listed. rewrite list_elem_of_filter. tauto.
Qed.

Lemma puter_listing_witness :
  let failing : network := fun _ req =>
    Responded {| resp_ok := false; resp_status := 500; resp_content_type := None;
                 resp_url := req_url req;
                 resp_body := Some [jsq "{'models':['gpt-4.1','openrouter:x/y','fake','o3']}"] |} in
  (@puter_models_list utf8_platform failing (world_with [])).1
  = Returns [ VObj [str_prop "id" "gpt-4.1"; str_prop "type" "chat"];
              VObj [str_prop "id" "o3"; str_prop "type" "chat"] ].
Proof.
  intros failing.
  destruct (@puter_listing utf8_platform failing (world_with []) _ _
              [js "gpt-4.1"; js "openrouter:x/y"; js "fake"; js "o3"]
              eq_refl eq_refl eq_refl) as [Hrun _].
  rewrite Hrun. by vm_compute.
Defined.

Lemma with_choices_object field wrap (fields : list (jsstring * value)) :
  with_choices field wrap (VObj fields)
  = Some (if nullish (prop fields (js "choices")) && defined (prop fields field)
          then VObj (obj_set (own_entries fields) (js "choices")
                       (VArr [wrap (prop fields field)]))
          else VObj fields).
Proof. unfold with_choices. cbn [get_prop]. fold (prop fields (js "choices")).
  fold (prop fields field). by destruct (_ && _). Qed.

(** [Puter.chat.completions.create] without [stream], when the SDK answers
    with an object.  The caller's params are not written to.  The SDK gets
    the caller's [messages] and the other params without [messages], with
    the adapter's default model where the caller named none.  An answer
    whose [choices] is missing or [null] and that has a [message] is
    returned with [choices] holding that message as its one choice and all
    its other properties as they were; any other answer is returned as it
    is.  What is returned needs no further change. *)
Theorem puter_create_normalises (pt : Puter) (p : loc) (w : world)
    (params fields : list (jsstring * value))
    (chat : value -> list (jsstring * value) -> outcome sdk_result) :
  w_store w !! p = Some params ->
  puter_chat pt = Some chat ->
  truthy (p_defaultModel pt) = true ->
  let options := puter_options pt params in
  truthy (prop options (js "stream")) = false ->
  chat (prop params (js "messages")) options = Returns (Plain (VObj fields)) ->
  obj_get options (js "messages") = None
  /\ prop options (js "model") = js_or (prop params (js "model")) (p_defaultModel pt)
  /\ exists response,
       puter_chat_create pt p w = (Returns (PuterResponse (VObj response)), w)
       /\ (if nullish (prop fields (js "choices")) && defined (prop fields (js "message"))
           then prop response (js "choices")
                = VArr [VObj [(js "message", prop fields (js "message"))]]
                /\ forall k, k <> js "choices" -> obj_get response k = obj_get fields k
           else response = fields)
       /\ with_choices (js "message") message_choice (VObj response) = Some (VObj response).
Proof.
  intros Hp Hsdk Hdefault options Hstream Hchat.
  assert (Hmodel : prop options (js "model")
                   = js_or (prop params (js "model")) (p_defaultModel pt)).
  { unfold options, puter_options. rewrite Hdefault, andb_true_r.
    assert (Hm : prop (obj_delete (own_entries params) (js "messages")) (js "model")
                 = prop params (js "model")).
    { unfold prop. by rewrite obj_get_delete_ne, obj_get_own_entries. }
    rewrite Hm. unfold js_or. destruct (truthy (prop params (js "model"))); cbn [negb].
    - done.
    - unfold prop. by rewrite obj_get_set_eq. }
  split; [|split; [done|]].
  { unfold options, puter_options.
    destruct (_ && _); [rewrite obj_get_set_ne by done|]; apply obj_get_delete_eq. }
  unfold puter_chat_create. rewrite Hp. fold options. rewrite Hstream, Hsdk, Hchat.
  rewrite with_choices_object.
  destruct (nullish (prop fields (js "choices")) && defined (prop fields (js "message")))
    eqn:Hcase.
  - eexists. split; [done|]. split; [split|].
    + unfold prop. by rewrite obj_get_set_eq.
    + intros k Hk. by rewrite obj_get_set_ne, obj_get_own_entries.
    + rewrite with_choices_object.
      assert (Hc : prop (obj_set (own_entries fields) (js "choices")
                           (VArr [message_choice (prop fields (js "message"))]))
                     (js "choices")
                   = VArr [message_choice (prop fields (js "message"))])
        by (unfold prop; by rewrite obj_get_set_eq).
      by rewrite Hc.
  - exists fields. split; [done|]. split; [done|].
    rewrite with_choices_object. by rewrite Hcase.
Qed.

Lemma puter_create_normalises_witness :
  let pt := {| p_defaultModel := puter_defaultModel [];
               puter_chat := Some (fun _ options =>
                 Returns (Plain (VObj [ (js "message",
                                         VObj [str_prop "content" "hello"]);
                                        (js "model", prop options (js "model")) ]))) |} in
  puter_chat_create pt 1%positive (world_with plain_chat_params)
  = (Returns (PuterResponse
                (VObj [ (js "message", VObj [str_prop "content" "hello"]);
                        str_prop "model" "gpt-4.1";
                        (js "choices",
                         VArr [VObj [(js "message", VObj [str_prop "content" "hello"])]]) ])),
     world_with plain_chat_params).
Proof.
  intros pt.
  destruct (puter_create_normalises pt 1%positive (world_with plain_chat_params)
              plain_chat_params _ _ eq_refl eq_refl eq_refl eq_refl eq_refl)
    as (_ & _ & response & Hrun & _).
  rewrite Hrun. by vm_compute.
Defined.

Lemma yield_items_objects (items : list value) failure :
  Forall (fun item => exists fields, item = VObj fields) items ->
  yield_items items failure
  = (map (fun item => default item (with_choices (js "text") delta_choice item)) items,
     failure).
Proof.
  induction 1 as [|item items [fields ->] _ IH]; [done|].
  cbn [yield_items map]. rewrite with_choices_object, IH. done.
Qed.

(** The streaming branch of the Puter adapter, for an SDK sequence of
    objects: one item is yielded for each item of the SDK, in order, and the
    sequence ends as the SDK's does.  An item that came with a [text] and
    without [choices] is yielded with the text at
    [choices[0].delta.content]; any other item is yielded as it came. *)
Theorem puter_stream_items (pt : Puter) (messages : value)
    (options : list (jsstring * value))
    (chat : value -> list (jsstring * value) -> outcome sdk_result)
    (items : list value) (failure : option error) :
  puter_chat pt = Some chat ->
  chat messages options = Returns (Sequence items failure) ->
  Forall (fun item => exists fields, item = VObj fields) items ->
  exists yielded,
    puter_streamCompletion pt messages options = (yielded, failure)
    /\ length yielded = length items
    /\ forall i fields, items !! i = Some (VObj fields) ->
         if nullish (prop fields (js "choices")) && defined (prop fields (js "text"))
         then exists item, yielded !! i = Some item
                /\ delta_field item (js "content") = Some (prop fields (js "text"))
                /\ forall k, k <> js "choices" ->
                     get_prop item k = get_prop (VObj fields) k
         else yielded !! i = Some (VObj fields).
Proof.
  intros Hsdk Hchat Hobj. unfold puter_streamCompletion. rewrite Hsdk, Hchat.
  cbn [sdk_items]. rewrite yield_items_objects by done.
  eexists. split; [done|]. split; [by rewrite length_map|].
  intros i fields Hi. rewrite list_lookup_fmap, Hi. cbn [fmap option_fmap option_map].
  rewrite with_choices_object. cbn [default].
  destruct (nullish (prop fields (js "choices")) && defined (prop fields (js "text")));
    [|done].
  eexists. split; [done|]. split.
  - unfold delta_field, first_choice_delta, id. cbn [get_prop mbind option_bind].
    rewrite obj_get_set_eq. reflexivity.
  - intros k Hk. unfold id. cbn [get_prop]. by rewrite obj_get_set_ne, obj_get_own_entries.
Qed.

Lemma puter_stream_items_witness :
  let pt := {| p_defaultModel := puter_defaultModel [];
               puter_chat := Some (fun _ _ =>
                 Returns (Sequence [VObj [str_prop "text" "Hel"];
                                    VObj [str_prop "text" "lo"]] None)) |} in
  exists yielded,
    puter_streamCompletion pt VUndef [] = (yielded, None)
    /\ omap (fun item => delta_field item (js "content")) yielded
       = [VStr (js "Hel"); VStr (js "lo")].
Proof.
  intros pt.
  destruct (puter_stream_items pt VUndef [] _ _ _ eq_refl eq_refl) as (yielded & Hrun & _).
  - repeat constructor; by eexists.
  - exists yielded. split; [exact Hrun|].
    vm_compute in Hrun. injection Hrun as <-. by vm_compute.
Defined.

(** ** The key a client uses *)

(** [new Client(options)], for options without [extraHeaders].  The key
    found in storage is used only when the options name no [baseUrl], no
    [apiEndpoint] and no [apiKey]; otherwise the key is the [apiKey] of the
    options, be it missing.  The headers of every request are Content-Type
    and, exactly when the key in use is truthy, Authorization with 'Bearer '
    before the key. *)
Theorem client_key_and_headers (stored_key : value) (options : list (jsstring * value))
    (c : Client) :
  new_Client stored_key options = Returns c ->
  truthy (prop options (js "extraHeaders")) = false ->
  let configured := truthy (prop options (js "baseUrl"))
                    || truthy (prop options (js "apiEndpoint"))
                    || truthy (prop options (js "apiKey")) in
  apiKey c = (if configured then prop options (js "apiKey") else stored_key)
  /\ (configured = false -> truthy stored_key = true)
  /\ extraHeaders c
     = (js "Content-Type", js "application/json")
       :: (if truthy (apiKey c)
           then [(js "Authorization", js "Bearer " ++ to_string (apiKey c))]
           else []).
Proof.
  intros Hnew Hextra configured. unfold new_Client in Hnew.
  assert (Hu : negb (truthy (prop options (js "baseUrl")))
               && negb (truthy (prop options (js "apiEndpoint")))
               && negb (truthy (prop options (js "apiKey"))) = negb configured).
  { unfold configured. by rewrite !negb_orb. }
  rewrite Hu in Hnew.
  assert (Hheaders : forall key : value,
            map (fun p : jsstring * value => (p.1, to_string p.2))
              (merge_objects
                 ((js "Content-Type", VStr (js "application/json"))
                  :: (if truthy key
                      then [(js "Authorization", VStr (js "Bearer " ++ to_string key))]
                      else []))
                 (own_properties (VObj [])))
            = (js "Content-Type", js "application/json")
              :: (if truthy key
                  then [(js "Authorization", js "Bearer " ++ to_string key)]
                  else [])).
  { intros key. by destruct (truthy key). }
  destruct configured; cbn [negb andb] in Hnew.
  - injection Hnew as <-. cbn [apiKey extraHeaders]. split; [done|]. split; [done|].
    unfold js_or. rewrite Hextra. apply Hheaders.
  - destruct (truthy stored_key) eqn:Hs; [|done]. cbn [negb] in Hnew.
    injection Hnew as <-. cbn [apiKey extraHeaders].
    assert (Hk : prop (obj_set options (js "apiKey") stored_key) (js "apiKey") = stored_key)
      by (unfold prop; by rewrite obj_get_set_eq).
    assert (He : prop (obj_set options (js "apiKey") stored_key) (js "extraHeaders")
                 = prop options (js "extraHeaders"))
      by (unfold prop; by rewrite obj_get_set_ne).
    rewrite Hk, He. split; [done|]. split; [done|].
    unfold js_or. rewrite Hextra. apply Hheaders.
Qed.

Lemma client_key_and_headers_witness :
  exists c,
    new_Client (VStr (js "stored")) [str_prop "baseUrl" "https://x.test/v1"] = Returns c
    /\ apiKey c = VUndef
    /\ extraHeaders c = [(js "Content-Type", js "application/json")].
Proof.
  destruct (new_Client (VStr (js "stored")) [str_prop "baseUrl" "https://x.test/v1"])
    as [c|e] eqn:Hnew; [|by vm_compute in Hnew].
  exists c. split; [done|].
  destruct (client_key_and_headers _ _ c Hnew eq_refl) as (Hk & _ & Hh).
  split; [exact Hk|]. rewrite Hh, Hk. reflexivity.
Defined.
